(** * D2D vs cellular mode-selection simulator: a shallow embedding

    This development models the radio-environment engine of the simulator:
    [simulator/channel_model.py], [simulator/entities.py],
    [simulator/environment.py] and their "paper" counterparts under
    [simulator_paper/].

    Modelling choices.
    - Python floats are modelled by real numbers [R].  Where the emitted
      record takes a NumPy logarithm whose argument may be zero or negative
      ([np.log10], [np.log2]), the result is an extended value [ext] with
      the IEEE specials [-inf] and [nan] that NumPy returns there.
    - NumPy's global random stream is an explicit state [S] threaded through
      every call.  The primitive draws are the methods of the class
      [NpRandom]; [np.random.uniform(a, b)] is [a + (b - a) * rand ()] as
      in NumPy's legacy generator.
    - Python's [SimulationConfig] and [PaperConfig] classes are records. *)

From Stdlib Require Import Reals Lra Lia List String Bool ZArith.
From Stdlib Require Import DecimalString.
From Stdlib Require Import Sorted.
Import ListNotations.

Open Scope R_scope.
Open Scope string_scope.

(** ** Numeric helpers *)

(** [np.log10] on a positive argument, the only place it is used by the
    path-loss formulas (their distance is floored at 1 m or 0.1 m). *)
Definition log10 (x : R) : R := ln x / ln 10.

Definition log2 (x : R) : R := ln x / ln 2.

(** [a ** b] on floats with base 10. *)
Definition pow10 (x : R) : R := Rpower 10 x.

(** Results of NumPy logarithms: finite, infinite or not-a-number. *)
Inductive ext : Type :=
| Fin (r : R)
| PosInf
| NegInf
| NaN.

Definition is_finite (e : ext) : bool :=
  match e with Fin _ => true | _ => false end.

(** [np.log10]: [-inf] at 0 and [nan] below. *)
Definition np_log10 (x : R) : ext :=
  if Rlt_dec 0 x then Fin (log10 x)
  else if Req_dec_T x 0 then NegInf else NaN.

Definition np_log2 (x : R) : ext :=
  if Rlt_dec 0 x then Fin (log2 x)
  else if Req_dec_T x 0 then NegInf else NaN.

(** [c * e] for a float constant [c] and a NumPy result [e]. *)
Definition ext_scale (c : R) (e : ext) : ext :=
  match e with
  | Fin r => Fin (c * r)
  | NaN => NaN
  | PosInf => if Rlt_dec 0 c then PosInf
              else if Rlt_dec c 0 then NegInf else NaN
  | NegInf => if Rlt_dec 0 c then NegInf
              else if Rlt_dec c 0 then PosInf else NaN
  end.

(** [e / c] for a non-zero float constant [c]. *)
Definition ext_div (e : ext) (c : R) : ext := ext_scale (/ c) e.

(** Python's [a >= b] on floats (false as soon as one side is [nan]). *)
Definition ext_ge (a b : ext) : bool :=
  match a, b with
  | NaN, _ | _, NaN => false
  | PosInf, _ => true
  | _, NegInf => true
  | NegInf, _ => false
  | _, PosInf => false
  | Fin x, Fin y => if Rge_dec x y then true else false
  end.

(** ** NumPy's global random stream *)

Class NpRandom (S : Type) := {
  rand : S -> R * S;                 (* np.random.rand(): a draw in [0, 1) *)
  randn : S -> R * S;                (* np.random.randn() *)
  exponential : R -> S -> R * S;     (* np.random.exponential(scale) *)
  randint : Z -> Z -> S -> Z * S     (* np.random.randint(lo, hi) *)
}.

(** A stateful computation over the random stream. *)
Definition M (S A : Type) : Type := S -> A * S.

Definition ret {S A} (a : A) : M S A := fun s => (a, s).

Definition bind {S A B} (m : M S A) (k : A -> M S B) : M S B :=
  fun s => let (a, s') := m s in k a s'.

Notation "x <- m ;; k" := (bind m (fun x => k))
  (at level 61, m at next level, right associativity).

Section Draws.
Context {St : Type} `{NpRandom St}.

(** [np.random.uniform(low, high)] *)
Definition uniform (low high : R) : M St R :=
  u <- rand ;; ret (low + (high - low) * u).

End Draws.

(** ** Configuration ([simulator/config.py]) *)

Record SimulationConfig := {
  D2D_MAX_DIST_M : R;
  PROBABILITY_START_MOVING : R;
  USE_RANDOM_SHADOWING : bool;
  USE_RAYLEIGH_FADING : bool;
  INTERFERENCE_LOAD_FACTOR : R;
  BANDWIDTH_HZ : R;
  CARRIER_FREQ_MHZ : R;
  CELL_RADIUS_M : R;
  NOISE_POWER_DBM : R;
  TX_POWER_BS_DBM : R;
  TX_POWER_D2D_DBM : R;
  PATH_LOSS_CELLULAR_A : R;
  PATH_LOSS_CELLULAR_B : R;
  PATH_LOSS_D2D_A : R;
  PATH_LOSS_D2D_B_FREQ : R;
  PATH_LOSS_D2D_C_DIST : R;
  SHADOWING_SIGMA_DB : R;
  SHADOWING_SIGMA_MIN : R;
  SHADOWING_SIGMA_MAX : R;
  TIME_STEP_S : R;
  SPEED_MIN : R;
  SPEED_MAX : R
}.

(** The class attributes as they stand in [simulator/config.py]. *)
Definition simulation_config : SimulationConfig := {|
  D2D_MAX_DIST_M := 50;
  PROBABILITY_START_MOVING := 1/10;
  USE_RANDOM_SHADOWING := false;
  USE_RAYLEIGH_FADING := true;
  INTERFERENCE_LOAD_FACTOR := 1;
  BANDWIDTH_HZ := 10000000;
  CARRIER_FREQ_MHZ := 700;
  CELL_RADIUS_M := 500;
  NOISE_POWER_DBM := -174 + 10 * log10 10000000;
  TX_POWER_BS_DBM := 46;
  TX_POWER_D2D_DBM := 23;
  PATH_LOSS_CELLULAR_A := 1281/10;
  PATH_LOSS_CELLULAR_B := 376/10;
  PATH_LOSS_D2D_A := 3245/100;
  PATH_LOSS_D2D_B_FREQ := 20;
  PATH_LOSS_D2D_C_DIST := 20;
  SHADOWING_SIGMA_DB := 6;
  SHADOWING_SIGMA_MIN := 4;
  SHADOWING_SIGMA_MAX := 8;
  TIME_STEP_S := 1;
  SPEED_MIN := 1;
  SPEED_MAX := 10
|}.

(** [SimulationConfig.get_noise_power_watts] *)
Definition get_noise_power_watts (cfg : SimulationConfig) : R :=
  pow10 ((NOISE_POWER_DBM cfg - 30) / 10).

(** ** Configuration ([simulator_paper/config.py]) *)

Record PaperConfig := {
  P_D2D_MAX_DIST_M : R;
  P_PROBABILITY_START_MOVING : R;
  P_INTERFERENCE_LOAD_FACTOR : R;
  P_BANDWIDTH_HZ : R;
  P_CARRIER_FREQ_MHZ : R;
  P_CELL_RADIUS_M : R;
  P_NOISE_POWER_DBM : R;
  P_TX_POWER_BS_DBM : R;
  P_TX_POWER_D2D_DBM : R;
  P_PATH_LOSS_CELLULAR_A : R;
  P_PATH_LOSS_CELLULAR_B : R;
  P_PATH_LOSS_D2D_A : R;
  P_PATH_LOSS_D2D_B_FREQ : R;
  P_PATH_LOSS_D2D_C_DIST : R;
  P_TIME_STEP_S : R;
  P_NUM_INTERFERER : nat;
  P_SPEED : R
}.

Definition paper_config : PaperConfig := {|
  P_D2D_MAX_DIST_M := 500;
  P_PROBABILITY_START_MOVING := 1;
  P_INTERFERENCE_LOAD_FACTOR := 1/10;
  P_BANDWIDTH_HZ := 20000000;
  P_CARRIER_FREQ_MHZ := 700;
  P_CELL_RADIUS_M := 500;
  P_NOISE_POWER_DBM := -174 + 10 * log10 20000000;
  P_TX_POWER_BS_DBM := 46;
  P_TX_POWER_D2D_DBM := 23;
  P_PATH_LOSS_CELLULAR_A := 1281/10;
  P_PATH_LOSS_CELLULAR_B := 376/10;
  P_PATH_LOSS_D2D_A := 3245/100;
  P_PATH_LOSS_D2D_B_FREQ := 20;
  P_PATH_LOSS_D2D_C_DIST := 20;
  P_TIME_STEP_S := 1;
  P_NUM_INTERFERER := 20;
  P_SPEED := 3
|}.

(** [PaperConfig.get_noise_power_watts] *)
Definition paper_noise_power_watts (cfg : PaperConfig) : R :=
  pow10 ((P_NOISE_POWER_DBM cfg - 30) / 10).

(** ** Channel model ([simulator/channel_model.py], class [ChannelModel]) *)

Section ChannelModel.
Context {St : Type} `{NpRandom St}.
Variable cfg : SimulationConfig.

Definition calculate_path_loss_cellular (distance_m : R) : R :=
  let distance_m := Rmax distance_m 1 in
  let distance_km := distance_m / 1000 in
  PATH_LOSS_CELLULAR_A cfg + PATH_LOSS_CELLULAR_B cfg * log10 distance_km.

Definition calculate_path_loss_d2d (distance_m : R) : R :=
  let distance_m := Rmax distance_m (1/10) in
  let distance_km := distance_m / 1000 in
  let freq_mhz := CARRIER_FREQ_MHZ cfg in
  PATH_LOSS_D2D_A cfg + PATH_LOSS_D2D_B_FREQ cfg * log10 freq_mhz
    + PATH_LOSS_D2D_C_DIST cfg * log10 distance_km.

Definition get_shadowing : M St R :=
  sigma <- (if USE_RANDOM_SHADOWING cfg
            then uniform (SHADOWING_SIGMA_MIN cfg) (SHADOWING_SIGMA_MAX cfg)
            else ret (SHADOWING_SIGMA_DB cfg)) ;;
  z <- randn ;;
  ret (sigma * z).

Definition get_rayleigh_fading_gain : M St R :=
  if negb (USE_RAYLEIGH_FADING cfg) then ret 1
  else exponential 1.

Definition compute_received_power (tx_power_dbm distance_m : R) (is_d2d : bool)
  : M St R :=
  let path_loss_db := if is_d2d then calculate_path_loss_d2d distance_m
                      else calculate_path_loss_cellular distance_m in
  shadowing_db <- get_shadowing ;;
  let rx_power_dbm := tx_power_dbm - path_loss_db + shadowing_db in
  let rx_power_watts := pow10 ((rx_power_dbm - 30) / 10) in
  fading_gain <- get_rayleigh_fading_gain ;;
  ret (rx_power_watts * fading_gain).

End ChannelModel.

(** ** Channel model ([simulator_paper/channel_model.py], [ChannelModelPaper]) *)

Section ChannelModelPaper.
Context {St : Type}.
Variable pcfg : PaperConfig.

Definition paper_path_loss_cellular (distance_m : R) : R :=
  let distance_m := Rmax distance_m 1 in
  let distance_km := distance_m / 1000 in
  P_PATH_LOSS_CELLULAR_A pcfg + P_PATH_LOSS_CELLULAR_B pcfg * log10 distance_km.

Definition paper_path_loss_d2d (distance_m : R) : R :=
  let distance_m := Rmax distance_m (1/10) in
  let distance_km := distance_m / 1000 in
  let freq_mhz := P_CARRIER_FREQ_MHZ pcfg in
  P_PATH_LOSS_D2D_A pcfg + P_PATH_LOSS_D2D_B_FREQ pcfg * log10 freq_mhz
    + P_PATH_LOSS_D2D_C_DIST pcfg * log10 distance_km.

(** The paper model threads the random stream like the proposed one (the
    engine calls it in the same place) but never draws from it. *)
Definition paper_compute_received_power (tx_power_dbm distance_m : R)
  (is_d2d : bool) : M St R :=
  let path_loss_db := if is_d2d then paper_path_loss_d2d distance_m
                      else paper_path_loss_cellular distance_m in
  let rx_power_dbm := tx_power_dbm - path_loss_db in
  let rx_power_watts := pow10 ((rx_power_dbm - 30) / 10) in
  ret rx_power_watts.

End ChannelModelPaper.

(** ** Entities ([simulator/entities.py]) *)

(** A 2-D NumPy array. *)
Record Vec2 := mkVec2 { vx : R; vy : R }.

Definition vadd (a b : Vec2) : Vec2 := mkVec2 (vx a + vx b) (vy a + vy b).
Definition vsub (a b : Vec2) : Vec2 := mkVec2 (vx a - vx b) (vy a - vy b).
Definition vscale (c : R) (a : Vec2) : Vec2 := mkVec2 (c * vx a) (c * vy a).
Definition vdiv (a : Vec2) (c : R) : Vec2 := mkVec2 (vx a / c) (vy a / c).

(** [np.linalg.norm] on a 2-vector. *)
Definition norm (a : Vec2) : R := sqrt (vx a * vx a + vy a * vy a).

Record BaseStation := mkBaseStation {
  bs_position : Vec2;
  bs_tx_power_dbm : R
}.

Definition new_base_station (cfg : SimulationConfig) : BaseStation :=
  mkBaseStation (mkVec2 0 0) (TX_POWER_BS_DBM cfg).

Record UserEquipment := mkUE {
  device_id : string;
  position : Vec2;
  destination : Vec2;
  is_paused : bool;
  speed : R;
  tx_power_dbm : R
}.

Definition set_position (ue : UserEquipment) (p : Vec2) : UserEquipment :=
  mkUE (device_id ue) p (destination ue) (is_paused ue) (speed ue) (tx_power_dbm ue).

Definition set_destination (ue : UserEquipment) (d : Vec2) : UserEquipment :=
  mkUE (device_id ue) (position ue) d (is_paused ue) (speed ue) (tx_power_dbm ue).

Definition set_paused (ue : UserEquipment) (b : bool) : UserEquipment :=
  mkUE (device_id ue) (position ue) (destination ue) b (speed ue) (tx_power_dbm ue).

(** [BaseStation.get_distance_to] *)
Definition bs_get_distance_to (bs : BaseStation) (other : UserEquipment) : R :=
  norm (vsub (bs_position bs) (position other)).

(** [UserEquipment.get_distance_to] *)
Definition get_distance_to (ue other : UserEquipment) : R :=
  norm (vsub (position ue) (position other)).

Section Mobility.
Context {St : Type} `{NpRandom St}.
(** [CELL_RADIUS_M], [PROBABILITY_START_MOVING] and [TIME_STEP_S]. *)
Variables (cell_radius p_start dt : R).

(** [UserEquipment._get_random_point_in_cell] *)
Definition _get_random_point_in_cell : M St Vec2 :=
  u <- rand ;;
  let radius := cell_radius * sqrt u in
  a <- rand ;;
  let angle := 2 * PI * a in
  ret (mkVec2 (radius * cos angle) (radius * sin angle)).

(** CASE 2 of [UserEquipment.move]: one step towards the destination. *)
Definition advance (ue : UserEquipment) : UserEquipment :=
  let direction_vector := vsub (destination ue) (position ue) in
  let distance_to_dest := norm direction_vector in
  let step_distance := speed ue * dt in
  if Rge_dec step_distance distance_to_dest then
    set_paused (set_position ue (destination ue)) true
  else
    let unit_vector := vdiv direction_vector distance_to_dest in
    set_position ue (vadd (position ue) (vscale step_distance unit_vector)).

(** [UserEquipment.move] *)
Definition move (ue : UserEquipment) : M St UserEquipment :=
  if is_paused ue then
    u <- rand ;;
    if Rlt_dec u p_start then
      d <- _get_random_point_in_cell ;;
      ret (advance (set_destination (set_paused ue false) d))
    else ret ue
  else ret (advance ue).

End Mobility.

Section UserEquipmentInit.
Context {St : Type} `{NpRandom St}.
Variable cfg : SimulationConfig.

(** [UserEquipment.__init__(device_id, speed_type)] *)
Definition new_user_equipment (id : string) (speed_type : string)
  : M St UserEquipment :=
  p <- _get_random_point_in_cell (CELL_RADIUS_M cfg) ;;
  d <- _get_random_point_in_cell (CELL_RADIUS_M cfg) ;;
  v <- (if String.eqb speed_type "pedestrian" then uniform 1 3
        else if String.eqb speed_type "vehicle" then uniform 3 10
        else uniform (SPEED_MIN cfg) (SPEED_MAX cfg)) ;;
  ret (mkUE id p d false v (TX_POWER_D2D_DBM cfg)).

(** [UserEquipment.move] with the class attributes of [SimulationConfig]. *)
Definition ue_move : UserEquipment -> M St UserEquipment :=
  move (CELL_RADIUS_M cfg) (PROBABILITY_START_MOVING cfg) (TIME_STEP_S cfg).

End UserEquipmentInit.

(** ** Environment ([simulator/environment.py], [simulator_paper/environment.py]) *)

Record Env := mkEnv {
  bs : BaseStation;
  d2d_tx : option UserEquipment;
  d2d_rx : option UserEquipment;
  interferers : list UserEquipment;
  time_step : nat
}.

(** The dictionary returned by [step()]. *)
Record StepRecord := mkStepRecord {
  timestamp : nat;
  episode_id : Z;
  tx_pos_x : R;
  tx_pos_y : R;
  rx_pos_x : R;
  rx_pos_y : R;
  distance_tx_rx : R;
  distance_bs_rx : R;
  tx_speed_mps : R;
  rx_speed_mps : R;
  tx_power_d2d_dbm : R;
  tx_power_bs_dbm : R;
  rx_power_d2d_dbm : ext;
  rx_power_cell_dbm : ext;
  interference_dbm : ext;
  noise_dbm : ext;
  sinr_d2d_db : ext;
  sinr_cell_db : ext;
  throughput_d2d_mbps : ext;
  throughput_cell_mbps : ext;
  optimal_mode : string
}.

(** [10 * np.log10(p * 1000)]: Watts to dBm as the record computes it. *)
Definition watts_to_dbm (p : R) : ext := ext_scale 10 (np_log10 (p * 1000)).

(** The body of [step()] is the same text in both environments; it is
    parameterised here by the mobility step of a UE, by the channel
    model's [compute_received_power], and by the configuration's
    [INTERFERENCE_LOAD_FACTOR], [get_noise_power_watts()] and
    [BANDWIDTH_HZ]. *)
Section Engine.
Context {St : Type}.
Variable ue_step : UserEquipment -> M St UserEquipment.
Variable received_power : R -> R -> bool -> M St R.
Variables (rho noise_watts bandwidth_hz : R).

(** [for device in self.interferers: device.move()] *)
Fixpoint move_each (ues : list UserEquipment) : M St (list UserEquipment) :=
  match ues with
  | [] => ret []
  | u :: us => u' <- ue_step u ;; us' <- move_each us ;; ret (u' :: us')
  end.

(** The interference loop of [step()], accumulating into
    [total_interference_watts]. *)
Fixpoint sum_interference (rx : UserEquipment) (ints : list UserEquipment)
  (total_interference_watts : R) : M St R :=
  match ints with
  | [] => ret total_interference_watts
  | interferer :: rest =>
      let dist_int_to_rx := get_distance_to interferer rx in
      raw_interference_watts <-
        received_power (tx_power_dbm interferer) dist_int_to_rx true ;;
      sum_interference rx rest
        (total_interference_watts + rho * raw_interference_watts)
  end.

(** [step()] *)
Definition step (env : Env) : M St (option (StepRecord * Env)) :=
  match d2d_tx env, d2d_rx env with
  | Some tx, Some rx =>
      let time_step' := S (time_step env) in
      tx' <- ue_step tx ;;
      rx' <- ue_step rx ;;
      ints' <- move_each (interferers env) ;;
      let dist_d2d := get_distance_to tx' rx' in
      let dist_cellular := bs_get_distance_to (bs env) rx' in
      s_d2d_watts <- received_power (tx_power_dbm tx') dist_d2d true ;;
      s_cellular_watts <-
        received_power (bs_tx_power_dbm (bs env)) dist_cellular false ;;
      total_interference_watts <- sum_interference rx' ints' 0 ;;
      let sinr_d2d_linear :=
        s_d2d_watts / (total_interference_watts + noise_watts) in
      let sinr_d2d_db := ext_scale 10 (np_log10 sinr_d2d_linear) in
      let sinr_cell_linear :=
        s_cellular_watts / (total_interference_watts + noise_watts) in
      let sinr_cell_db := ext_scale 10 (np_log10 sinr_cell_linear) in
      let tput_d2d_mbps :=
        ext_div (ext_scale bandwidth_hz (np_log2 (1 + sinr_d2d_linear))) 1000000 in
      let tput_cell_mbps :=
        ext_div (ext_scale bandwidth_hz (np_log2 (1 + sinr_cell_linear))) 1000000 in
      let optimal_mode :=
        if ext_ge tput_d2d_mbps tput_cell_mbps then "D2D" else "Cellular" in
      let state := {|
        timestamp := time_step';
        episode_id := 0%Z;  (* getattr(self, 'episode_id', 0): never set *)
        tx_pos_x := vx (position tx');
        tx_pos_y := vy (position tx');
        rx_pos_x := vx (position rx');
        rx_pos_y := vy (position rx');
        distance_tx_rx := dist_d2d;
        distance_bs_rx := dist_cellular;
        tx_speed_mps := speed tx';
        rx_speed_mps := speed rx';
        tx_power_d2d_dbm := tx_power_dbm tx';
        tx_power_bs_dbm := bs_tx_power_dbm (bs env);
        rx_power_d2d_dbm := watts_to_dbm s_d2d_watts;
        rx_power_cell_dbm := watts_to_dbm s_cellular_watts;
        interference_dbm := watts_to_dbm total_interference_watts;
        noise_dbm := watts_to_dbm noise_watts;
        sinr_d2d_db := sinr_d2d_db;
        sinr_cell_db := sinr_cell_db;
        throughput_d2d_mbps := tput_d2d_mbps;
        throughput_cell_mbps := tput_cell_mbps;
        optimal_mode := optimal_mode
      |} in
      ret (Some (state, mkEnv (bs env) (Some tx') (Some rx') ints' time_step'))
  | _, _ => ret None
  end.

(** The first half of [step()]: the step counter and every movement. *)
Definition move_entities (env : Env) : M St (option Env) :=
  match d2d_tx env, d2d_rx env with
  | Some tx, Some rx =>
      tx' <- ue_step tx ;;
      rx' <- ue_step rx ;;
      ints' <- move_each (interferers env) ;;
      ret (Some (mkEnv (bs env) (Some tx') (Some rx') ints'
                       (S (time_step env))))
  | _, _ => ret None
  end.

(** The second half of [step()]: the channel evaluation and the record,
    reading the entities of [env] only. *)
Definition evaluate_channel (env : Env) : M St (option StepRecord) :=
  match d2d_tx env, d2d_rx env with
  | Some tx, Some rx =>
      let dist_d2d := get_distance_to tx rx in
      let dist_cellular := bs_get_distance_to (bs env) rx in
      s_d2d_watts <- received_power (tx_power_dbm tx) dist_d2d true ;;
      s_cellular_watts <-
        received_power (bs_tx_power_dbm (bs env)) dist_cellular false ;;
      total_interference_watts <- sum_interference rx (interferers env) 0 ;;
      let sinr_d2d_linear :=
        s_d2d_watts / (total_interference_watts + noise_watts) in
      let sinr_cell_linear :=
        s_cellular_watts / (total_interference_watts + noise_watts) in
      let tput_d2d_mbps :=
        ext_div (ext_scale bandwidth_hz (np_log2 (1 + sinr_d2d_linear))) 1000000 in
      let tput_cell_mbps :=
        ext_div (ext_scale bandwidth_hz (np_log2 (1 + sinr_cell_linear))) 1000000 in
      ret (Some {|
        timestamp := time_step env;
        episode_id := 0%Z;
        tx_pos_x := vx (position tx);
        tx_pos_y := vy (position tx);
        rx_pos_x := vx (position rx);
        rx_pos_y := vy (position rx);
        distance_tx_rx := dist_d2d;
        distance_bs_rx := dist_cellular;
        tx_speed_mps := speed tx;
        rx_speed_mps := speed rx;
        tx_power_d2d_dbm := tx_power_dbm tx;
        tx_power_bs_dbm := bs_tx_power_dbm (bs env);
        rx_power_d2d_dbm := watts_to_dbm s_d2d_watts;
        rx_power_cell_dbm := watts_to_dbm s_cellular_watts;
        interference_dbm := watts_to_dbm total_interference_watts;
        noise_dbm := watts_to_dbm noise_watts;
        sinr_d2d_db := ext_scale 10 (np_log10 sinr_d2d_linear);
        sinr_cell_db := ext_scale 10 (np_log10 sinr_cell_linear);
        throughput_d2d_mbps := tput_d2d_mbps;
        throughput_cell_mbps := tput_cell_mbps;
        optimal_mode :=
          if ext_ge tput_d2d_mbps tput_cell_mbps then "D2D" else "Cellular"
      |})
  | _, _ => ret None
  end.

(** The value [total_interference_watts] reaches in [step()] (the part of
    [step()] up to the end of the interference loop). *)
Definition step_total_interference (env : Env) : M St (option R) :=
  match d2d_tx env, d2d_rx env with
  | Some tx, Some rx =>
      tx' <- ue_step tx ;;
      rx' <- ue_step rx ;;
      ints' <- move_each (interferers env) ;;
      let dist_d2d := get_distance_to tx' rx' in
      let dist_cellular := bs_get_distance_to (bs env) rx' in
      s_d2d_watts <- received_power (tx_power_dbm tx') dist_d2d true ;;
      s_cellular_watts <-
        received_power (bs_tx_power_dbm (bs env)) dist_cellular false ;;
      total_interference_watts <- sum_interference rx' ints' 0 ;;
      ret (Some total_interference_watts)
  | _, _ => ret None
  end.

End Engine.

Definition string_of_nat (n : nat) : string :=
  NilZero.string_of_uint (Nat.to_uint n).

(** *** The proposed configuration ([D2DEnvironment]) *)

Section ProposedEnvironment.
Context {St : Type} `{NpRandom St}.
Variable cfg : SimulationConfig.

(** [[UserEquipment(f"Int_{i}", speed_type='vehicle') for i in range(n)]],
    from index [i] on. *)
Fixpoint make_interferers (n i : nat) : M St (list UserEquipment) :=
  match n with
  | O => ret []
  | S n' =>
      u <- new_user_equipment cfg ("Int_" ++ string_of_nat i) "vehicle" ;;
      us <- make_interferers n' (S i) ;;
      ret (u :: us)
  end.

(** [D2DEnvironment.reset] (its result, [self.get_state()], is [None]). *)
Definition reset (env : Env) : M St Env :=
  tx <- new_user_equipment cfg "Target_Tx" "mixed" ;;
  rx <- new_user_equipment cfg "Target_Rx" "mixed" ;;
  angle <- uniform 0 (2 * PI) ;;
  radius <- uniform 10 (D2D_MAX_DIST_M cfg) ;;
  let rx_pos := vadd (position tx)
                  (mkVec2 (radius * cos angle) (radius * sin angle)) in
  let rx := set_position rx rx_pos in
  num_interferers <- randint 10 21 ;;
  ints <- make_interferers (Z.to_nat num_interferers) 0 ;;
  ret (mkEnv (bs env) (Some tx) (Some rx) ints 0).

(** [D2DEnvironment.__init__]: the fields, then [self.reset()]. *)
Definition new_environment : M St Env :=
  reset (mkEnv (new_base_station cfg) None None [] 0).

(** [D2DEnvironment.step] *)
Definition env_step : Env -> M St (option (StepRecord * Env)) :=
  step (ue_move cfg) (compute_received_power cfg)
    (INTERFERENCE_LOAD_FACTOR cfg) (get_noise_power_watts cfg) (BANDWIDTH_HZ cfg).

End ProposedEnvironment.

(** *** The paper configuration ([D2DEnvironmentPaper]) *)

Section PaperEnvironment.
Context {St : Type} `{NpRandom St}.
Variable pcfg : PaperConfig.

(** Modelled from the spec: [simulator_paper/entities.py] is not part of the
    sources, only imported by [simulator_paper/environment.py].  Following
    the spec's data model, a UE draws its position and then its destination
    uniformly in the cell disc (radius [R * sqrt u]), starts unpaused and
    transmits at the D2D power; its speed is the configuration's constant
    [SPEED]. *)
Definition paper_user_equipment (id : string) : M St UserEquipment :=
  p <- _get_random_point_in_cell (P_CELL_RADIUS_M pcfg) ;;
  d <- _get_random_point_in_cell (P_CELL_RADIUS_M pcfg) ;;
  ret (mkUE id p d false (P_SPEED pcfg) (P_TX_POWER_D2D_DBM pcfg)).

(** Modelled from the spec: the paper [UserEquipment.move], the
    random-waypoint-with-pause step of the spec's mobility model with the
    paper configuration's constants. *)
Definition paper_move : UserEquipment -> M St UserEquipment :=
  move (P_CELL_RADIUS_M pcfg) (P_PROBABILITY_START_MOVING pcfg) (P_TIME_STEP_S pcfg).

(** Modelled from the spec: the paper [BaseStation], at the origin with the
    base-station transmit power. *)
Definition paper_base_station : BaseStation :=
  mkBaseStation (mkVec2 0 0) (P_TX_POWER_BS_DBM pcfg).

Fixpoint paper_make_interferers (n i : nat) : M St (list UserEquipment) :=
  match n with
  | O => ret []
  | S n' =>
      u <- paper_user_equipment ("Int_" ++ string_of_nat i) ;;
      us <- paper_make_interferers n' (S i) ;;
      ret (u :: us)
  end.

(** [D2DEnvironmentPaper.reset] *)
Definition paper_reset (env : Env) : M St Env :=
  tx <- paper_user_equipment "Target_Tx" ;;
  rx <- paper_user_equipment "Target_Rx" ;;
  p <- _get_random_point_in_cell (P_CELL_RADIUS_M pcfg) ;;
  let rx := set_position rx p in
  let dist := get_distance_to tx rx in
  let _ := (if Rgt_dec dist (P_D2D_MAX_DIST_M pcfg) then tt else tt) in
  let num_interferers := P_NUM_INTERFERER pcfg in
  ints <- paper_make_interferers num_interferers 0 ;;
  ret (mkEnv (bs env) (Some tx) (Some rx) ints 0).

Definition paper_new_environment : M St Env :=
  paper_reset (mkEnv paper_base_station None None [] 0).

(** [D2DEnvironmentPaper.step] *)
Definition paper_env_step : Env -> M St (option (StepRecord * Env)) :=
  step paper_move (paper_compute_received_power pcfg)
    (P_INTERFERENCE_LOAD_FACTOR pcfg) (paper_noise_power_watts pcfg)
    (P_BANDWIDTH_HZ pcfg).

End PaperEnvironment.

(** ** Runs *)

Section Runs.
Context {St : Type} `{NpRandom St}.
Variable cfg : SimulationConfig.

(** The states a [D2DEnvironment] goes through: construction, then any
    sequence of [reset()] and [step()] calls (a failed assertion in [step()]
    ends the run). *)
Inductive run : Env -> St -> Prop :=
| run_new (s : St) :
    run (fst (new_environment cfg s)) (snd (new_environment cfg s))
| run_reset (env : Env) (s : St) :
    run env s -> run (fst (reset cfg env s)) (snd (reset cfg env s))
| run_step (env : Env) (s : St) (rec : StepRecord) (env' : Env) (s' : St) :
    run env s -> env_step cfg env s = (Some (rec, env'), s') -> run env' s'.

End Runs.

(** [PaperConfig] with another [D2D_MAX_DIST_M]. *)
Definition with_max_dist (pcfg : PaperConfig) (m : R) : PaperConfig := {|
  P_D2D_MAX_DIST_M := m;
  P_PROBABILITY_START_MOVING := P_PROBABILITY_START_MOVING pcfg;
  P_INTERFERENCE_LOAD_FACTOR := P_INTERFERENCE_LOAD_FACTOR pcfg;
  P_BANDWIDTH_HZ := P_BANDWIDTH_HZ pcfg;
  P_CARRIER_FREQ_MHZ := P_CARRIER_FREQ_MHZ pcfg;
  P_CELL_RADIUS_M := P_CELL_RADIUS_M pcfg;
  P_NOISE_POWER_DBM := P_NOISE_POWER_DBM pcfg;
  P_TX_POWER_BS_DBM := P_TX_POWER_BS_DBM pcfg;
  P_TX_POWER_D2D_DBM := P_TX_POWER_D2D_DBM pcfg;
  P_PATH_LOSS_CELLULAR_A := P_PATH_LOSS_CELLULAR_A pcfg;
  P_PATH_LOSS_CELLULAR_B := P_PATH_LOSS_CELLULAR_B pcfg;
  P_PATH_LOSS_D2D_A := P_PATH_LOSS_D2D_A pcfg;
  P_PATH_LOSS_D2D_B_FREQ := P_PATH_LOSS_D2D_B_FREQ pcfg;
  P_PATH_LOSS_D2D_C_DIST := P_PATH_LOSS_D2D_C_DIST pcfg;
  P_TIME_STEP_S := P_TIME_STEP_S pcfg;
  P_NUM_INTERFERER := P_NUM_INTERFERER pcfg;
  P_SPEED := P_SPEED pcfg
|}.

(** A UE whose position lies within [bound] of the origin, whose
    destination lies in the cell, and whose speed is non-negative. *)
Definition ue_within (cell_radius bound : R) (ue : UserEquipment) : Prop :=
  norm (position ue) <= bound /\ norm (destination ue) <= cell_radius /\
  0 <= speed ue.

Definition opt_within (cell_radius bound : R) (o : option UserEquipment) : Prop :=
  match o with Some ue => ue_within cell_radius bound ue | None => True end.

(** The placement invariant of a [D2DEnvironment]. *)
Definition env_within (cfg : SimulationConfig) (env : Env) : Prop :=
  norm (bs_position (bs env)) <= CELL_RADIUS_M cfg /\
  opt_within (CELL_RADIUS_M cfg) (CELL_RADIUS_M cfg) (d2d_tx env) /\
  opt_within (CELL_RADIUS_M cfg) (CELL_RADIUS_M cfg + D2D_MAX_DIST_M cfg) (d2d_rx env) /\
  Forall (ue_within (CELL_RADIUS_M cfg) (CELL_RADIUS_M cfg)) (interferers env).

(** ** Concrete inputs *)

(** [x] if it lies in [0, 1), else 0. *)
Definition unit_clamp (x : R) : R :=
  if Rle_dec 0 x then if Rlt_dec x 1 then x else 0 else 0.

(** A recorded stream of draws, read front to back; [rand] only ever
    returns values of [0, 1). *)
#[export] Instance tape_random : NpRandom (list R) := {|
  rand := fun l => match l with x :: t => (unit_clamp x, t) | [] => (0, []) end;
  randn := fun l => match l with x :: t => (x, t) | [] => (0, []) end;
  exponential := fun scale l =>
    match l with x :: t => (scale * x, t) | [] => (0, []) end;
  randint := fun lo hi l => (lo, l)
|}.

(** [SimulationConfig] with the fading toggle off. *)
Definition without_fading (cfg : SimulationConfig) : SimulationConfig := {|
  D2D_MAX_DIST_M := D2D_MAX_DIST_M cfg;
  PROBABILITY_START_MOVING := PROBABILITY_START_MOVING cfg;
  USE_RANDOM_SHADOWING := USE_RANDOM_SHADOWING cfg;
  USE_RAYLEIGH_FADING := false;
  INTERFERENCE_LOAD_FACTOR := INTERFERENCE_LOAD_FACTOR cfg;
  BANDWIDTH_HZ := BANDWIDTH_HZ cfg;
  CARRIER_FREQ_MHZ := CARRIER_FREQ_MHZ cfg;
  CELL_RADIUS_M := CELL_RADIUS_M cfg;
  NOISE_POWER_DBM := NOISE_POWER_DBM cfg;
  TX_POWER_BS_DBM := TX_POWER_BS_DBM cfg;
  TX_POWER_D2D_DBM := TX_POWER_D2D_DBM cfg;
  PATH_LOSS_CELLULAR_A := PATH_LOSS_CELLULAR_A cfg;
  PATH_LOSS_CELLULAR_B := PATH_LOSS_CELLULAR_B cfg;
  PATH_LOSS_D2D_A := PATH_LOSS_D2D_A cfg;
  PATH_LOSS_D2D_B_FREQ := PATH_LOSS_D2D_B_FREQ cfg;
  PATH_LOSS_D2D_C_DIST := PATH_LOSS_D2D_C_DIST cfg;
  SHADOWING_SIGMA_DB := SHADOWING_SIGMA_DB cfg;
  SHADOWING_SIGMA_MIN := SHADOWING_SIGMA_MIN cfg;
  SHADOWING_SIGMA_MAX := SHADOWING_SIGMA_MAX cfg;
  TIME_STEP_S := TIME_STEP_S cfg;
  SPEED_MIN := SPEED_MIN cfg;
  SPEED_MAX := SPEED_MAX cfg
|}.

(** An environment with a D2D pair 10 m apart and no interferer. *)
Definition sample_env : Env :=
  mkEnv (new_base_station simulation_config)
    (Some (mkUE "Target_Tx" (mkVec2 100 0) (mkVec2 200 0) false 1 23))
    (Some (mkUE "Target_Rx" (mkVec2 110 0) (mkVec2 110 100) false 1 23))
    [] 0.

(** ** Power helpers of the configurations *)





(** ** Dataset generation ([simulator/run_simulation.py],
    [scripts/run_paper_simulation.py]) *)

(** The run-List.length attributes of [SimulationConfig] and [PaperConfig]. *)
Definition NUM_EPISODES : nat := 50.
Definition STEPS_PER_EPISODE : nat := 100.
Definition P_NUM_EPISODES : nat := 100.
Definition P_STEPS_PER_EPISODE : nat := 300.

(** [state['episode_id'] = episode] *)
Definition set_episode_id (r : StepRecord) (e : Z) : StepRecord := {|
  timestamp := timestamp r;
  episode_id := e;
  tx_pos_x := tx_pos_x r;
  tx_pos_y := tx_pos_y r;
  rx_pos_x := rx_pos_x r;
  rx_pos_y := rx_pos_y r;
  distance_tx_rx := distance_tx_rx r;
  distance_bs_rx := distance_bs_rx r;
  tx_speed_mps := tx_speed_mps r;
  rx_speed_mps := rx_speed_mps r;
  tx_power_d2d_dbm := tx_power_d2d_dbm r;
  tx_power_bs_dbm := tx_power_bs_dbm r;
  rx_power_d2d_dbm := rx_power_d2d_dbm r;
  rx_power_cell_dbm := rx_power_cell_dbm r;
  interference_dbm := interference_dbm r;
  noise_dbm := noise_dbm r;
  sinr_d2d_db := sinr_d2d_db r;
  sinr_cell_db := sinr_cell_db r;
  throughput_d2d_mbps := throughput_d2d_mbps r;
  throughput_cell_mbps := throughput_cell_mbps r;
  optimal_mode := optimal_mode r
|}.

(** The loops of [generate_dataset] and [generate_paper_dataset], for the
    environment's [reset()] and [step()].  A failed assertion in [step()]
    raises, which ends the script: [None]. *)
Section Dataset.
Context {St : Type}.
Variable env_reset : Env -> M St Env.
Variable env_step : Env -> M St (option (StepRecord * Env)).

(** [for step in range(n): state = env.step(); state['episode_id'] =
    episode; all_records.append(state)] *)
Fixpoint run_episode (episode : nat) (n : nat) (env : Env)
  : M St (option (list StepRecord * Env)) :=
  match n with
  | O => ret (Some ([], env))
  | S n' =>
      r <- env_step env ;;
      match r with
      | None => ret None
      | Some (state, env') =>
          rest <- run_episode episode n' env' ;;
          ret (match rest with
               | None => None
               | Some (states, env'') =>
                   Some (set_episode_id state (Z.of_nat episode) :: states, env'')
               end)
      end
  end.

(** [for episode in range(...): env.reset(); ...], from episode [episode]
    on, [k] episodes of [steps] steps. *)
Fixpoint run_episodes (steps : nat) (k episode : nat) (env : Env)
  : M St (option (list StepRecord * Env)) :=
  match k with
  | O => ret (Some ([], env))
  | S k' =>
      env1 <- env_reset env ;;
      r <- run_episode episode steps env1 ;;
      match r with
      | None => ret None
      | Some (states, env2) =>
          rest <- run_episodes steps k' (S episode) env2 ;;
          ret (match rest with
               | None => None
               | Some (states', env3) => Some (app states states', env3)
               end)
      end
  end.

End Dataset.

(** [generate_dataset()] from the stream state [np.random.seed(SEED)]
    leaves; the result is [all_records], the rows of the CSV file. *)
Definition generate_dataset {St : Type} `{NpRandom St} (cfg : SimulationConfig)
  : M St (option (list StepRecord)) :=
  env <- new_environment cfg ;;
  r <- run_episodes (reset cfg) (env_step cfg) STEPS_PER_EPISODE NUM_EPISODES 0 env ;;
  ret (option_map fst r).

(** [generate_paper_dataset()] *)
Definition generate_paper_dataset {St : Type} `{NpRandom St} (pcfg : PaperConfig)
  : M St (option (list StepRecord)) :=
  env <- paper_new_environment pcfg ;;
  r <- run_episodes (paper_reset pcfg) (paper_env_step pcfg)
         P_STEPS_PER_EPISODE P_NUM_EPISODES 0 env ;;
  ret (option_map fst r).

(** ** Pandas helpers ([scripts/preprocess_data.py], [scripts/baseline_policies.py]) *)

(** [df.groupby(key)[col].shift(lag)]: for each row, the value [lag] rows
    back among the earlier rows with the same key ([None] for NaN). *)
Definition group_shift {A : Type} (lag : nat) (rows : list (Z * A)) : list (option A) :=
  map (fun '(i, (k, v)) =>
         let earlier := filter (fun q => Z.eqb (fst q) k) (firstn i rows) in
         match lag with
         | O => Some v
         | S l => option_map snd (nth_error (rev earlier) l)
         end)
      (combine (seq 0 (List.length rows)) rows).

(** [.fillna(0)] on a float column: NaN, whether shifted in or present,
    becomes 0. *)
Definition fillna0 (o : option ext) : ext :=
  match o with
  | None | Some NaN => Fin 0
  | Some x => x
  end.

(** The row order of [df.sort_values(by=['episode_id', 'timestamp'])]:
    lexicographic on the two keys. *)
Definition key_lt (a b : StepRecord) : bool :=
  (Z.ltb (episode_id a) (episode_id b) ||
   (Z.eqb (episode_id a) (episode_id b) &&
    Nat.ltb (timestamp a) (timestamp b)))%bool.

Fixpoint insert_sorted (r : StepRecord) (rows : list StepRecord) : list StepRecord :=
  match rows with
  | [] => [r]
  | q :: rest => if key_lt q r then q :: insert_sorted r rest else r :: rows
  end.

(** [df.sort_values(by=['episode_id', 'timestamp'])].  Every sort gives
    this order when the keys are distinct, as in the generated data. *)
Fixpoint sort_values (rows : list StepRecord) : list StepRecord :=
  match rows with
  | [] => []
  | r :: rest => insert_sorted r (sort_values rest)
  end.

(** [X.reshape(a, b, ...)] on the rows of a 2-D array, in C order: [a]
    blocks of [b] rows; NumPy raises [ValueError] unless the sizes match. *)
Fixpoint chunks {A : Type} (b k : nat) (xs : list A) : list (list A) :=
  match k with
  | O => []
  | S k' => firstn b xs :: chunks b k' (skipn b xs)
  end.

Definition reshape {A : Type} (a b : nat) (xs : list A) : option (list (list A)) :=
  if Nat.eqb (List.length xs) (a * b) then Some (chunks b a xs) else None.

(** ** Preprocessing ([scripts/preprocess_data.py]) *)

(** [df['label'] = df['optimal_mode'].apply(lambda x: 1 if x == 'D2D' else 0)] *)
Definition label_of (r : StepRecord) : Z :=
  if String.eqb (optimal_mode r) "D2D" then 1%Z else 0%Z.

(** [df.groupby('episode_id')[col].shift(lag).fillna(0)] for the lagged
    features [sinr_lag_k] ([col] is [sinr_d2d_db]) and [interf_lag_k]
    ([interference_dbm]). *)
Definition lag_feature (col : StepRecord -> ext) (lag : nat)
  (df : list StepRecord) : list ext :=
  map fillna0 (group_shift lag (map (fun r => (episode_id r, col r)) df)).

(** The label part of [preprocess_data()], from the rows of the CSV file:
    sort, label, and [y_data.reshape(num_episodes, steps_per_episode, 1)]
    ([None]: the [ValueError] branch, which prints and returns). *)
Definition preprocess_labels (df : list StepRecord) : option (list (list (list Z))) :=
  let df := sort_values df in
  let y_data := map (fun r => [label_of r]) df in
  reshape NUM_EPISODES STEPS_PER_EPISODE y_data.

(** ** Baseline policies ([scripts/baseline_policies.py]) *)

(** [policy_always_d2d] *)
Definition policy_always_d2d (df : list StepRecord) : list string :=
  repeat "D2D" (List.length df).

(** [policy_always_cellular] *)
Definition policy_always_cellular (df : list StepRecord) : list string :=
  repeat "Cellular" (List.length df).

(** Python's [a < b] on floats (false as soon as one side is [nan]). *)
Definition ext_lt (a b : ext) : bool :=
  match a, b with
  | NaN, _ | _, NaN => false
  | NegInf, NegInf => false
  | NegInf, _ => true
  | _, NegInf => false
  | PosInf, _ => false
  | Fin _, PosInf => true
  | Fin x, Fin y => if Rlt_dec x y then true else false
  end.

(** [policy_sinr_threshold] *)
Definition policy_sinr_threshold (df : list StepRecord) (threshold_db : R)
  : list string :=
  map (fun r => if ext_lt (sinr_d2d_db r) (Fin threshold_db)
                then "Cellular" else "D2D") df.

(** [policy_ground_truth] *)
Definition policy_ground_truth (df : list StepRecord) : list string :=
  map optimal_mode df.

(** Float addition with the IEEE specials. *)
Definition ext_add (a b : ext) : ext :=
  match a, b with
  | NaN, _ | _, NaN => NaN
  | PosInf, NegInf | NegInf, PosInf => NaN
  | PosInf, _ | _, PosInf => PosInf
  | NegInf, _ | _, NegInf => NegInf
  | Fin x, Fin y => Fin (x + y)
  end.

(** [np.mean]: [nan] on an empty array. *)
Definition ext_mean (xs : list ext) : ext :=
  match xs with
  | [] => NaN
  | _ => ext_div (fold_left ext_add xs (Fin 0)) (INR (List.length xs))
  end.

(** Python's [a / b] on numbers, [nan] for [0 / 0] as NumPy gives. *)
Definition py_div (a b : R) : ext :=
  if Req_dec_T b 0 then
    (if Req_dec_T a 0 then NaN else if Rlt_dec 0 a then PosInf else NegInf)
  else Fin (a / b).

(** [final_throughput = np.where(mode_decisions == "D2D", ...)] *)
Definition final_throughput (df : list StepRecord) (mode_decisions : list string)
  : list ext :=
  map (fun '(r, d) => if String.eqb d "D2D" then throughput_d2d_mbps r
                      else throughput_cell_mbps r)
      (combine df mode_decisions).

(** [avg_throughput = np.mean(final_throughput)] *)
Definition avg_throughput (df : list StepRecord) (mode_decisions : list string) : ext :=
  ext_mean (final_throughput df mode_decisions).

(** [df_temp['prev_decision'] =
      df_temp.groupby('episode_id')['decision'].shift(1).fillna(df_temp['decision'])] *)
Definition prev_decisions (df : list StepRecord) (mode_decisions : list string)
  : list string :=
  map (fun '(o, d) => match o with Some p => p | None => d end)
      (combine (group_shift 1 (combine (map episode_id df) mode_decisions))
               mode_decisions).

(** [total_switches = (df_temp['decision'] != df_temp['prev_decision']).sum()] *)
Definition total_switches (df : list StepRecord) (mode_decisions : list string) : nat :=
  List.length (filter (fun '(d, p) => negb (String.eqb d p))
                 (combine mode_decisions (prev_decisions df mode_decisions))).

(** [switch_rate = (total_switches / total_time_seconds) * 100] *)
Definition switch_rate (df : list StepRecord) (mode_decisions : list string) : ext :=
  let total_time_seconds := INR (List.length df) * TIME_STEP_S simulation_config in
  ext_scale 100 (py_div (INR (total_switches df mode_decisions)) total_time_seconds).

(** [df_temp['episode_id'] != df_temp['episode_id'].shift(1)]: true on the
    first row, where the shifted value is NaN. *)
Fixpoint episode_changes (prev : option Z) (eps : list Z) : list bool :=
  match eps with
  | [] => []
  | e :: rest =>
      (match prev with Some p => negb (Z.eqb e p) | None => true end)
      :: episode_changes (Some e) rest
  end.

(** [.cumsum()] of a boolean column. *)
Fixpoint cumsum (acc : nat) (bs : list bool) : list nat :=
  match bs with
  | [] => []
  | b :: rest => let acc' := (if b then S acc else acc) in acc' :: cumsum acc' rest
  end.

(** [df_temp['block_id']] *)
Definition block_ids (df : list StepRecord) (mode_decisions : list string) : list nat :=
  cumsum 0
    (map (fun '(dp, ch) => (negb (String.eqb (fst dp) (snd dp)) || ch)%bool)
         (combine (combine mode_decisions (prev_decisions df mode_decisions))
                  (episode_changes None (map episode_id df)))).

(** [d2d_only.groupby('block_id').size()]: the sizes of the groups, one per
    distinct block id, in increasing id order. *)
Definition block_lengths (ids : list nat) : list nat :=
  map (fun b => count_occ Nat.eq_dec ids b) (nodup Nat.eq_dec ids).

(** [avg_residence_time] *)
Definition avg_residence_time (df : list StepRecord) (mode_decisions : list string) : ext :=
  let d2d_blocks := filter (fun d => String.eqb d "D2D") mode_decisions in
  if Nat.eqb (List.length d2d_blocks) 0 then Fin 0
  else
    let d2d_only :=
      map fst (filter (fun '(_, d) => String.eqb d "D2D")
                      (combine (block_ids df mode_decisions) mode_decisions)) in
    let block_durations :=
      map (fun n => Fin (INR n * TIME_STEP_S simulation_config))
          (block_lengths d2d_only) in
    ext_mean block_durations.

(** ** Invariants of the generated data *)

(** The base station keeps the configured transmit power. *)
Definition proposed_base (cfg : SimulationConfig) (env : Env) : Prop :=
  bs_tx_power_dbm (bs env) = TX_POWER_BS_DBM cfg.

(** Between two steps of an episode: the pair is present and the
    transmitter keeps the D2D transmit power. *)
Definition proposed_inv (cfg : SimulationConfig) (env : Env) : Prop :=
  proposed_base cfg env /\ exists tx rx, d2d_tx env = Some tx /\ d2d_rx env = Some rx /\
    tx_power_dbm tx = TX_POWER_D2D_DBM cfg.

(** The constant columns of a row of [generate_dataset()]. *)
Definition proposed_row (cfg : SimulationConfig) (r : StepRecord) : Prop :=
  tx_power_d2d_dbm r = TX_POWER_D2D_DBM cfg /\ tx_power_bs_dbm r = TX_POWER_BS_DBM cfg /\
  noise_dbm r = Fin (NOISE_POWER_DBM cfg).

(** The same three predicates for the paper configuration. *)
Definition paper_base (pcfg : PaperConfig) (env : Env) : Prop :=
  bs_tx_power_dbm (bs env) = P_TX_POWER_BS_DBM pcfg.

Definition paper_inv (pcfg : PaperConfig) (env : Env) : Prop :=
  paper_base pcfg env /\ exists tx rx, d2d_tx env = Some tx /\ d2d_rx env = Some rx /\
    tx_power_dbm tx = P_TX_POWER_D2D_DBM pcfg.

Definition paper_row (pcfg : PaperConfig) (r : StepRecord) : Prop :=
  tx_power_d2d_dbm r = P_TX_POWER_D2D_DBM pcfg /\ tx_power_bs_dbm r = P_TX_POWER_BS_DBM pcfg /\
  noise_dbm r = Fin (P_NOISE_POWER_DBM pcfg).

(** The rows of [K] episodes of [n] steps, in the order the generators
    emit them. *)
Definition episode_layout (K n : nat) (recs : list StepRecord) : Prop :=
  List.length recs = (K * n)%nat /\
  forall e t, (e < K)%nat -> (t < n)%nat ->
    exists r, nth_error recs (e * n + t) = Some r /\
      episode_id r = Z.of_nat e /\ timestamp r = S t.

(** The number a throughput holds (0 for a non-finite value). *)
Definition fin_val (e : ext) : R :=
  match e with Fin x => x | _ => 0 end.

(** The throughput a decision selects in [final_throughput], as a number. *)
Definition chosen_value (rd : StepRecord * string) : R :=
  let '(r, d) := rd in
  fin_val (if String.eqb d "D2D" then throughput_d2d_mbps r else throughput_cell_mbps r).

(** ** Concrete inputs *)

(** A stream whose every draw is the same: [rand] is 1/2, [randn] is 0,
    [exponential(scale)] returns its mean [scale], [randint] its lower
    bound. *)
#[export] Instance constant_random : NpRandom unit | 100 := {|
  rand := fun s => (1/2, s);
  randn := fun s => (0, s);
  exponential := fun scale s => (scale, s);
  randint := fun lo hi s => (lo, s)
|}.

(** A CSV row with the given episode, timestamp, optimal mode and
    throughputs, every other column zero. *)
Definition sample_row (e : Z) (t : nat) (mode : string) (d2d cell : R) : StepRecord := {|
  timestamp := t;
  episode_id := e;
  tx_pos_x := 0; tx_pos_y := 0; rx_pos_x := 0; rx_pos_y := 0;
  distance_tx_rx := 0; distance_bs_rx := 0;
  tx_speed_mps := 0; rx_speed_mps := 0;
  tx_power_d2d_dbm := 0; tx_power_bs_dbm := 0;
  rx_power_d2d_dbm := Fin 0; rx_power_cell_dbm := Fin 0;
  interference_dbm := Fin 0; noise_dbm := Fin 0;
  sinr_d2d_db := Fin 0; sinr_cell_db := Fin 0;
  throughput_d2d_mbps := Fin d2d;
  throughput_cell_mbps := Fin cell;
  optimal_mode := mode
|}.

(** ** Proofs *)

(** Splits the pairs of a state-passing computation in the goal. *)
Ltac split_pairs :=
  repeat (simpl; match goal with
  | |- context [match ?m with pair _ _ => _ end] =>
      let a := fresh "a" in let s := fresh "s" in
      destruct m as [a s] eqn:?
  end).

Lemma ln10_pos : 0 < ln 10.
Proof. rewrite <- ln_1. apply ln_increasing; lra. Qed.

Lemma log10_increasing (x y : R) : 0 < x -> x < y -> log10 x < log10 y.
Proof.
  intros Hx Hxy. unfold log10, Rdiv.
  apply Rmult_lt_compat_r.
  - apply Rinv_0_lt_compat, ln10_pos.
  - apply ln_increasing; assumption.
Qed.

Lemma ext_ge_refl (x : R) : ext_ge (Fin x) (Fin x) = true.
Proof. simpl. destruct (Rge_dec x x); [reflexivity | lra]. Qed.

Lemma watts_to_dbm_zero : watts_to_dbm 0 = NegInf.
Proof.
  unfold watts_to_dbm, np_log10. rewrite Rmult_0_l.
  destruct (Rlt_dec 0 0); [lra|].
  destruct (Req_dec_T 0 0); [|congruence].
  simpl. destruct (Rlt_dec 0 10); [reflexivity | lra].
Qed.

Lemma sum_interference_no_load {St : Type} (crp : R -> R -> bool -> M St R)
  (rx : UserEquipment) (ints : list UserEquipment) (s : St) :
  fst (sum_interference crp 0 rx ints 0 s) = 0.
Proof.
  revert s. induction ints as [|i ints IH]; intros s; simpl.
  - reflexivity.
  - unfold bind. destruct (crp _ _ _ s) as [raw s'].
    rewrite Rmult_0_l, Rplus_0_r. apply IH.
Qed.

(** C9 *)

(** C9: the cellular path loss of [ChannelModel] strictly increases with the
    distance from 1 m on, and is constant below the 1 m floor. *)
Theorem path_loss_cellular_monotone (d1 d2 : R) :
  d1 < d2 ->
  (1 <= d1 -> calculate_path_loss_cellular simulation_config d1
              < calculate_path_loss_cellular simulation_config d2) /\
  (d2 <= 1 -> calculate_path_loss_cellular simulation_config d1
              = calculate_path_loss_cellular simulation_config d2).
Proof.
  intros Hlt. unfold calculate_path_loss_cellular; cbn [PATH_LOSS_CELLULAR_A
    PATH_LOSS_CELLULAR_B simulation_config]. split.
  - intros H1. rewrite (Rmax_left d1 1) by lra. rewrite (Rmax_left d2 1) by lra.
    assert (log10 (d1 / 1000) < log10 (d2 / 1000)) by
      (apply log10_increasing; unfold Rdiv; nra).
    lra.
  - intros H2. rewrite (Rmax_right d1 1) by lra. rewrite (Rmax_right d2 1) by lra.
    reflexivity.
Qed.

Lemma path_loss_cellular_monotone_witness :
  2 < 3 /\
  (1 <= 2 -> calculate_path_loss_cellular simulation_config 2
             < calculate_path_loss_cellular simulation_config 3) /\
  (3 <= 1 -> calculate_path_loss_cellular simulation_config 2
             = calculate_path_loss_cellular simulation_config 3).
Proof. split; [lra | apply (path_loss_cellular_monotone 2 3); lra]. Defined.

(** C1 *)

(** C1: in the paper configuration, where shadowing and fading are absent,
    [compute_received_power] is a deterministic function of the transmit
    power and distance: it returns the same value whatever the state of the
    random stream, leaves that state as it was, and equals
    [10 ** ((P_tx - PL - 30) / 10)]. *)
Theorem paper_received_power_deterministic (pcfg : PaperConfig) {St : Type}
  (tx_power_dbm0 distance_m : R) (is_d2d : bool) (s1 s2 : St) :
  fst (paper_compute_received_power pcfg tx_power_dbm0 distance_m is_d2d s1)
  = fst (paper_compute_received_power pcfg tx_power_dbm0 distance_m is_d2d s2) /\
  snd (paper_compute_received_power pcfg tx_power_dbm0 distance_m is_d2d s1) = s1 /\
  fst (paper_compute_received_power pcfg tx_power_dbm0 distance_m is_d2d s1)
  = pow10 ((tx_power_dbm0 - (if is_d2d then paper_path_loss_d2d pcfg distance_m
                             else paper_path_loss_cellular pcfg distance_m) - 30) / 10).
Proof. repeat split. Qed.

(** C3 *)

(** C3: a disabled component consumes no draw.  With the fading toggle off,
    [get_rayleigh_fading_gain] is exactly 1 and leaves the stream untouched,
    so [compute_received_power] leaves the stream where the shadowing draw
    left it; the paper model, which omits shadowing and fading, leaves the
    stream untouched altogether. *)
Theorem disabled_components_draw_nothing (cfg : SimulationConfig)
  (pcfg : PaperConfig) {St : Type} `{NpRandom St}
  (tx_power_dbm0 distance_m : R) (is_d2d : bool) (s : St) :
  USE_RAYLEIGH_FADING cfg = false ->
  get_rayleigh_fading_gain cfg s = (1, s) /\
  compute_received_power cfg tx_power_dbm0 distance_m is_d2d s =
    (pow10 ((tx_power_dbm0
             - (if is_d2d then calculate_path_loss_d2d cfg distance_m
                else calculate_path_loss_cellular cfg distance_m)
             + fst (get_shadowing cfg s) - 30) / 10) * 1,
     snd (get_shadowing cfg s)) /\
  paper_compute_received_power pcfg tx_power_dbm0 distance_m is_d2d s =
    (pow10 ((tx_power_dbm0
             - (if is_d2d then paper_path_loss_d2d pcfg distance_m
                else paper_path_loss_cellular pcfg distance_m) - 30) / 10), s).
Proof.
  intros Hoff.
  assert (Hg : get_rayleigh_fading_gain cfg s = (1, s))
    by (unfold get_rayleigh_fading_gain; rewrite Hoff; reflexivity).
  split; [exact Hg|]. split; [|reflexivity].
  unfold compute_received_power, bind at 1.
  destruct (get_shadowing cfg s) as [sh s'] eqn:Hsh. simpl.
  unfold get_rayleigh_fading_gain; rewrite Hoff. reflexivity.
Qed.

Lemma disabled_components_draw_nothing_witness :
  USE_RAYLEIGH_FADING (without_fading simulation_config) = false /\
  get_rayleigh_fading_gain (without_fading simulation_config) [1/2] = (1, [1/2]) /\
  compute_received_power (without_fading simulation_config) 23 50 true [1/2] =
    (pow10 ((23 - calculate_path_loss_d2d (without_fading simulation_config) 50
             + fst (get_shadowing (without_fading simulation_config) [1/2]) - 30)
            / 10) * 1,
     snd (get_shadowing (without_fading simulation_config) [1/2])) /\
  paper_compute_received_power paper_config 23 50 true [1/2] =
    (pow10 ((23 - paper_path_loss_d2d paper_config 50 - 30) / 10), [1/2]).
Proof.
  split; [reflexivity|].
  apply (disabled_components_draw_nothing (without_fading simulation_config)
           paper_config 23 50 true [1/2]).
  reflexivity.
Defined.

(** *** Plane geometry of [Vec2] *)

Lemma norm_nonneg (a : Vec2) : 0 <= norm a.
Proof. apply sqrt_pos. Qed.

Lemma norm_sq (a : Vec2) : norm a * norm a = vx a * vx a + vy a * vy a.
Proof. unfold norm. apply sqrt_sqrt. nra. Qed.

Lemma vsub_vadd (p w : Vec2) : vsub (vadd p w) p = w.
Proof. destruct p, w; unfold vsub, vadd; simpl; f_equal; ring. Qed.

Lemma norm_scale (c : R) (a : Vec2) : norm (vscale c a) = Rabs c * norm a.
Proof.
  destruct a as [x y]; unfold norm, vscale; simpl.
  replace (c * x * (c * x) + c * y * (c * y)) with ((c * c) * (x * x + y * y))
    by ring.
  rewrite sqrt_mult_alt by nra.
  change (c * c) with (Rsqr c). rewrite sqrt_Rsqr_abs. reflexivity.
Qed.

Lemma norm_triangle (a b : Vec2) : norm (vadd a b) <= norm a + norm b.
Proof.
  pose proof (norm_sq a) as Ha. pose proof (norm_sq b) as Hb.
  pose proof (norm_nonneg a). pose proof (norm_nonneg b).
  destruct a as [a1 a2], b as [b1 b2]; simpl in *.
  unfold norm at 1; simpl.
  rewrite <- (sqrt_square (norm (mkVec2 a1 a2) + norm (mkVec2 b1 b2))) by lra.
  apply sqrt_le_1_alt.
  set (na := norm (mkVec2 a1 a2)) in *. set (nb := norm (mkVec2 b1 b2)) in *.
  assert (Hcs : a1 * b1 + a2 * b2 <= na * nb).
  { assert (Hsq : (a1 * b1 + a2 * b2) * (a1 * b1 + a2 * b2) <= (na * nb) * (na * nb)).
    { replace ((na * nb) * (na * nb)) with ((na * na) * (nb * nb)) by ring.
      rewrite Ha, Hb.
      replace ((a1 * a1 + a2 * a2) * (b1 * b1 + b2 * b2)) with
        ((a1 * b1 + a2 * b2) * (a1 * b1 + a2 * b2)
         + (a1 * b2 - a2 * b1) * (a1 * b2 - a2 * b1)) by ring.
      pose proof (Rle_0_sqr (a1 * b2 - a2 * b1)) as Hc. unfold Rsqr in Hc. lra. }
    destruct (Rle_dec (a1 * b1 + a2 * b2) (na * nb)) as [|Hn]; [assumption|].
    exfalso. assert (0 <= na * nb) by nra. nra. }
  nra.
Qed.

(** A point [(r cos a, r sin a)] lies at distance [|r|] from the origin. *)
Lemma norm_polar (r a : R) : norm (mkVec2 (r * cos a) (r * sin a)) = Rabs r.
Proof.
  unfold norm; simpl.
  replace (r * cos a * (r * cos a) + r * sin a * (r * sin a))
    with (Rsqr r * (Rsqr (sin a) + Rsqr (cos a))) by (unfold Rsqr; ring).
  rewrite sin2_cos2, Rmult_1_r. apply sqrt_Rsqr_abs.
Qed.

(** One step of [length c] along the unit vector of a non-zero [v]. *)
Lemma norm_unit_step (c : R) (v : Vec2) :
  0 <= c -> 0 < norm v -> norm (vscale c (vdiv v (norm v))) = c.
Proof.
  intros Hc Hn. unfold vdiv. rewrite norm_scale, Rabs_pos_eq by exact Hc.
  replace (mkVec2 (vx v / norm v) (vy v / norm v)) with (vscale (/ norm v) v)
    by (unfold vscale; f_equal; unfold Rdiv; ring).
  rewrite norm_scale, Rabs_pos_eq by (left; apply Rinv_0_lt_compat; exact Hn).
  field. lra.
Qed.

(** C6 *)

(** C6: one [move()] of a moving UE.  With [d] the distance to the
    destination and [step = speed * dt]: when [step >= d] (in particular
    when [d = 0]) the UE lands exactly on its destination and pauses;
    otherwise [d > 0], so the division by [d] is well defined, and the UE
    advances by exactly [step] along the unit direction to the destination
    and stays moving.  No random draw is made and the destination is kept. *)
Theorem move_moving_ue (cell_radius p_start dt : R) {St : Type} `{NpRandom St}
  (ue : UserEquipment) (s : St) :
  is_paused ue = false -> 0 <= speed ue -> 0 <= dt ->
  let direction_vector := vsub (destination ue) (position ue) in
  let distance_to_dest := norm direction_vector in
  let step_distance := speed ue * dt in
  let ue' := fst (move cell_radius p_start dt ue s) in
  snd (move cell_radius p_start dt ue s) = s /\
  destination ue' = destination ue /\
  (distance_to_dest = 0 -> position ue' = destination ue /\ is_paused ue' = true) /\
  (step_distance >= distance_to_dest ->
     position ue' = destination ue /\ is_paused ue' = true) /\
  (step_distance < distance_to_dest ->
     0 < distance_to_dest /\
     position ue' = vadd (position ue)
                      (vscale step_distance (vdiv direction_vector distance_to_dest)) /\
     norm (vsub (position ue') (position ue)) = step_distance /\
     is_paused ue' = false).
Proof.
  intros Hmov Hv Hdt dir dist stp ue'.
  assert (Hstp : 0 <= stp) by (unfold stp; nra).
  assert (Hmove : move cell_radius p_start dt ue s = (advance dt ue, s))
    by (unfold move; rewrite Hmov; reflexivity).
  subst ue'. rewrite Hmove. simpl. unfold advance.
  fold dir dist stp.
  destruct (Rge_dec stp dist) as [Hge|Hlt].
  - repeat split; try reflexivity; intros; lra.
  - assert (0 <= dist) by apply norm_nonneg.
    assert (Hpos : 0 < dist) by lra.
    repeat split; intros; simpl; try reflexivity; try lra; try exact Hmov.
    rewrite vsub_vadd. apply norm_unit_step; assumption.
Qed.

Lemma move_moving_ue_witness :
  is_paused (mkUE "Target_Tx" (mkVec2 0 0) (mkVec2 3 4) false 2 23) = false /\
  0 <= speed (mkUE "Target_Tx" (mkVec2 0 0) (mkVec2 3 4) false 2 23) /\
  0 <= 1 /\
  let ue := mkUE "Target_Tx" (mkVec2 0 0) (mkVec2 3 4) false 2 23 in
  let direction_vector := vsub (destination ue) (position ue) in
  let distance_to_dest := norm direction_vector in
  let step_distance := speed ue * 1 in
  let ue' := fst (move 500 (1/10) 1 ue [0]) in
  snd (move 500 (1/10) 1 ue [0]) = [0] /\
  destination ue' = destination ue /\
  (distance_to_dest = 0 -> position ue' = destination ue /\ is_paused ue' = true) /\
  (step_distance >= distance_to_dest ->
     position ue' = destination ue /\ is_paused ue' = true) /\
  (step_distance < distance_to_dest ->
     0 < distance_to_dest /\
     position ue' = vadd (position ue)
                      (vscale step_distance (vdiv direction_vector distance_to_dest)) /\
     norm (vsub (position ue') (position ue)) = step_distance /\
     is_paused ue' = false).
Proof.
  split; [reflexivity|]. split; [simpl; lra|]. split; [lra|].
  apply (move_moving_ue 500 (1/10) 1
           (mkUE "Target_Tx" (mkVec2 0 0) (mkVec2 3 4) false 2 23) [0]);
    simpl; [reflexivity | lra | lra].
Defined.

(** *** The engine *)

Section EngineProofs.
Context {St : Type}.
Variable ue_step : UserEquipment -> M St UserEquipment.
Variable received_power : R -> R -> bool -> M St R.
Variables (rho noise_watts bandwidth_hz : R).

(** The interference value of the record is the total reached in [step()]. *)
Lemma step_interference_dbm (env : Env) (s : St) :
  match fst (step ue_step received_power rho noise_watts bandwidth_hz env s) with
  | Some (rec, _) =>
      exists total,
        fst (step_total_interference ue_step received_power rho env s) = Some total /\
        interference_dbm rec = watts_to_dbm total
  | None => True
  end.
Proof.
  unfold step, step_total_interference.
  destruct (d2d_tx env) as [tx|]; destruct (d2d_rx env) as [rx|]; try exact I.
  unfold bind, ret. split_pairs. simpl. eexists; split; reflexivity.
Qed.

End EngineProofs.

(** C5 *)

(** C5: [step()] first moves every entity (transmitter, receiver, all
    interferers), and only then evaluates the channel: it is the movement
    phase followed by the channel evaluation of the moved environment, and
    the environment it returns is that moved one, whose positions the
    record's positions and distances are. *)
Theorem step_moves_before_channel {St : Type}
  (ue_step : UserEquipment -> M St UserEquipment)
  (received_power : R -> R -> bool -> M St R)
  (rho noise_watts bandwidth_hz : R) (env : Env) (s : St) :
  step ue_step received_power rho noise_watts bandwidth_hz env s =
    (o <- move_entities ue_step env ;;
     match o with
     | Some env' =>
         r <- evaluate_channel received_power rho noise_watts bandwidth_hz env' ;;
         ret (option_map (fun rec => (rec, env')) r)
     | None => ret None
     end) s /\
  match fst (step ue_step received_power rho noise_watts bandwidth_hz env s) with
  | Some (rec, env') =>
      exists tx rx,
        d2d_tx env' = Some tx /\ d2d_rx env' = Some rx /\
        tx_pos_x rec = vx (position tx) /\ tx_pos_y rec = vy (position tx) /\
        rx_pos_x rec = vx (position rx) /\ rx_pos_y rec = vy (position rx) /\
        distance_tx_rx rec = get_distance_to tx rx /\
        distance_bs_rx rec = bs_get_distance_to (bs env') rx
  | None => True
  end.
Proof.
  unfold step, move_entities, evaluate_channel.
  destruct (d2d_tx env) as [tx|]; destruct (d2d_rx env) as [rx|];
    try (split; reflexivity).
  unfold bind, ret. split_pairs. simpl.
  split; [reflexivity|]. do 2 eexists; repeat split.
Qed.

(** C7 *)

(** C7: the label of every step is ["D2D"] exactly when the D2D throughput
    is [>=] the cellular one (as Python compares floats), ["Cellular"]
    otherwise, and ["D2D"] when the two throughputs are the same number. *)
Theorem optimal_mode_label {St : Type}
  (ue_step : UserEquipment -> M St UserEquipment)
  (received_power : R -> R -> bool -> M St R)
  (rho noise_watts bandwidth_hz : R) (env : Env) (s : St) :
  match fst (step ue_step received_power rho noise_watts bandwidth_hz env s) with
  | Some (rec, _) =>
      (optimal_mode rec = "D2D" <->
         ext_ge (throughput_d2d_mbps rec) (throughput_cell_mbps rec) = true) /\
      (optimal_mode rec = "Cellular" <->
         ext_ge (throughput_d2d_mbps rec) (throughput_cell_mbps rec) = false) /\
      (forall x, throughput_d2d_mbps rec = Fin x ->
                 throughput_cell_mbps rec = Fin x -> optimal_mode rec = "D2D")
  | None => True
  end.
Proof.
  unfold step.
  destruct (d2d_tx env) as [tx|]; destruct (d2d_rx env) as [rx|]; try exact I.
  unfold bind, ret. split_pairs. simpl.
  match goal with |- context [ext_ge ?a ?b] => destruct (ext_ge a b) eqn:Hge end;
    (split; [|split]); try (split; intros; congruence).
  all: intros x H1 H2; rewrite H1, H2, ext_ge_refl in Hge;
    first [reflexivity | discriminate].
Qed.

(** C8 *)

(** C8: with load factor 0 the interference loop sums to exactly 0 W,
    whatever the receiver, the interferers and their placement, and so
    does the aggregate interference of every [step()]. *)
Theorem no_load_no_interference {St : Type}
  (ue_step : UserEquipment -> M St UserEquipment)
  (received_power : R -> R -> bool -> M St R) (rho : R) :
  rho = 0 ->
  (forall rx ints s, fst (sum_interference received_power rho rx ints 0 s) = 0) /\
  (forall env s,
     match fst (step_total_interference ue_step received_power rho env s) with
     | Some total => total = 0
     | None => True
     end).
Proof.
  intros ->. split; [intros; apply sum_interference_no_load|].
  intros env s. unfold step_total_interference.
  destruct (d2d_tx env) as [tx|]; destruct (d2d_rx env) as [rx|]; try exact I.
  unfold bind, ret. split_pairs.
  match goal with
  | H : sum_interference _ 0 ?r ?l 0 ?st = (_, _) |- _ =>
      pose proof (sum_interference_no_load received_power r l st) as Hz;
      rewrite H in Hz; exact Hz
  end.
Qed.

Lemma no_load_no_interference_witness :
  (0 : R) = 0 /\
  (forall rx ints s,
     fst (sum_interference (compute_received_power simulation_config) 0 rx ints 0 s) = 0) /\
  (forall env s,
     match fst (step_total_interference (ue_move simulation_config)
                  (compute_received_power simulation_config) 0 env s) with
     | Some total => total = 0
     | None => True
     end).
Proof.
  split; [reflexivity|].
  apply (no_load_no_interference (St := list R) (ue_move simulation_config)
           (compute_received_power simulation_config) 0).
  reflexivity.
Defined.

(** C10 *)

(** C10: whenever the aggregate interference of a step is exactly 0 W (as
    with load factor 0), the record's [interference_dbm] is
    [10 * np.log10(0 * 1000)], i.e. [-inf]: not a finite dBm value. *)
Theorem zero_interference_dbm_not_finite {St : Type}
  (ue_step : UserEquipment -> M St UserEquipment)
  (received_power : R -> R -> bool -> M St R)
  (rho noise_watts bandwidth_hz : R) (env : Env) (s : St)
  (rec : StepRecord) (env' : Env) :
  fst (step_total_interference ue_step received_power rho env s) = Some 0 ->
  fst (step ue_step received_power rho noise_watts bandwidth_hz env s)
    = Some (rec, env') ->
  interference_dbm rec = NegInf /\ is_finite (interference_dbm rec) = false.
Proof.
  intros Htot Hstep.
  pose proof (step_interference_dbm ue_step received_power rho noise_watts
                bandwidth_hz env s) as Hdbm.
  rewrite Hstep in Hdbm. destruct Hdbm as [total [Ht Hd]].
  rewrite Htot in Ht. injection Ht as <-.
  rewrite Hd, watts_to_dbm_zero. split; reflexivity.
Qed.

Lemma zero_interference_dbm_not_finite_witness :
  exists rec env',
    fst (step_total_interference (ue_move simulation_config)
           (compute_received_power simulation_config)
           (INTERFERENCE_LOAD_FACTOR simulation_config) sample_env []) = Some 0 /\
    fst (env_step simulation_config sample_env []) = Some (rec, env') /\
    interference_dbm rec = NegInf /\ is_finite (interference_dbm rec) = false.
Proof.
  do 2 eexists.
  assert (Hstep : fst (env_step simulation_config sample_env []) = Some (_, _))
    by (simpl; reflexivity).
  assert (Htot : fst (step_total_interference (ue_move simulation_config)
           (compute_received_power simulation_config)
           (INTERFERENCE_LOAD_FACTOR simulation_config) sample_env []) = Some 0)
    by (simpl; reflexivity).
  split; [exact Htot|]. split; [exact Hstep|].
  exact (zero_interference_dbm_not_finite _ _ _ _ _ _ _ _ _ Htot Hstep).
Defined.

(** *** Placement of the entities *)

(** Splits the pairs of a state-passing computation in hypothesis [H]. *)
Ltac split_pairs_in H :=
  repeat (simpl in H; match type of H with
  | context [match ?m with pair _ _ => _ end] =>
      let a := fresh "a" in let s := fresh "s" in
      destruct m as [a s] eqn:?
  end).

Lemma tape_rand_range (l : list R) : 0 <= fst (rand l) < 1.
Proof.
  destruct l as [|x l]; simpl; [lra|].
  unfold unit_clamp. destruct (Rle_dec 0 x); [destruct (Rlt_dec x 1)|]; lra.
Qed.

Lemma segment_within (p q : Vec2) (c bound : R) :
  norm p <= bound -> norm q <= bound ->
  0 <= c < norm (vsub q p) ->
  norm (vadd p (vscale c (vdiv (vsub q p) (norm (vsub q p))))) <= bound.
Proof.
  intros Hp Hq [Hc0 Hc1].
  set (n := norm (vsub q p)) in *.
  assert (Hn : 0 < n) by lra.
  set (t := c / n).
  assert (Ht : 0 <= t < 1).
  { unfold t. split.
    - apply Rmult_le_pos; [lra | left; apply Rinv_0_lt_compat; lra].
    - apply (Rmult_lt_reg_r n); [lra|]. unfold Rdiv. field_simplify; lra. }
  replace (vadd p (vscale c (vdiv (vsub q p) n)))
    with (vadd (vscale (1 - t) p) (vscale t q)).
  2:{ destruct p, q; unfold vadd, vscale, vdiv, vsub, t; simpl; f_equal;
      field; lra. }
  eapply Rle_trans; [apply norm_triangle|].
  rewrite !norm_scale, (Rabs_pos_eq (1 - t)), (Rabs_pos_eq t) by lra.
  nra.
Qed.

Section Placement.
Context {St : Type} `{NpRandom St}.
Hypothesis rand_range : forall s, 0 <= fst (rand s) < 1.

Lemma uniform_between (lo hi : R) (s : St) :
  lo <= hi -> lo <= fst (uniform lo hi s) <= hi.
Proof.
  intros Hle. unfold uniform, bind, ret.
  pose proof (rand_range s) as Hr. destruct (rand s) as [u s']. simpl in *. nra.
Qed.

Lemma uniform_nonneg (lo hi : R) (s : St) :
  0 <= lo -> 0 <= hi -> 0 <= fst (uniform lo hi s).
Proof.
  intros Hlo Hhi. unfold uniform, bind, ret.
  pose proof (rand_range s) as Hr. destruct (rand s) as [u s']. simpl in *. nra.
Qed.

Lemma point_in_cell (r : R) (s : St) :
  0 <= r -> norm (fst (_get_random_point_in_cell r s)) <= r.
Proof.
  intros Hr. unfold _get_random_point_in_cell, bind, ret.
  pose proof (rand_range s) as Hu. destruct (rand s) as [u s1]. simpl in Hu.
  destruct (rand s1) as [a s2]. simpl.
  rewrite norm_polar.
  assert (Hs : 0 <= sqrt u <= 1).
  { split; [apply sqrt_pos|]. rewrite <- sqrt_1. apply sqrt_le_1_alt. lra. }
  rewrite Rabs_pos_eq by nra. nra.
Qed.

Lemma advance_within (cell_radius bound dt : R) (ue : UserEquipment) :
  cell_radius <= bound -> 0 <= dt ->
  ue_within cell_radius bound ue -> ue_within cell_radius bound (advance dt ue).
Proof.
  intros Hcb Hdt [Hp [Hd Hv]]. unfold advance.
  destruct (Rge_dec _ _) as [Hge|Hlt]; unfold ue_within; simpl.
  - repeat split; lra.
  - repeat split; try lra.
    apply segment_within; try lra.
    split; [nra | lra].
Qed.

Lemma move_within (cell_radius bound p_start dt : R) (ue : UserEquipment) (s : St) :
  0 <= cell_radius -> cell_radius <= bound -> 0 <= dt ->
  ue_within cell_radius bound ue ->
  ue_within cell_radius bound (fst (move cell_radius p_start dt ue s)).
Proof.
  intros Hr Hcb Hdt Hue. unfold move.
  destruct (is_paused ue).
  - unfold bind, ret. destruct (rand s) as [u s1].
    destruct (Rlt_dec u p_start).
    + pose proof (point_in_cell cell_radius s1 Hr) as Hd.
      destruct (_get_random_point_in_cell cell_radius s1) as [d s2]. simpl in *.
      apply advance_within; try assumption.
      destruct Hue as [Hp [_ Hv]]. unfold ue_within; simpl. repeat split; assumption.
    + exact Hue.
  - apply advance_within; assumption.
Qed.

Lemma move_each_within (P : UserEquipment -> Prop)
  (ue_step : UserEquipment -> M St UserEquipment) :
  (forall ue s, P ue -> P (fst (ue_step ue s))) ->
  forall ues s, Forall P ues -> Forall P (fst (move_each ue_step ues s)).
Proof.
  intros Hstep ues. induction ues as [|u us IH]; intros s Hall; simpl.
  - constructor.
  - inversion Hall as [|? ? Hu Hus]; subst.
    unfold bind, ret.
    pose proof (Hstep u s Hu) as Hu'.
    destruct (ue_step u s) as [u' s1]. simpl in Hu'.
    pose proof (IH s1 Hus) as Hus'.
    destruct (move_each ue_step us s1) as [us' s2]. simpl in *.
    constructor; assumption.
Qed.

Section ProposedPlacement.
Variable cfg : SimulationConfig.
Hypothesis radius_nonneg : 0 <= CELL_RADIUS_M cfg.
Hypothesis max_dist_ge_10 : 10 <= D2D_MAX_DIST_M cfg.
Hypothesis speed_min_nonneg : 0 <= SPEED_MIN cfg.
Hypothesis speed_max_nonneg : 0 <= SPEED_MAX cfg.
Hypothesis time_step_nonneg : 0 <= TIME_STEP_S cfg.

Lemma new_user_equipment_within (id speed_type : string) (s : St) :
  ue_within (CELL_RADIUS_M cfg) (CELL_RADIUS_M cfg)
    (fst (new_user_equipment cfg id speed_type s)).
Proof.
  unfold new_user_equipment, bind, ret.
  pose proof (point_in_cell (CELL_RADIUS_M cfg) s radius_nonneg) as Hp.
  destruct (_get_random_point_in_cell (CELL_RADIUS_M cfg) s) as [p s1].
  pose proof (point_in_cell (CELL_RADIUS_M cfg) s1 radius_nonneg) as Hd.
  destruct (_get_random_point_in_cell (CELL_RADIUS_M cfg) s1) as [d s2].
  simpl in Hp, Hd.
  assert (Hv : 0 <= fst ((if String.eqb speed_type "pedestrian" then uniform 1 3
                          else if String.eqb speed_type "vehicle" then uniform 3 10
                          else uniform (SPEED_MIN cfg) (SPEED_MAX cfg)) s2)).
  { destruct (String.eqb speed_type "pedestrian");
      [|destruct (String.eqb speed_type "vehicle")];
      apply uniform_nonneg; lra. }
  destruct ((if String.eqb speed_type "pedestrian" then uniform 1 3
             else if String.eqb speed_type "vehicle" then uniform 3 10
             else uniform (SPEED_MIN cfg) (SPEED_MAX cfg)) s2) as [v s3].
  unfold ue_within; simpl in *. repeat split; assumption.
Qed.

Lemma make_interferers_within (n i : nat) (s : St) :
  Forall (ue_within (CELL_RADIUS_M cfg) (CELL_RADIUS_M cfg))
    (fst (make_interferers cfg n i s)).
Proof.
  revert i s. induction n as [|n IH]; intros i s; simpl.
  - constructor.
  - unfold bind, ret.
    pose proof (new_user_equipment_within ("Int_" ++ string_of_nat i) "vehicle" s) as Hu.
    destruct (new_user_equipment cfg _ _ s) as [u s1]. simpl in Hu.
    pose proof (IH (S i) s1) as Hus.
    destruct (make_interferers cfg n (S i) s1) as [us s2]. simpl in *.
    constructor; assumption.
Qed.

Lemma ue_move_within (bound : R) (ue : UserEquipment) (s : St) :
  CELL_RADIUS_M cfg <= bound ->
  ue_within (CELL_RADIUS_M cfg) bound ue ->
  ue_within (CELL_RADIUS_M cfg) bound (fst (ue_move cfg ue s)).
Proof. intros. apply move_within; assumption. Qed.

Lemma reset_within (env : Env) (s : St) :
  norm (bs_position (bs env)) <= CELL_RADIUS_M cfg ->
  env_within cfg (fst (reset cfg env s)).
Proof.
  intros Hbs. unfold reset, bind, ret.
  pose proof (new_user_equipment_within "Target_Tx" "mixed" s) as Htx.
  destruct (new_user_equipment cfg "Target_Tx" "mixed" s) as [tx s1].
  pose proof (new_user_equipment_within "Target_Rx" "mixed" s1) as Hrx.
  destruct (new_user_equipment cfg "Target_Rx" "mixed" s1) as [rx s2].
  destruct (uniform 0 (2 * PI) s2) as [angle s3].
  pose proof (uniform_between 10 (D2D_MAX_DIST_M cfg) s3 max_dist_ge_10) as Hrad.
  destruct (uniform 10 (D2D_MAX_DIST_M cfg) s3) as [radius s4].
  destruct (randint 10 21 s4) as [k s5].
  pose proof (make_interferers_within (Z.to_nat k) 0 s5) as Hints.
  destruct (make_interferers cfg (Z.to_nat k) 0 s5) as [ints s6].
  simpl in *. destruct Htx as [Htp [Htd Htv]]. destruct Hrx as [Hrp [Hrd Hrv]].
  unfold env_within; simpl. repeat split; try assumption.
  eapply Rle_trans; [apply norm_triangle|].
  rewrite norm_polar, Rabs_pos_eq by lra. lra.
Qed.

Lemma env_step_within (env : Env) (s : St) (rec : StepRecord) (env' : Env) (s' : St) :
  env_within cfg env ->
  env_step cfg env s = (Some (rec, env'), s') ->
  env_within cfg env'.
Proof.
  intros [Hbs [Htx [Hrx Hints]]] Hstep.
  unfold env_step, step in Hstep.
  destruct (d2d_tx env) as [tx|]; destruct (d2d_rx env) as [rx|];
    try (unfold ret in Hstep; discriminate).
  unfold bind at 1 in Hstep.
  pose proof (ue_move_within (CELL_RADIUS_M cfg) tx s (Rle_refl _) Htx) as Htx'.
  destruct (ue_move cfg tx s) as [tx' s1].
  unfold bind at 1 in Hstep.
  pose proof (ue_move_within (CELL_RADIUS_M cfg + D2D_MAX_DIST_M cfg) rx s1
                ltac:(lra) Hrx) as Hrx'.
  destruct (ue_move cfg rx s1) as [rx' s2].
  unfold bind at 1 in Hstep.
  pose proof (move_each_within _ (ue_move cfg)
                (fun ue s0 => ue_move_within (CELL_RADIUS_M cfg) ue s0 (Rle_refl _))
                (interferers env) s2 Hints) as Hints'.
  destruct (move_each (ue_move cfg) (interferers env) s2) as [ints' s3].
  simpl in Htx', Hrx', Hints'.
  unfold bind, ret in Hstep. split_pairs_in Hstep.
  injection Hstep as _ <- _.
  unfold env_within; simpl. exact (conj Hbs (conj Htx' (conj Hrx' Hints'))).
Qed.

Lemma run_within (env : Env) (s : St) : run cfg env s -> env_within cfg env.
Proof.
  induction 1 as [s | env s Hrun IH | env s rec env' s' Hrun IH Hstep].
  - apply reset_within. simpl. unfold norm; simpl.
    replace (0 * 0 + 0 * 0) with 0 by ring. rewrite sqrt_0. exact radius_nonneg.
  - apply reset_within. destruct IH as [Hbs _]. exact Hbs.
  - eapply env_step_within; eassumption.
Qed.

End ProposedPlacement.
End Placement.

(** ** Cell membership of the entities (C2) *)

(** C2 as stated fails: [reset()] puts the receiver 10 m to
    [D2D_MAX_DIST_M] away from the transmitter at a random bearing without
    checking the cell.  A transmitter at [500 * sqrt (15/16)] (about 484 m)
    on the x-axis and a receiver 30 m further out, both from draws of
    [0, 1), give a freshly constructed environment whose receiver lies
    outside the 500 m cell. *)
Lemma receiver_outside_cell :
  (forall l : list R, 0 <= fst (rand l) < 1) /\
  exists env s rx,
    run simulation_config env s /\ d2d_rx env = Some rx /\
    CELL_RADIUS_M simulation_config < norm (position rx).
Proof.
  split; [exact tape_rand_range|].
  set (tape := [15/16; 0; 0; 0; 0; 0; 0; 0; 0; 0; 0; 1/2]).
  exists (fst (new_environment simulation_config tape)),
         (snd (new_environment simulation_config tape)).
  eexists. split; [apply run_new|]. split; [reflexivity|].
  simpl. unfold unit_clamp.
  destruct (Rle_dec 0 (15/16)); [|lra]. destruct (Rlt_dec (15/16) 1); [|lra].
  destruct (Rle_dec 0 0); [|lra]. destruct (Rlt_dec 0 1); [|lra].
  destruct (Rle_dec 0 (1/2)); [|lra]. destruct (Rlt_dec (1/2) 1); [|lra].
  replace (2 * PI * 0) with 0 by ring.
  replace (0 + (2 * PI - 0) * 0) with 0 by ring.
  rewrite cos_0, sin_0.
  unfold norm, vadd; simpl.
  assert (Hs : 94/100 < sqrt (15/16)).
  { rewrite <- (sqrt_square (94/100)) by lra. apply sqrt_lt_1_alt. lra. }
  set (x := 500 * sqrt (15 / 16) * 1 + (10 + (50 - 10) * (1 / 2)) * 1).
  replace (x * x + (500 * sqrt (15 / 16) * 0 + (10 + (50 - 10) * (1 / 2)) * 0) *
                   (500 * sqrt (15 / 16) * 0 + (10 + (50 - 10) * (1 / 2)) * 0))
    with (x * x) by ring.
  rewrite sqrt_square by (unfold x; lra).
  unfold x. lra.
Qed.

(** C2 (amended): at every point of a run (construction, any [reset()] and
    [step()]) the base station, the D2D transmitter and every interferer
    lie within [CELL_RADIUS_M] of the origin; the D2D receiver lies within
    [CELL_RADIUS_M + D2D_MAX_DIST_M] of it (it can be outside the cell). *)
Theorem positions_within_cell {St : Type} `{NpRandom St}
  (rand_range : forall s, 0 <= fst (rand s) < 1) (cfg : SimulationConfig) :
  0 <= CELL_RADIUS_M cfg -> 10 <= D2D_MAX_DIST_M cfg ->
  0 <= SPEED_MIN cfg -> 0 <= SPEED_MAX cfg -> 0 <= TIME_STEP_S cfg ->
  forall env s, run cfg env s ->
  norm (bs_position (bs env)) <= CELL_RADIUS_M cfg /\
  (forall tx, d2d_tx env = Some tx -> norm (position tx) <= CELL_RADIUS_M cfg) /\
  Forall (fun ue => norm (position ue) <= CELL_RADIUS_M cfg) (interferers env) /\
  (forall rx, d2d_rx env = Some rx ->
     norm (position rx) <= CELL_RADIUS_M cfg + D2D_MAX_DIST_M cfg).
Proof.
  intros Hr Hm Hv1 Hv2 Hdt env s Hrun.
  destruct (run_within rand_range cfg Hr Hm Hv1 Hv2 Hdt env s Hrun)
    as [Hbs [Htx [Hrx Hints]]].
  split; [exact Hbs|]. split; [|split].
  - intros tx Heq. rewrite Heq in Htx. apply Htx.
  - eapply Forall_impl; [|exact Hints]. intros ue [Hp _]. exact Hp.
  - intros rx Heq. rewrite Heq in Hrx. apply Hrx.
Qed.

Lemma positions_within_cell_witness :
  let env := fst (new_environment simulation_config [1/2]) in
  norm (bs_position (bs env)) <= CELL_RADIUS_M simulation_config /\
  (forall tx, d2d_tx env = Some tx ->
     norm (position tx) <= CELL_RADIUS_M simulation_config) /\
  Forall (fun ue => norm (position ue) <= CELL_RADIUS_M simulation_config)
    (interferers env) /\
  (forall rx, d2d_rx env = Some rx ->
     norm (position rx) <= CELL_RADIUS_M simulation_config
                           + D2D_MAX_DIST_M simulation_config).
Proof.
  intro env.
  apply (positions_within_cell tape_rand_range simulation_config)
    with (s := snd (new_environment simulation_config [1/2]));
    [simpl; lra | simpl; lra | simpl; lra | simpl; lra | simpl; lra |].
  apply run_new.
Defined.

(** ** Placement of the D2D pair *)

(** The distance from [p] to [p + v] is the length of [v]. *)
Lemma distance_to_offset (tx rx : UserEquipment) (v : Vec2) :
  get_distance_to tx (set_position rx (vadd (position tx) v)) = norm v.
Proof.
  unfold get_distance_to, norm; simpl. f_equal. ring.
Qed.

(** C4: in the proposed [reset()], the receiver's offset from the
    transmitter is [radius * (cos angle, sin angle)], with the bearing
    [angle] drawn uniformly in [0, 2*pi] and [radius], their distance,
    drawn uniformly in [10, D2D_MAX_DIST_M]; in the paper [reset()], the
    receiver's position is a fresh uniform point of the cell, drawn after
    the two UEs, and [D2D_MAX_DIST_M] has no effect on the result. *)
Theorem d2d_pair_placement {St : Type} `{NpRandom St}
  (rand_range : forall s, 0 <= fst (rand s) < 1)
  (cfg : SimulationConfig) (pcfg : PaperConfig) :
  10 <= D2D_MAX_DIST_M cfg -> 0 <= P_CELL_RADIUS_M pcfg ->
  (forall env s,
     let '(tx, s1) := new_user_equipment cfg "Target_Tx" "mixed" s in
     let '(_, s2) := new_user_equipment cfg "Target_Rx" "mixed" s1 in
     let '(angle, s3) := uniform 0 (2 * PI) s2 in
     let radius := fst (uniform 10 (D2D_MAX_DIST_M cfg) s3) in
     d2d_tx (fst (reset cfg env s)) = Some tx /\
     exists rx, d2d_rx (fst (reset cfg env s)) = Some rx /\
       get_distance_to tx rx = radius /\
       10 <= radius <= D2D_MAX_DIST_M cfg /\
       0 <= angle <= 2 * PI /\
       vsub (position rx) (position tx) =
         mkVec2 (radius * cos angle) (radius * sin angle)) /\
  (forall env s,
     let s2 := snd (paper_user_equipment pcfg "Target_Rx"
                      (snd (paper_user_equipment pcfg "Target_Tx" s))) in
     (exists rx, d2d_rx (fst (paper_reset pcfg env s)) = Some rx /\
        position rx = fst (_get_random_point_in_cell (P_CELL_RADIUS_M pcfg) s2) /\
        norm (position rx) <= P_CELL_RADIUS_M pcfg) /\
     forall m, paper_reset (with_max_dist pcfg m) env s = paper_reset pcfg env s).
Proof.
  intros Hmax Hr. split.
  - intros env s. unfold reset, bind, ret.
    destruct (new_user_equipment cfg "Target_Tx" "mixed" s) as [tx s1] eqn:E1.
    destruct (new_user_equipment cfg "Target_Rx" "mixed" s1) as [rx0 s2] eqn:E2.
    pose proof (uniform_between rand_range 0 (2 * PI) s2) as Ha.
    destruct (uniform 0 (2 * PI) s2) as [angle s3] eqn:E3.
    pose proof (uniform_between rand_range 10 (D2D_MAX_DIST_M cfg) s3 Hmax) as Hd.
    destruct (uniform 10 (D2D_MAX_DIST_M cfg) s3) as [radius s4] eqn:E4.
    destruct (randint 10 21 s4) as [n s5].
    destruct (make_interferers cfg (Z.to_nat n) 0 s5) as [ints s6].
    simpl in *. split; [reflexivity|].
    eexists. split; [reflexivity|]. split; [|split; [exact Hd|split]].
    + rewrite distance_to_offset, norm_polar. apply Rabs_pos_eq. lra.
    + apply Ha. pose proof PI_RGT_0. lra.
    + simpl. apply vsub_vadd.
  - intros env s s2. split; [|intro m; reflexivity].
    unfold paper_reset, bind, ret. subst s2.
    destruct (paper_user_equipment pcfg "Target_Tx" s) as [tx s1]. cbn [snd].
    destruct (paper_user_equipment pcfg "Target_Rx" s1) as [rx0 s2]. cbn [snd].
    pose proof (point_in_cell rand_range (P_CELL_RADIUS_M pcfg) s2 Hr) as Hp.
    destruct (_get_random_point_in_cell (P_CELL_RADIUS_M pcfg) s2) as [p s3].
    destruct (paper_make_interferers pcfg (P_NUM_INTERFERER pcfg) 0 s3) as [ints s4].
    simpl in *. eexists. split; [reflexivity|]. split; [reflexivity|exact Hp].
Qed.

Lemma d2d_pair_placement_witness :
  10 <= D2D_MAX_DIST_M simulation_config /\ 0 <= P_CELL_RADIUS_M paper_config /\
  (forall env s,
     let '(tx, s1) := new_user_equipment simulation_config "Target_Tx" "mixed" s in
     let '(_, s2) := new_user_equipment simulation_config "Target_Rx" "mixed" s1 in
     let '(angle, s3) := uniform 0 (2 * PI) s2 in
     let radius := fst (uniform 10 (D2D_MAX_DIST_M simulation_config) s3) in
     d2d_tx (fst (reset simulation_config env s)) = Some tx /\
     exists rx, d2d_rx (fst (reset simulation_config env s)) = Some rx /\
       get_distance_to tx rx = radius /\
       10 <= radius <= D2D_MAX_DIST_M simulation_config /\
       0 <= angle <= 2 * PI /\
       vsub (position rx) (position tx) =
         mkVec2 (radius * cos angle) (radius * sin angle)) /\
  (forall env s,
     let s2 := snd (paper_user_equipment paper_config "Target_Rx"
                      (snd (paper_user_equipment paper_config "Target_Tx" s))) in
     (exists rx, d2d_rx (fst (paper_reset paper_config env s)) = Some rx /\
        position rx = fst (_get_random_point_in_cell (P_CELL_RADIUS_M paper_config) s2) /\
        norm (position rx) <= P_CELL_RADIUS_M paper_config) /\
     forall m, paper_reset (with_max_dist paper_config m) env s = paper_reset paper_config env s).
Proof.
  assert (H1 : 10 <= D2D_MAX_DIST_M simulation_config) by (simpl; lra).
  assert (H2 : 0 <= P_CELL_RADIUS_M paper_config) by (simpl; lra).
  split; [exact H1|]. split; [exact H2|].
  exact (d2d_pair_placement (St := list R) tape_rand_range
           simulation_config paper_config H1 H2).
Defined.

(** ** Unit conversions *)

Lemma ln_1000 : ln 1000 = 3 * ln 10.
Proof.
  replace 1000 with (10 * (10 * 10)) by lra.
  rewrite !ln_mult by lra. ring.
Qed.

Lemma pow10_pos (x : R) : 0 < pow10 x.
Proof. unfold pow10, Rpower. apply exp_pos. Qed.

(** [10 * log10((10 ** ((p - 30) / 10)) * 1000)] is [p]. *)
Lemma dbm_watts_round_trip (p : R) : watts_to_dbm (pow10 ((p - 30) / 10)) = Fin p.
Proof.
  unfold watts_to_dbm, np_log10.
  pose proof (pow10_pos ((p - 30) / 10)) as Hp.
  destruct (Rlt_dec 0 (pow10 ((p - 30) / 10) * 1000)) as [_|n]; [|lra].
  simpl. f_equal. unfold log10, pow10, Rpower.
  rewrite ln_mult by (try apply exp_pos; lra). rewrite ln_exp, ln_1000.
  pose proof ln10_pos. field. lra.
Qed.

(** The shape of a record [step()] returns. *)
Section StepShape.
Context {St : Type}.
Variable ue_step : UserEquipment -> M St UserEquipment.
Variable received_power : R -> R -> bool -> M St R.
Variables (rho noise_watts bandwidth_hz : R).

Lemma step_inv (env : Env) (s : St) (rec : StepRecord) (env' : Env) (s' : St) :
  step ue_step received_power rho noise_watts bandwidth_hz env s = (Some (rec, env'), s') ->
  exists tx rx tx' rx' ints' a b i s1 s2 s3 s4 s5,
    d2d_tx env = Some tx /\ d2d_rx env = Some rx /\
    ue_step tx s = (tx', s1) /\ ue_step rx s1 = (rx', s2) /\
    move_each ue_step (interferers env) s2 = (ints', s3) /\
    received_power (tx_power_dbm tx') (get_distance_to tx' rx') true s3 = (a, s4) /\
    received_power (bs_tx_power_dbm (bs env)) (bs_get_distance_to (bs env) rx') false s4
      = (b, s5) /\
    sum_interference received_power rho rx' ints' 0 s5 = (i, s') /\
    env' = mkEnv (bs env) (Some tx') (Some rx') ints' (S (time_step env)) /\
    timestamp rec = S (time_step env) /\ episode_id rec = 0%Z /\
    tx_speed_mps rec = speed tx' /\ rx_speed_mps rec = speed rx' /\
    tx_power_d2d_dbm rec = tx_power_dbm tx' /\
    tx_power_bs_dbm rec = bs_tx_power_dbm (bs env) /\
    rx_power_d2d_dbm rec = watts_to_dbm a /\
    rx_power_cell_dbm rec = watts_to_dbm b /\
    interference_dbm rec = watts_to_dbm i /\
    noise_dbm rec = watts_to_dbm noise_watts /\
    sinr_d2d_db rec = ext_scale 10 (np_log10 (a / (i + noise_watts))) /\
    sinr_cell_db rec = ext_scale 10 (np_log10 (b / (i + noise_watts))) /\
    throughput_d2d_mbps rec =
      ext_div (ext_scale bandwidth_hz (np_log2 (1 + a / (i + noise_watts)))) 1000000 /\
    throughput_cell_mbps rec =
      ext_div (ext_scale bandwidth_hz (np_log2 (1 + b / (i + noise_watts)))) 1000000 /\
    optimal_mode rec =
      (if ext_ge (throughput_d2d_mbps rec) (throughput_cell_mbps rec)
       then "D2D" else "Cellular").
Proof.
  unfold step. destruct (d2d_tx env) as [tx|] eqn:Etx; [|discriminate].
  destruct (d2d_rx env) as [rx|] eqn:Erx; [|discriminate].
  unfold bind, ret.
  destruct (ue_step tx s) as [tx' s1] eqn:E1.
  destruct (ue_step rx s1) as [rx' s2] eqn:E2.
  destruct (move_each ue_step (interferers env) s2) as [ints' s3] eqn:E3.
  destruct (received_power (tx_power_dbm tx') (get_distance_to tx' rx') true s3)
    as [a s4] eqn:E4.
  destruct (received_power (bs_tx_power_dbm (bs env)) (bs_get_distance_to (bs env) rx')
              false s4) as [b s5] eqn:E5.
  destruct (sum_interference received_power rho rx' ints' 0 s5) as [i s6] eqn:E6.
  intros Heq. inversion Heq; subst.
  exists tx, rx, tx', rx', ints', a, b, i, s1, s2, s3, s4, s5.
  repeat split; first [assumption | reflexivity].
Qed.


End StepShape.

(** X1 *)


(** X2 *)

(** X2: every record [step()] returns, in either configuration, reports the
    configured noise floor [NOISE_POWER_DBM] as its [noise_dbm], the base
    station's transmit power as [tx_power_bs_dbm] and the timestamp of the
    new step counter, one more than before the step. *)
Theorem step_record_constants {St : Type} `{NpRandom St}
  (cfg : SimulationConfig) (pcfg : PaperConfig) :
  (forall env s rec env' s',
     env_step cfg env s = (Some (rec, env'), s') ->
     noise_dbm rec = Fin (NOISE_POWER_DBM cfg) /\
     tx_power_bs_dbm rec = bs_tx_power_dbm (bs env) /\
     timestamp rec = S (time_step env) /\ time_step env' = timestamp rec) /\
  (forall env s rec env' s',
     paper_env_step pcfg env s = (Some (rec, env'), s') ->
     noise_dbm rec = Fin (P_NOISE_POWER_DBM pcfg) /\
     tx_power_bs_dbm rec = bs_tx_power_dbm (bs env) /\
     timestamp rec = S (time_step env) /\ time_step env' = timestamp rec).
Proof.
  split; intros env s rec env' s' Hs; apply step_inv in Hs;
    destruct Hs as (tx & rx & tx' & rx' & ints' & a & b & i & s1 & s2 & s3 & s4 & s5 &
                    _ & _ & _ & _ & _ & _ & _ & _ & He & Ht & _ & _ & _ & _ & Hbs &
                    _ & _ & _ & Hn & _);
    rewrite Hn, Hbs, Ht, He; (split; [apply dbm_watts_round_trip|]);
    repeat split; reflexivity.
Qed.

(** ** Signal quality of a record *)

Lemma log2_nonneg (x : R) : 1 <= x -> 0 <= log2 x.
Proof.
  intros Hx. unfold log2, Rdiv. apply Rmult_le_pos.
  - rewrite <- ln_1. destruct (Req_dec x 1) as [->|Hn]; [lra|].
    left. apply ln_increasing; lra.
  - left. apply Rinv_0_lt_compat. rewrite <- ln_1. apply ln_increasing; lra.
Qed.

Lemma ln_le_iff (x y : R) : 0 < x -> 0 < y -> (ln y <= ln x <-> y <= x).
Proof.
  intros Hx Hy. split.
  - intros Hl. destruct (Rle_dec y x) as [|Hn]; [assumption|].
    assert (ln x < ln y) by (apply ln_increasing; lra). lra.
  - intros Hl. destruct (Req_dec y x) as [->|Hn]; [lra|].
    left. apply ln_increasing; lra.
Qed.

(** [10 * np.log10(x)] for [x >= 0]. *)
Lemma db_of_nonneg (x : R) : 0 <= x ->
  ext_scale 10 (np_log10 x) =
  if Rlt_dec 0 x then Fin (10 * log10 x) else NegInf.
Proof.
  intros Hx. unfold np_log10.
  destruct (Rlt_dec 0 x); [reflexivity|].
  destruct (Req_dec_T x 0); [|lra]. simpl.
  destruct (Rlt_dec 0 10); [reflexivity|lra].
Qed.

(** Comparing two dB values of non-negative ratios compares the ratios. *)
Lemma db_ge_iff (x y : R) : 0 <= x -> 0 <= y ->
  ext_ge (ext_scale 10 (np_log10 x)) (ext_scale 10 (np_log10 y)) = true <-> y <= x.
Proof.
  intros Hx Hy. rewrite (db_of_nonneg x Hx), (db_of_nonneg y Hy).
  pose proof ln10_pos as H10.
  destruct (Rlt_dec 0 x) as [Px|Px]; destruct (Rlt_dec 0 y) as [Py|Py]; simpl.
  - destruct (Rge_dec (10 * log10 x) (10 * log10 y)) as [G|G];
      (split; [intros Hb|intros Hle]); try discriminate; try reflexivity.
    + apply (ln_le_iff x y Px Py). unfold log10 in G.
      apply Rmult_le_reg_r with (/ ln 10); [apply Rinv_0_lt_compat; lra|].
      unfold Rdiv in G. lra.
    + exfalso. apply G. apply Rle_ge. apply Rmult_le_compat_l; [lra|].
      unfold log10, Rdiv. apply Rmult_le_compat_r; [left; apply Rinv_0_lt_compat; lra|].
      apply ln_le_iff; assumption.
  - split; [intros _; lra | reflexivity].
  - split; [discriminate | intros; lra].
  - split; [intros _; lra | reflexivity].
Qed.

(** [BANDWIDTH_HZ * np.log2(1 + x) / 1e6] for [x >= 0]. *)
Lemma throughput_of_nonneg (bw x : R) : 0 < bw -> 0 <= x ->
  ext_div (ext_scale bw (np_log2 (1 + x))) 1000000 =
  Fin (/ 1000000 * (bw * log2 (1 + x))).
Proof.
  intros Hb Hx. unfold np_log2.
  destruct (Rlt_dec 0 (1 + x)); [reflexivity | lra].
Qed.

Lemma throughput_ge_iff (bw x y : R) : 0 < bw -> 0 <= x -> 0 <= y ->
  ext_ge (ext_div (ext_scale bw (np_log2 (1 + x))) 1000000)
         (ext_div (ext_scale bw (np_log2 (1 + y))) 1000000) = true <-> y <= x.
Proof.
  intros Hb Hx Hy. rewrite !throughput_of_nonneg by assumption. simpl.
  assert (Hc : 0 < / 1000000 * bw) by (apply Rmult_lt_0_compat; [lra|assumption]).
  destruct (Rge_dec (/ 1000000 * (bw * log2 (1 + x))) (/ 1000000 * (bw * log2 (1 + y))))
    as [G|G]; (split; [intros Hb'|intros Hle]); try discriminate; try reflexivity.
  - assert (log2 (1 + y) <= log2 (1 + x)).
    { apply Rmult_le_reg_l with (/ 1000000 * bw); [exact Hc|].
      replace (/ 1000000 * bw * log2 (1 + x)) with (/ 1000000 * (bw * log2 (1 + x))) by ring.
      replace (/ 1000000 * bw * log2 (1 + y)) with (/ 1000000 * (bw * log2 (1 + y))) by ring.
      apply Rge_le. exact G. }
    unfold log2, Rdiv in H.
    apply Rmult_le_reg_r in H; [|apply Rinv_0_lt_compat; rewrite <- ln_1;
                                 apply ln_increasing; lra].
    apply (ln_le_iff (1 + x) (1 + y)) in H; lra.
  - exfalso. apply G. apply Rle_ge.
    assert (log2 (1 + y) <= log2 (1 + x)).
    { unfold log2, Rdiv. apply Rmult_le_compat_r.
      - left. apply Rinv_0_lt_compat. rewrite <- ln_1. apply ln_increasing; lra.
      - apply ln_le_iff; lra. }
    replace (/ 1000000 * (bw * log2 (1 + x))) with ((/ 1000000 * bw) * log2 (1 + x)) by ring.
    replace (/ 1000000 * (bw * log2 (1 + y))) with ((/ 1000000 * bw) * log2 (1 + y)) by ring.
    apply Rmult_le_compat_l; lra.
Qed.

Lemma sum_interference_nonneg {St : Type} (rp : R -> R -> bool -> M St R) (rho : R)
  (rp_nonneg : forall p d b s, 0 <= fst (rp p d b s)) (rho_nonneg : 0 <= rho)
  (rx : UserEquipment) (ints : list UserEquipment) :
  forall acc s, 0 <= acc -> 0 <= fst (sum_interference rp rho rx ints acc s).
Proof.
  induction ints as [|u ints IH]; intros acc s Hacc; simpl; [exact Hacc|].
  unfold bind. pose proof (rp_nonneg (tx_power_dbm u) (get_distance_to u rx) true s) as Hp.
  destruct (rp _ _ _ s) as [raw s']. simpl in Hp. apply IH.
  apply Rplus_le_le_0_compat; [exact Hacc|]. apply Rmult_le_pos; assumption.
Qed.

Lemma sum_interference_pos {St : Type} (rp : R -> R -> bool -> M St R) (rho : R)
  (rp_pos : forall p d b s, 0 < fst (rp p d b s)) (rho_pos : 0 < rho)
  (rx : UserEquipment) (ints : list UserEquipment) :
  forall acc s, 0 <= acc -> ints <> [] ->
  0 < fst (sum_interference rp rho rx ints acc s).
Proof.
  induction ints as [|u ints IH]; intros acc s Hacc Hne; [congruence|]. simpl.
  unfold bind. pose proof (rp_pos (tx_power_dbm u) (get_distance_to u rx) true s) as Hp.
  destruct (rp _ _ _ s) as [raw s']. simpl in Hp.
  assert (0 < acc + rho * raw) by (pose proof (Rmult_lt_0_compat _ _ rho_pos Hp); lra).
  destruct ints as [|u' ints'].
  - simpl. exact H.
  - apply IH; [lra | discriminate].
Qed.

Lemma compute_received_power_nonneg {St : Type} `{NpRandom St} (cfg : SimulationConfig)
  (exp_nonneg : forall s, 0 <= fst (exponential 1 s)) (p d : R) (b : bool) (s : St) :
  0 <= fst (compute_received_power cfg p d b s).
Proof.
  unfold compute_received_power, bind, ret.
  destruct (get_shadowing cfg s) as [sh s1].
  unfold get_rayleigh_fading_gain.
  destruct (negb (USE_RAYLEIGH_FADING cfg)); simpl.
  - rewrite Rmult_1_r. left. apply pow10_pos.
  - pose proof (exp_nonneg s1) as He. destruct (exponential 1 s1) as [g s2].
    simpl in *. apply Rmult_le_pos; [left; apply pow10_pos | exact He].
Qed.

Lemma paper_received_power_pos {St : Type} (pcfg : PaperConfig) (p d : R) (b : bool) (s : St) :
  0 < fst (paper_compute_received_power pcfg p d b s).
Proof. apply pow10_pos. Qed.

Section SignalQuality.
Context {St : Type}.
Variable ue_step : UserEquipment -> M St UserEquipment.
Variable received_power : R -> R -> bool -> M St R.
Variables (rho noise_watts bandwidth_hz : R).
Hypothesis rp_nonneg : forall p d b s, 0 <= fst (received_power p d b s).
Hypothesis rho_nonneg : 0 <= rho.
Hypothesis noise_pos : 0 < noise_watts.
Hypothesis bandwidth_pos : 0 < bandwidth_hz.

Lemma step_signal_quality (env : Env) (s : St) (rec : StepRecord) (env' : Env) (s' : St) :
  step ue_step received_power rho noise_watts bandwidth_hz env s = (Some (rec, env'), s') ->
  (exists t1 t2, throughput_d2d_mbps rec = Fin t1 /\ throughput_cell_mbps rec = Fin t2 /\
                 0 <= t1 /\ 0 <= t2) /\
  (optimal_mode rec = "D2D" <->
     ext_ge (rx_power_d2d_dbm rec) (rx_power_cell_dbm rec) = true) /\
  (optimal_mode rec = "D2D" <->
     ext_ge (sinr_d2d_db rec) (sinr_cell_db rec) = true) /\
  (optimal_mode rec = "D2D" \/ optimal_mode rec = "Cellular").
Proof.
  intros Hs. apply step_inv in Hs.
  destruct Hs as (tx & rx & tx' & rx' & ints' & a & b & i & s1 & s2 & s3 & s4 & s5 &
                  _ & _ & _ & _ & _ & E4 & E5 & E6 & _ & _ & _ & _ & _ & _ & _ &
                  Hpd & Hpc & _ & _ & Hsd & Hsc & Htd & Htc & Hmode).
  pose proof (rp_nonneg (tx_power_dbm tx') (get_distance_to tx' rx') true s3) as Ha.
  rewrite E4 in Ha. simpl in Ha.
  pose proof (rp_nonneg (bs_tx_power_dbm (bs env)) (bs_get_distance_to (bs env) rx')
                false s4) as Hb.
  rewrite E5 in Hb. simpl in Hb.
  pose proof (sum_interference_nonneg received_power rho rp_nonneg rho_nonneg rx' ints' 0 s5
                (Rle_refl 0)) as Hi.
  rewrite E6 in Hi. simpl in Hi.
  assert (HD : 0 < i + noise_watts) by lra.
  assert (Hx : 0 <= a / (i + noise_watts)) by (unfold Rdiv; apply Rmult_le_pos; [lra | left; apply Rinv_0_lt_compat; lra]).
  assert (Hy : 0 <= b / (i + noise_watts)) by (unfold Rdiv; apply Rmult_le_pos; [lra | left; apply Rinv_0_lt_compat; lra]).
  assert (Hge : ext_ge (throughput_d2d_mbps rec) (throughput_cell_mbps rec) = true
                <-> b <= a).
  { rewrite Htd, Htc, throughput_ge_iff by assumption. split.
    - intros Hle. apply Rmult_le_reg_r with (/ (i + noise_watts));
        [apply Rinv_0_lt_compat; lra | exact Hle].
    - intros Hle. apply Rmult_le_compat_r; [left; apply Rinv_0_lt_compat; lra | exact Hle]. }
  assert (Hmode' : optimal_mode rec = "D2D" <-> b <= a).
  { rewrite Hmode. destruct (ext_ge _ _) eqn:E.
    - split; [intros _; apply Hge; reflexivity | reflexivity].
    - split; [discriminate | intros Hle; apply Hge in Hle; discriminate]. }
  split; [|split; [|split]].
  - rewrite Htd, Htc, !throughput_of_nonneg by assumption.
    do 2 eexists. split; [reflexivity|]. split; [reflexivity|].
    split; apply Rmult_le_pos; try (left; apply Rinv_0_lt_compat; lra);
      apply Rmult_le_pos; try lra; apply log2_nonneg; lra.
  - rewrite Hmode', Hpd, Hpc. unfold watts_to_dbm. rewrite db_ge_iff by lra. lra.
  - rewrite Hmode', Hsd, Hsc, db_ge_iff by assumption. split.
    + intros Hle. apply Rmult_le_compat_r; [left; apply Rinv_0_lt_compat; lra | exact Hle].
    + intros Hle. apply Rmult_le_reg_r with (/ (i + noise_watts));
        [apply Rinv_0_lt_compat; lra | exact Hle].
  - rewrite Hmode. destruct (ext_ge _ _); [left|right]; reflexivity.
Qed.

End SignalQuality.

(** X3 *)

(** X3: the throughputs of every record [step()] returns are finite,
    non-negative numbers of Mbps, in both configurations: the proposed one
    as long as its load factor is non-negative, its bandwidth positive and
    the exponential draws of the fading non-negative (as NumPy's are), the
    paper one as long as its load factor is non-negative and its bandwidth
    positive. *)
Theorem record_throughputs_finite {St : Type} `{NpRandom St}
  (cfg : SimulationConfig) (pcfg : PaperConfig) :
  ((forall s, 0 <= fst (exponential 1 s)) ->
   0 <= INTERFERENCE_LOAD_FACTOR cfg -> 0 < BANDWIDTH_HZ cfg ->
   forall env s rec env' s',
     env_step cfg env s = (Some (rec, env'), s') ->
     exists t1 t2, throughput_d2d_mbps rec = Fin t1 /\
                   throughput_cell_mbps rec = Fin t2 /\ 0 <= t1 /\ 0 <= t2) /\
  (0 <= P_INTERFERENCE_LOAD_FACTOR pcfg -> 0 < P_BANDWIDTH_HZ pcfg ->
   forall env s rec env' s',
     paper_env_step pcfg env s = (Some (rec, env'), s') ->
     exists t1 t2, throughput_d2d_mbps rec = Fin t1 /\
                   throughput_cell_mbps rec = Fin t2 /\ 0 <= t1 /\ 0 <= t2).
Proof.
  split.
  - intros Hexp Hrho Hbw env s rec env' s' Hs.
    apply (step_signal_quality (ue_move cfg) (compute_received_power cfg)
             (INTERFERENCE_LOAD_FACTOR cfg) (get_noise_power_watts cfg) (BANDWIDTH_HZ cfg))
      in Hs; [exact (proj1 Hs) | | exact Hrho | apply pow10_pos | exact Hbw].
    intros p d b s0. apply compute_received_power_nonneg. exact Hexp.
  - intros Hrho Hbw env s rec env' s' Hs.
    apply (step_signal_quality (paper_move pcfg) (paper_compute_received_power pcfg)
             (P_INTERFERENCE_LOAD_FACTOR pcfg) (paper_noise_power_watts pcfg)
             (P_BANDWIDTH_HZ pcfg))
      in Hs; [exact (proj1 Hs) | | exact Hrho | apply pow10_pos | exact Hbw].
    intros p d b s0. left. apply paper_received_power_pos.
Qed.

(** X4 *)

(** X4: the label of a record only says which received signal is the
    stronger.  In both configurations (with the hypotheses of X3),
    [optimal_mode] is "D2D" exactly when the D2D received power in dBm is
    at least the cellular one, exactly when the D2D SINR in dB is at least
    the cellular one, and it is "Cellular" otherwise. *)
Theorem optimal_mode_stronger_signal {St : Type} `{NpRandom St}
  (cfg : SimulationConfig) (pcfg : PaperConfig) :
  ((forall s, 0 <= fst (exponential 1 s)) ->
   0 <= INTERFERENCE_LOAD_FACTOR cfg -> 0 < BANDWIDTH_HZ cfg ->
   forall env s rec env' s',
     env_step cfg env s = (Some (rec, env'), s') ->
     (optimal_mode rec = "D2D" <->
        ext_ge (rx_power_d2d_dbm rec) (rx_power_cell_dbm rec) = true) /\
     (optimal_mode rec = "D2D" <->
        ext_ge (sinr_d2d_db rec) (sinr_cell_db rec) = true) /\
     (optimal_mode rec = "D2D" \/ optimal_mode rec = "Cellular")) /\
  (0 <= P_INTERFERENCE_LOAD_FACTOR pcfg -> 0 < P_BANDWIDTH_HZ pcfg ->
   forall env s rec env' s',
     paper_env_step pcfg env s = (Some (rec, env'), s') ->
     (optimal_mode rec = "D2D" <->
        ext_ge (rx_power_d2d_dbm rec) (rx_power_cell_dbm rec) = true) /\
     (optimal_mode rec = "D2D" <->
        ext_ge (sinr_d2d_db rec) (sinr_cell_db rec) = true) /\
     (optimal_mode rec = "D2D" \/ optimal_mode rec = "Cellular")).
Proof.
  split.
  - intros Hexp Hrho Hbw env s rec env' s' Hs.
    apply (step_signal_quality (ue_move cfg) (compute_received_power cfg)
             (INTERFERENCE_LOAD_FACTOR cfg) (get_noise_power_watts cfg) (BANDWIDTH_HZ cfg))
      in Hs; [exact (proj2 Hs) | | exact Hrho | apply pow10_pos | exact Hbw].
    intros p d b s0. apply compute_received_power_nonneg. exact Hexp.
  - intros Hrho Hbw env s rec env' s' Hs.
    apply (step_signal_quality (paper_move pcfg) (paper_compute_received_power pcfg)
             (P_INTERFERENCE_LOAD_FACTOR pcfg) (paper_noise_power_watts pcfg)
             (P_BANDWIDTH_HZ pcfg))
      in Hs; [exact (proj2 Hs) | | exact Hrho | apply pow10_pos | exact Hbw].
    intros p d b s0. left. apply paper_received_power_pos.
Qed.

Lemma step_record_constants_witness :
  (exists rec env' s',
     env_step simulation_config sample_env tt = (Some (rec, env'), s') /\
     noise_dbm rec = Fin (NOISE_POWER_DBM simulation_config) /\
     tx_power_bs_dbm rec = bs_tx_power_dbm (bs sample_env) /\
     timestamp rec = S (time_step sample_env) /\ time_step env' = timestamp rec) /\
  (exists rec env' s',
     paper_env_step paper_config sample_env tt = (Some (rec, env'), s') /\
     noise_dbm rec = Fin (P_NOISE_POWER_DBM paper_config) /\
     tx_power_bs_dbm rec = bs_tx_power_dbm (bs sample_env) /\
     timestamp rec = S (time_step sample_env) /\ time_step env' = timestamp rec).
Proof.
  split; do 3 eexists.
  - assert (Hs : env_step simulation_config sample_env tt = (Some (_, _), _))
      by (simpl; reflexivity).
    split; [exact Hs|].
    exact (proj1 (step_record_constants simulation_config paper_config) _ _ _ _ _ Hs).
  - assert (Hs : paper_env_step paper_config sample_env tt = (Some (_, _), _))
      by (simpl; reflexivity).
    split; [exact Hs|].
    exact (proj2 (step_record_constants simulation_config paper_config) _ _ _ _ _ Hs).
Defined.

Lemma record_throughputs_finite_witness :
  ((forall s : unit, 0 <= fst (exponential 1 s)) /\
   0 <= INTERFERENCE_LOAD_FACTOR simulation_config /\ 0 < BANDWIDTH_HZ simulation_config /\
   exists rec env' s',
     env_step simulation_config sample_env tt = (Some (rec, env'), s') /\
     exists t1 t2, throughput_d2d_mbps rec = Fin t1 /\
                   throughput_cell_mbps rec = Fin t2 /\ 0 <= t1 /\ 0 <= t2) /\
  (0 <= P_INTERFERENCE_LOAD_FACTOR paper_config /\ 0 < P_BANDWIDTH_HZ paper_config /\
   exists rec env' s',
     paper_env_step paper_config sample_env tt = (Some (rec, env'), s') /\
     exists t1 t2, throughput_d2d_mbps rec = Fin t1 /\
                   throughput_cell_mbps rec = Fin t2 /\ 0 <= t1 /\ 0 <= t2).
Proof.
  assert (He : forall s : unit, 0 <= fst (exponential 1 s)) by (intros; simpl; lra).
  assert (Hr : 0 <= INTERFERENCE_LOAD_FACTOR simulation_config) by (simpl; lra).
  assert (Hb : 0 < BANDWIDTH_HZ simulation_config) by (simpl; lra).
  assert (Hr' : 0 <= P_INTERFERENCE_LOAD_FACTOR paper_config) by (simpl; lra).
  assert (Hb' : 0 < P_BANDWIDTH_HZ paper_config) by (simpl; lra).
  split.
  - split; [exact He|]. split; [exact Hr|]. split; [exact Hb|]. do 3 eexists.
    assert (Hs : env_step simulation_config sample_env tt = (Some (_, _), _))
      by (simpl; reflexivity).
    split; [exact Hs|].
    exact (proj1 (record_throughputs_finite simulation_config paper_config)
             He Hr Hb _ _ _ _ _ Hs).
  - split; [exact Hr'|]. split; [exact Hb'|]. do 3 eexists.
    assert (Hs : paper_env_step paper_config sample_env tt = (Some (_, _), _))
      by (simpl; reflexivity).
    split; [exact Hs|].
    exact (proj2 (record_throughputs_finite simulation_config paper_config)
             Hr' Hb' _ _ _ _ _ Hs).
Defined.

Lemma optimal_mode_stronger_signal_witness :
  ((forall s : unit, 0 <= fst (exponential 1 s)) /\
   0 <= INTERFERENCE_LOAD_FACTOR simulation_config /\ 0 < BANDWIDTH_HZ simulation_config /\
   exists rec env' s',
     env_step simulation_config sample_env tt = (Some (rec, env'), s') /\
     (optimal_mode rec = "D2D" <->
        ext_ge (rx_power_d2d_dbm rec) (rx_power_cell_dbm rec) = true) /\
     (optimal_mode rec = "D2D" <->
        ext_ge (sinr_d2d_db rec) (sinr_cell_db rec) = true) /\
     (optimal_mode rec = "D2D" \/ optimal_mode rec = "Cellular")) /\
  (0 <= P_INTERFERENCE_LOAD_FACTOR paper_config /\ 0 < P_BANDWIDTH_HZ paper_config /\
   exists rec env' s',
     paper_env_step paper_config sample_env tt = (Some (rec, env'), s') /\
     (optimal_mode rec = "D2D" <->
        ext_ge (rx_power_d2d_dbm rec) (rx_power_cell_dbm rec) = true) /\
     (optimal_mode rec = "D2D" <->
        ext_ge (sinr_d2d_db rec) (sinr_cell_db rec) = true) /\
     (optimal_mode rec = "D2D" \/ optimal_mode rec = "Cellular")).
Proof.
  assert (He : forall s : unit, 0 <= fst (exponential 1 s)) by (intros; simpl; lra).
  assert (Hr : 0 <= INTERFERENCE_LOAD_FACTOR simulation_config) by (simpl; lra).
  assert (Hb : 0 < BANDWIDTH_HZ simulation_config) by (simpl; lra).
  assert (Hr' : 0 <= P_INTERFERENCE_LOAD_FACTOR paper_config) by (simpl; lra).
  assert (Hb' : 0 < P_BANDWIDTH_HZ paper_config) by (simpl; lra).
  split.
  - split; [exact He|]. split; [exact Hr|]. split; [exact Hb|]. do 3 eexists.
    assert (Hs : env_step simulation_config sample_env tt = (Some (_, _), _))
      by (simpl; reflexivity).
    split; [exact Hs|].
    exact (proj1 (optimal_mode_stronger_signal simulation_config paper_config)
             He Hr Hb _ _ _ _ _ Hs).
  - split; [exact Hr'|]. split; [exact Hb'|]. do 3 eexists.
    assert (Hs : paper_env_step paper_config sample_env tt = (Some (_, _), _))
      by (simpl; reflexivity).
    split; [exact Hs|].
    exact (proj2 (optimal_mode_stronger_signal simulation_config paper_config)
             Hr' Hb' _ _ _ _ _ Hs).
Defined.

(** ** Path loss and received power *)

Lemma floored_log_monotone (m a c d1 d2 : R) : 0 < m -> 0 < c -> d1 < d2 ->
  (m <= d1 -> a + c * log10 (Rmax d1 m / 1000) < a + c * log10 (Rmax d2 m / 1000)) /\
  (d2 <= m -> a + c * log10 (Rmax d1 m / 1000) = a + c * log10 (Rmax d2 m / 1000)).
Proof.
  intros Hm Hc Hlt. split.
  - intros H1. rewrite (Rmax_left d1 m) by lra. rewrite (Rmax_left d2 m) by lra.
    assert (log10 (d1 / 1000) < log10 (d2 / 1000)) by
      (apply log10_increasing; unfold Rdiv; nra).
    nra.
  - intros H2. rewrite (Rmax_right d1 m) by lra. rewrite (Rmax_right d2 m) by lra.
    reflexivity.
Qed.

(** X5 *)

(** X5: every path-loss formula strictly increases with the distance above
    its floor (1 m cellular, 0.1 m D2D) and is constant below it, as long
    as its distance coefficient is positive: the D2D and cellular losses of
    [ChannelModel] and of [ChannelModelPaper]. *)
Theorem path_loss_monotone (cfg : SimulationConfig) (pcfg : PaperConfig) (d1 d2 : R) :
  d1 < d2 ->
  (0 < PATH_LOSS_CELLULAR_B cfg ->
   (1 <= d1 -> calculate_path_loss_cellular cfg d1 < calculate_path_loss_cellular cfg d2) /\
   (d2 <= 1 -> calculate_path_loss_cellular cfg d1 = calculate_path_loss_cellular cfg d2)) /\
  (0 < PATH_LOSS_D2D_C_DIST cfg ->
   (1/10 <= d1 -> calculate_path_loss_d2d cfg d1 < calculate_path_loss_d2d cfg d2) /\
   (d2 <= 1/10 -> calculate_path_loss_d2d cfg d1 = calculate_path_loss_d2d cfg d2)) /\
  (0 < P_PATH_LOSS_CELLULAR_B pcfg ->
   (1 <= d1 -> paper_path_loss_cellular pcfg d1 < paper_path_loss_cellular pcfg d2) /\
   (d2 <= 1 -> paper_path_loss_cellular pcfg d1 = paper_path_loss_cellular pcfg d2)) /\
  (0 < P_PATH_LOSS_D2D_C_DIST pcfg ->
   (1/10 <= d1 -> paper_path_loss_d2d pcfg d1 < paper_path_loss_d2d pcfg d2) /\
   (d2 <= 1/10 -> paper_path_loss_d2d pcfg d1 = paper_path_loss_d2d pcfg d2)).
Proof.
  intros Hlt.
  unfold calculate_path_loss_cellular, calculate_path_loss_d2d,
         paper_path_loss_cellular, paper_path_loss_d2d.
  split; [|split; [|split]]; intros Hc.
  - apply floored_log_monotone; lra.
  - apply floored_log_monotone; lra.
  - apply floored_log_monotone; lra.
  - apply floored_log_monotone; lra.
Qed.

Lemma path_loss_monotone_witness :
  1 < 2 /\
  (0 < PATH_LOSS_CELLULAR_B simulation_config /\
   (1 <= 1 -> calculate_path_loss_cellular simulation_config 1
              < calculate_path_loss_cellular simulation_config 2) /\
   (2 <= 1 -> calculate_path_loss_cellular simulation_config 1
              = calculate_path_loss_cellular simulation_config 2)) /\
  (0 < PATH_LOSS_D2D_C_DIST simulation_config /\
   (1/10 <= 1 -> calculate_path_loss_d2d simulation_config 1
                 < calculate_path_loss_d2d simulation_config 2) /\
   (2 <= 1/10 -> calculate_path_loss_d2d simulation_config 1
                 = calculate_path_loss_d2d simulation_config 2)) /\
  (0 < P_PATH_LOSS_CELLULAR_B paper_config /\
   (1 <= 1 -> paper_path_loss_cellular paper_config 1 < paper_path_loss_cellular paper_config 2) /\
   (2 <= 1 -> paper_path_loss_cellular paper_config 1 = paper_path_loss_cellular paper_config 2)) /\
  (0 < P_PATH_LOSS_D2D_C_DIST paper_config /\
   (1/10 <= 1 -> paper_path_loss_d2d paper_config 1 < paper_path_loss_d2d paper_config 2) /\
   (2 <= 1/10 -> paper_path_loss_d2d paper_config 1 = paper_path_loss_d2d paper_config 2)).
Proof.
  assert (Hlt : 1 < 2) by lra.
  pose proof (path_loss_monotone simulation_config paper_config 1 2 Hlt) as [H1 [H2 [H3 H4]]].
  split; [exact Hlt|].
  split; [split; [simpl; lra | apply H1; simpl; lra]|].
  split; [split; [simpl; lra | apply H2; simpl; lra]|].
  split; [split; [simpl; lra | apply H3; simpl; lra]|].
  split; [simpl; lra | apply H4; simpl; lra].
Defined.

(** X6 *)

(** X6: in dBm, the received power is the transmit power minus the path
    loss, plus (proposed model) the shadowing draw and [10 * log10] of the
    fading gain, whenever that gain is positive.  In the paper model it is
    exactly [P_tx - PL]; with fading off the gain is 1 and the fading term
    vanishes. *)
Theorem received_power_dbm {St : Type} `{NpRandom St}
  (cfg : SimulationConfig) (pcfg : PaperConfig) (p d : R) (is_d2d : bool) (s : St) :
  watts_to_dbm (fst (paper_compute_received_power pcfg p d is_d2d s)) =
    Fin (p - (if is_d2d then paper_path_loss_d2d pcfg d
              else paper_path_loss_cellular pcfg d)) /\
  (let '(sh, s1) := get_shadowing cfg s in
   let '(g, _) := get_rayleigh_fading_gain cfg s1 in
   0 < g ->
   watts_to_dbm (fst (compute_received_power cfg p d is_d2d s)) =
     Fin (p - (if is_d2d then calculate_path_loss_d2d cfg d
               else calculate_path_loss_cellular cfg d) + sh + 10 * log10 g)).
Proof.
  split.
  - simpl. apply dbm_watts_round_trip.
  - unfold compute_received_power, bind, ret.
    destruct (get_shadowing cfg s) as [sh s1].
    destruct (get_rayleigh_fading_gain cfg s1) as [g s2]. intros Hg. simpl.
    set (pl := if is_d2d then calculate_path_loss_d2d cfg d
               else calculate_path_loss_cellular cfg d).
    set (x := (p - pl + sh - 30) / 10).
    unfold watts_to_dbm, np_log10.
    assert (Hpos : 0 < pow10 x * g * 1000)
      by (pose proof (pow10_pos x); apply Rmult_lt_0_compat; [nra | lra]).
    destruct (Rlt_dec 0 (pow10 x * g * 1000)) as [_|n]; [|lra]. simpl. f_equal.
    unfold log10, pow10, Rpower.
    rewrite !ln_mult by (try apply exp_pos; try apply Rmult_lt_0_compat;
                         try apply exp_pos; lra).
    rewrite ln_exp, ln_1000. pose proof ln10_pos. unfold x. field. lra.
Qed.

Lemma received_power_dbm_witness :
  let cfg := simulation_config in
  watts_to_dbm (fst (paper_compute_received_power paper_config 23 10 true tt)) =
    Fin (23 - paper_path_loss_d2d paper_config 10) /\
  (let '(sh, s1) := get_shadowing cfg tt in
   let '(g, _) := get_rayleigh_fading_gain cfg s1 in
   0 < g /\
   watts_to_dbm (fst (compute_received_power cfg 23 10 true tt)) =
     Fin (23 - calculate_path_loss_d2d cfg 10 + sh + 10 * log10 g)).
Proof.
  intros cfg.
  pose proof (received_power_dbm cfg paper_config 23 10 true tt) as [H1 H2].
  split; [exact H1|]. simpl in H2 |- *. split; [lra|]. apply H2. lra.
Defined.

(** ** Mobility, populations and failure *)

Lemma advance_profile (dt : R) (ue : UserEquipment) :
  device_id (advance dt ue) = device_id ue /\ speed (advance dt ue) = speed ue /\
  tx_power_dbm (advance dt ue) = tx_power_dbm ue /\
  destination (advance dt ue) = destination ue.
Proof. unfold advance. destruct (Rge_dec _ _); repeat split. Qed.

Lemma move_profile (cell_radius p_start dt : R) {St : Type} `{NpRandom St}
  (ue : UserEquipment) (s : St) :
  let ue' := fst (move cell_radius p_start dt ue s) in
  device_id ue' = device_id ue /\ speed ue' = speed ue /\
  tx_power_dbm ue' = tx_power_dbm ue.
Proof.
  unfold move. destruct (is_paused ue).
  - unfold bind, ret. destruct (rand s) as [u s1].
    destruct (Rlt_dec u p_start).
    + destruct (_get_random_point_in_cell cell_radius s1) as [d s2]. simpl.
      destruct (advance_profile dt (set_destination (set_paused ue false) d)) as (A & B & C & _).
      rewrite A, B, C. repeat split.
    + repeat split.
  - simpl. destruct (advance_profile dt ue) as (A & B & C & _). repeat split; assumption.
Qed.

(** X7 *)

(** X7: [UserEquipment.move] never changes a UE's id, speed or transmit
    power.  A paused UE whose draw is at least [PROBABILITY_START_MOVING]
    stays exactly as it was, having consumed that one draw; a paused UE
    whose draw is below it heads for a fresh random point of the cell,
    drawn right after. *)
Theorem move_pause_behaviour (cell_radius p_start dt : R) {St : Type} `{NpRandom St}
  (ue : UserEquipment) (s : St) :
  let ue' := fst (move cell_radius p_start dt ue s) in
  device_id ue' = device_id ue /\ speed ue' = speed ue /\
  tx_power_dbm ue' = tx_power_dbm ue /\
  (is_paused ue = true -> p_start <= fst (rand s) ->
     move cell_radius p_start dt ue s = (ue, snd (rand s))) /\
  (is_paused ue = true -> fst (rand s) < p_start ->
     destination ue' = fst (_get_random_point_in_cell cell_radius (snd (rand s)))).
Proof.
  intros ue'. destruct (move_profile cell_radius p_start dt ue s) as (A & B & C).
  split; [exact A|]. split; [exact B|]. split; [exact C|]. subst ue'.
  unfold move. split; intros Hp; rewrite Hp; unfold bind, ret;
    destruct (rand s) as [u s1]; simpl; intros Hu.
  - destruct (Rlt_dec u p_start); [lra | reflexivity].
  - destruct (Rlt_dec u p_start); [|lra].
    destruct (_get_random_point_in_cell cell_radius s1) as [d s2]. simpl.
    destruct (advance_profile dt (set_destination (set_paused ue false) d)) as (_ & _ & _ & D).
    rewrite D. reflexivity.
Qed.

Lemma move_pause_behaviour_witness :
  let ue := mkUE "Int_0" (mkVec2 0 0) (mkVec2 0 0) true 3 23 in
  let ue' := fst (move 500 (1/10) 1 ue [1/2]) in
  device_id ue' = device_id ue /\ speed ue' = speed ue /\
  tx_power_dbm ue' = tx_power_dbm ue /\
  (is_paused ue = true /\ 1/10 <= fst (rand [1/2]) /\
     move 500 (1/10) 1 ue [1/2] = (ue, snd (rand [1/2]))) /\
  (is_paused ue = true -> fst (rand [1/2]) < 1/10 ->
     destination ue' = fst (_get_random_point_in_cell 500 (snd (rand [1/2])))).
Proof.
  intros ue ue'.
  pose proof (move_pause_behaviour 500 (1/10) 1 ue [1/2]) as (A & B & C & D & E).
  assert (Hr : 1/10 <= fst (rand [1/2])).
  { simpl. unfold unit_clamp. destruct (Rle_dec 0 (1/2)); [|lra].
    destruct (Rlt_dec (1/2) 1); lra. }
  split; [exact A|]. split; [exact B|]. split; [exact C|].
  split; [split; [reflexivity | split; [exact Hr | apply D; [reflexivity | exact Hr]]]|].
  exact E.
Defined.

Section Population.
Context {St : Type}.
Variable ue_step : UserEquipment -> M St UserEquipment.
Hypothesis ue_step_profile : forall ue s,
  device_id (fst (ue_step ue s)) = device_id ue /\ speed (fst (ue_step ue s)) = speed ue /\
  tx_power_dbm (fst (ue_step ue s)) = tx_power_dbm ue.

Lemma move_each_profile (ues : list UserEquipment) (s : St) :
  map (fun u => (device_id u, speed u, tx_power_dbm u)) (fst (move_each ue_step ues s)) =
  map (fun u => (device_id u, speed u, tx_power_dbm u)) ues.
Proof.
  revert s. induction ues as [|u us IH]; intros s; [reflexivity|]. simpl.
  unfold bind, ret. pose proof (ue_step_profile u s) as (A & B & C).
  destruct (ue_step u s) as [u' s1]. simpl in A, B, C.
  specialize (IH s1). destruct (move_each ue_step us s1) as [us' s2]. simpl in *.
  rewrite A, B, C, IH. reflexivity.
Qed.

Lemma step_profile (received_power : R -> R -> bool -> M St R)
  (rho noise_watts bandwidth_hz : R) (env : Env) (s : St)
  (rec : StepRecord) (env' : Env) (s' : St) :
  step ue_step received_power rho noise_watts bandwidth_hz env s = (Some (rec, env'), s') ->
  bs env' = bs env /\
  option_map (fun u => (device_id u, speed u, tx_power_dbm u)) (d2d_tx env') =
    option_map (fun u => (device_id u, speed u, tx_power_dbm u)) (d2d_tx env) /\
  option_map (fun u => (device_id u, speed u, tx_power_dbm u)) (d2d_rx env') =
    option_map (fun u => (device_id u, speed u, tx_power_dbm u)) (d2d_rx env) /\
  map (fun u => (device_id u, speed u, tx_power_dbm u)) (interferers env') =
    map (fun u => (device_id u, speed u, tx_power_dbm u)) (interferers env).
Proof.
  intros Hs. apply step_inv in Hs.
  destruct Hs as (tx & rx & tx' & rx' & ints' & a & b & i & s1 & s2 & s3 & s4 & s5 &
                  Etx & Erx & E1 & E2 & E3 & _ & _ & _ & He & _).
  subst env'. simpl. rewrite Etx, Erx. simpl.
  pose proof (ue_step_profile tx s) as (A1 & B1 & C1). rewrite E1 in A1, B1, C1.
  pose proof (ue_step_profile rx s1) as (A2 & B2 & C2). rewrite E2 in A2, B2, C2.
  pose proof (move_each_profile (interferers env) s2) as Hm. rewrite E3 in Hm.
  simpl in *. rewrite A1, B1, C1, A2, B2, C2, Hm. repeat split.
Qed.

End Population.

(** X8 *)

(** X8: [step()] keeps the population of the environment: the base
    station is unchanged, and the transmitter, the receiver and the
    interferers (in order) keep their ids, speeds and transmit powers, in
    both configurations. *)
Theorem step_keeps_population {St : Type} `{NpRandom St}
  (cfg : SimulationConfig) (pcfg : PaperConfig) :
  (forall env s rec env' s',
     env_step cfg env s = (Some (rec, env'), s') ->
     bs env' = bs env /\
     option_map (fun u => (device_id u, speed u, tx_power_dbm u)) (d2d_tx env') =
       option_map (fun u => (device_id u, speed u, tx_power_dbm u)) (d2d_tx env) /\
     option_map (fun u => (device_id u, speed u, tx_power_dbm u)) (d2d_rx env') =
       option_map (fun u => (device_id u, speed u, tx_power_dbm u)) (d2d_rx env) /\
     map (fun u => (device_id u, speed u, tx_power_dbm u)) (interferers env') =
       map (fun u => (device_id u, speed u, tx_power_dbm u)) (interferers env)) /\
  (forall env s rec env' s',
     paper_env_step pcfg env s = (Some (rec, env'), s') ->
     bs env' = bs env /\
     option_map (fun u => (device_id u, speed u, tx_power_dbm u)) (d2d_tx env') =
       option_map (fun u => (device_id u, speed u, tx_power_dbm u)) (d2d_tx env) /\
     option_map (fun u => (device_id u, speed u, tx_power_dbm u)) (d2d_rx env') =
       option_map (fun u => (device_id u, speed u, tx_power_dbm u)) (d2d_rx env) /\
     map (fun u => (device_id u, speed u, tx_power_dbm u)) (interferers env') =
       map (fun u => (device_id u, speed u, tx_power_dbm u)) (interferers env)).
Proof.
  split; intros env s rec env' s'; apply step_profile; intros ue s0; apply move_profile.
Qed.

Lemma step_keeps_population_witness :
  (exists rec env' s',
     env_step simulation_config sample_env tt = (Some (rec, env'), s') /\
     bs env' = bs sample_env /\
     option_map (fun u => (device_id u, speed u, tx_power_dbm u)) (d2d_tx env') =
       option_map (fun u => (device_id u, speed u, tx_power_dbm u)) (d2d_tx sample_env) /\
     option_map (fun u => (device_id u, speed u, tx_power_dbm u)) (d2d_rx env') =
       option_map (fun u => (device_id u, speed u, tx_power_dbm u)) (d2d_rx sample_env) /\
     map (fun u => (device_id u, speed u, tx_power_dbm u)) (interferers env') =
       map (fun u => (device_id u, speed u, tx_power_dbm u)) (interferers sample_env)) /\
  (exists rec env' s',
     paper_env_step paper_config sample_env tt = (Some (rec, env'), s') /\
     bs env' = bs sample_env /\
     option_map (fun u => (device_id u, speed u, tx_power_dbm u)) (d2d_tx env') =
       option_map (fun u => (device_id u, speed u, tx_power_dbm u)) (d2d_tx sample_env) /\
     option_map (fun u => (device_id u, speed u, tx_power_dbm u)) (d2d_rx env') =
       option_map (fun u => (device_id u, speed u, tx_power_dbm u)) (d2d_rx sample_env) /\
     map (fun u => (device_id u, speed u, tx_power_dbm u)) (interferers env') =
       map (fun u => (device_id u, speed u, tx_power_dbm u)) (interferers sample_env)).
Proof.
  split; do 3 eexists.
  - assert (Hs : env_step simulation_config sample_env tt = (Some (_, _), _))
      by (simpl; reflexivity).
    split; [exact Hs|].
    exact (proj1 (step_keeps_population simulation_config paper_config) _ _ _ _ _ Hs).
  - assert (Hs : paper_env_step paper_config sample_env tt = (Some (_, _), _))
      by (simpl; reflexivity).
    split; [exact Hs|].
    exact (proj2 (step_keeps_population simulation_config paper_config) _ _ _ _ _ Hs).
Defined.

(** X9 *)



(** ** Construction of the UEs and of an episode *)

Section Construction.
Context {St : Type} `{NpRandom St}.
Hypothesis rand_range : forall s, 0 <= fst (rand s) < 1.

Lemma new_user_equipment_facts (cfg : SimulationConfig) (id speed_type : string) (s : St) :
  let ue := fst (new_user_equipment cfg id speed_type s) in
  device_id ue = id /\ is_paused ue = false /\ tx_power_dbm ue = TX_POWER_D2D_DBM cfg /\
  (speed_type = "pedestrian" -> 1 <= speed ue <= 3) /\
  (speed_type = "vehicle" -> 3 <= speed ue <= 10) /\
  (speed_type <> "pedestrian" -> speed_type <> "vehicle" ->
     SPEED_MIN cfg <= SPEED_MAX cfg -> SPEED_MIN cfg <= speed ue <= SPEED_MAX cfg) /\
  (0 <= CELL_RADIUS_M cfg ->
     norm (position ue) <= CELL_RADIUS_M cfg /\ norm (destination ue) <= CELL_RADIUS_M cfg).
Proof.
  unfold new_user_equipment, bind, ret.
  pose proof (fun Hr => point_in_cell rand_range (CELL_RADIUS_M cfg) s Hr) as Hp.
  destruct (_get_random_point_in_cell (CELL_RADIUS_M cfg) s) as [p s1].
  pose proof (fun Hr => point_in_cell rand_range (CELL_RADIUS_M cfg) s1 Hr) as Hd.
  destruct (_get_random_point_in_cell (CELL_RADIUS_M cfg) s1) as [d s2].
  simpl in Hp, Hd.
  pose proof (uniform_between rand_range 1 3 s2) as U1.
  pose proof (uniform_between rand_range 3 10 s2) as U2.
  pose proof (uniform_between rand_range (SPEED_MIN cfg) (SPEED_MAX cfg) s2) as U3.
  destruct (String.eqb speed_type "pedestrian") eqn:Ep;
    [|destruct (String.eqb speed_type "vehicle") eqn:Ev].
  - apply String.eqb_eq in Ep. subst speed_type.
    destruct (uniform 1 3 s2) as [v s3]. simpl in *.
    repeat split; try (intros; discriminate); try lra; try apply Hp; try apply Hd;
      try assumption; intros; congruence.
  - apply String.eqb_eq in Ev. subst speed_type.
    destruct (uniform 3 10 s2) as [v s3]. simpl in *.
    repeat split; try (intros; discriminate); try lra; try apply Hp; try apply Hd;
      try assumption; intros; congruence.
  - apply String.eqb_neq in Ep. apply String.eqb_neq in Ev.
    destruct (uniform (SPEED_MIN cfg) (SPEED_MAX cfg) s2) as [v s3]. simpl in *.
    repeat split; try (intros; congruence); try apply Hp; try apply Hd;
      try assumption; intros; apply U3; assumption.
Qed.


Lemma paper_user_equipment_facts (pcfg : PaperConfig) (id : string) (s : St) :
  let ue := fst (paper_user_equipment pcfg id s) in
  device_id ue = id /\ speed ue = P_SPEED pcfg /\ is_paused ue = false /\
  tx_power_dbm ue = P_TX_POWER_D2D_DBM pcfg.
Proof.
  unfold paper_user_equipment, bind, ret.
  destruct (_get_random_point_in_cell _ s) as [p s1].
  destruct (_get_random_point_in_cell _ s1) as [d s2]. repeat split.
Qed.


End Construction.

(** X10 *)

(** X10: [UserEquipment.__init__] names the UE as asked, starts it moving
    (not paused) at the D2D transmit power, draws its position and its
    destination in the cell, and draws its speed in [1, 3] m/s for
    'pedestrian', in [3, 10] m/s for 'vehicle' and in
    [SPEED_MIN, SPEED_MAX] for any other speed type. *)
Theorem new_user_equipment_profile {St : Type} `{NpRandom St}
  (rand_range : forall s, 0 <= fst (rand s) < 1)
  (cfg : SimulationConfig) (id speed_type : string) (s : St) :
  let ue := fst (new_user_equipment cfg id speed_type s) in
  device_id ue = id /\ is_paused ue = false /\ tx_power_dbm ue = TX_POWER_D2D_DBM cfg /\
  (speed_type = "pedestrian" -> 1 <= speed ue <= 3) /\
  (speed_type = "vehicle" -> 3 <= speed ue <= 10) /\
  (speed_type <> "pedestrian" -> speed_type <> "vehicle" ->
     SPEED_MIN cfg <= SPEED_MAX cfg -> SPEED_MIN cfg <= speed ue <= SPEED_MAX cfg) /\
  (0 <= CELL_RADIUS_M cfg ->
     norm (position ue) <= CELL_RADIUS_M cfg /\ norm (destination ue) <= CELL_RADIUS_M cfg).
Proof. exact (new_user_equipment_facts rand_range cfg id speed_type s). Qed.

Lemma new_user_equipment_profile_witness :
  (forall s : list R, 0 <= fst (rand s) < 1) /\
  let ue := fst (new_user_equipment simulation_config "Target_Tx" "mixed" [1/4; 1/2; 1/2]) in
  device_id ue = "Target_Tx" /\ is_paused ue = false /\
  tx_power_dbm ue = TX_POWER_D2D_DBM simulation_config /\
  ("mixed" = "pedestrian" -> 1 <= speed ue <= 3) /\
  ("mixed" = "vehicle" -> 3 <= speed ue <= 10) /\
  ("mixed" <> "pedestrian" /\ "mixed" <> "vehicle" /\
   SPEED_MIN simulation_config <= SPEED_MAX simulation_config /\
   SPEED_MIN simulation_config <= speed ue <= SPEED_MAX simulation_config) /\
  (0 <= CELL_RADIUS_M simulation_config /\
   norm (position ue) <= CELL_RADIUS_M simulation_config /\
   norm (destination ue) <= CELL_RADIUS_M simulation_config).
Proof.
  split; [exact tape_rand_range|]. intros ue.
  pose proof (new_user_equipment_profile tape_rand_range simulation_config "Target_Tx" "mixed"
                [1/4; 1/2; 1/2]) as (A & B & C & D & E & F & G).
  assert (N1 : "mixed" <> "pedestrian") by discriminate.
  assert (N2 : "mixed" <> "vehicle") by discriminate.
  assert (Hs : SPEED_MIN simulation_config <= SPEED_MAX simulation_config) by (simpl; lra).
  assert (Hr : 0 <= CELL_RADIUS_M simulation_config) by (simpl; lra).
  split; [exact A|]. split; [exact B|]. split; [exact C|]. split; [exact D|].
  split; [exact E|].
  split; [split; [exact N1 | split; [exact N2 | split; [exact Hs | exact (F N1 N2 Hs)]]]|].
  split; [exact Hr | exact (G Hr)].
Defined.

(** X11 *)




(** ** The dataset loops *)

Section StepSome.
Context {St : Type}.
Variable ue_step : UserEquipment -> M St UserEquipment.
Variable received_power : R -> R -> bool -> M St R.
Variables (rho noise_watts bandwidth_hz : R).

Lemma step_some (env : Env) (s : St) (tx rx : UserEquipment) :
  d2d_tx env = Some tx -> d2d_rx env = Some rx ->
  exists rec env' s',
    step ue_step received_power rho noise_watts bandwidth_hz env s = (Some (rec, env'), s').
Proof.
  intros Etx Erx. unfold step. rewrite Etx, Erx. unfold bind, ret.
  split_pairs. do 3 eexists. reflexivity.
Qed.

End StepSome.

Section DatasetShape.
Context {St : Type}.
Variable env_reset : Env -> M St Env.
Variable env_step : Env -> M St (option (StepRecord * Env)).
Variables (Base Inv : Env -> Prop) (RecP : StepRecord -> Prop).
Hypothesis reset_ok : forall env s, Base env ->
  Inv (fst (env_reset env s)) /\ time_step (fst (env_reset env s)) = 0%nat.
Hypothesis inv_base : forall env, Inv env -> Base env.
Hypothesis step_ok : forall env s, Inv env ->
  exists rec env' s', env_step env s = (Some (rec, env'), s') /\
    Inv env' /\ RecP rec /\ timestamp rec = S (time_step env) /\
    time_step env' = S (time_step env).

Lemma run_episode_ok (episode n : nat) (env : Env) (s : St) : Inv env ->
  exists recs env' s', run_episode env_step episode n env s = (Some (recs, env'), s') /\
    Inv env' /\ List.length recs = n /\
    (forall t, (t < n)%nat -> exists r, RecP r /\ timestamp r = (time_step env + S t)%nat /\
       nth_error recs t = Some (set_episode_id r (Z.of_nat episode))).
Proof.
  revert env s. induction n as [|n IH]; intros env s Hi.
  - exists [], env, s. split; [reflexivity|]. split; [exact Hi|].
    split; [reflexivity|]. intros t Ht. lia.
  - destruct (step_ok env s Hi) as (rec & env' & s' & Hs & Hi' & Hr & Ht & Ht').
    destruct (IH env' s' Hi') as (recs & env'' & s'' & Hrun & Hi'' & Hl & Hn).
    simpl. unfold bind, ret. rewrite Hs, Hrun.
    exists (set_episode_id rec (Z.of_nat episode) :: recs), env'', s''.
    split; [reflexivity|]. split; [exact Hi''|]. split; [simpl; lia|].
    intros [|t] Hlt.
    + exists rec. split; [exact Hr|]. split; [lia | reflexivity].
    + destruct (Hn t ltac:(lia)) as (r & Hr1 & Hr2 & Hr3). exists r.
      split; [exact Hr1|]. split; [lia | exact Hr3].
Qed.

Lemma run_episodes_ok (steps k episode : nat) (env : Env) (s : St) : Base env ->
  exists recs env' s',
    run_episodes env_reset env_step steps k episode env s = (Some (recs, env'), s') /\
    Base env' /\ List.length recs = (k * steps)%nat /\
    Forall (fun r => exists r0 e, RecP r0 /\ r = set_episode_id r0 e) recs /\
    (forall e t, (e < k)%nat -> (t < steps)%nat -> exists r, RecP r /\ timestamp r = S t /\
       nth_error recs (e * steps + t) = Some (set_episode_id r (Z.of_nat (episode + e)))).
Proof.
  revert episode env s. induction k as [|k IH]; intros episode env s Hb.
  - exists [], env, s. split; [reflexivity|]. split; [exact Hb|].
    split; [reflexivity|]. split; [constructor|]. intros e t He. lia.
  - simpl. unfold bind, ret.
    pose proof (reset_ok env s Hb) as [Hi1 Ht1].
    destruct (env_reset env s) as [env1 s1]. simpl in Hi1, Ht1.
    destruct (run_episode_ok episode steps env1 s1 Hi1)
      as (recs & env2 & s2 & Hrun & Hi2 & Hl & Hn).
    rewrite Hrun.
    destruct (IH (S episode) env2 s2 (inv_base env2 Hi2))
      as (recs' & env3 & s3 & Hrun' & Hb3 & Hl' & Hall' & Hn').
    rewrite Hrun'. exists (app recs recs'), env3, s3.
    split; [reflexivity|]. split; [exact Hb3|].
    split; [rewrite length_app; lia|].
    split.
    + apply Forall_app. split; [|exact Hall'].
      apply Forall_forall. intros r Hin.
      destruct (In_nth_error _ _ Hin) as [t Ht].
      assert (Hlt : (t < steps)%nat) by (rewrite <- Hl; apply nth_error_Some; congruence).
      destruct (Hn t Hlt) as (r0 & Hr0 & _ & Hr0'). rewrite Ht in Hr0'.
      injection Hr0' as ->. exists r0, (Z.of_nat episode). split; [exact Hr0 | reflexivity].
    + intros [|e] t He Hts.
      * destruct (Hn t Hts) as (r & Hr1 & Hr2 & Hr3). exists r.
        split; [exact Hr1|]. split; [rewrite Hr2, Ht1; reflexivity|].
        rewrite nth_error_app1 by lia. rewrite Nat.add_0_r. exact Hr3.
      * destruct (Hn' e t ltac:(lia) Hts) as (r & Hr1 & Hr2 & Hr3). exists r.
        split; [exact Hr1|]. split; [exact Hr2|].
        rewrite nth_error_app2 by (simpl; lia).
        replace (S e * steps + t - List.length recs)%nat with (e * steps + t)%nat
          by (simpl; lia).
        rewrite Hr3. do 3 f_equal. lia.
Qed.

End DatasetShape.

Lemma new_user_equipment_power {St : Type} `{NpRandom St}
  (cfg : SimulationConfig) (id speed_type : string) (s : St) :
  tx_power_dbm (fst (new_user_equipment cfg id speed_type s)) = TX_POWER_D2D_DBM cfg.
Proof.
  unfold new_user_equipment, bind, ret. split_pairs.
  destruct (String.eqb speed_type "pedestrian");
    [|destruct (String.eqb speed_type "vehicle")]; split_pairs; reflexivity.
Qed.

Section DatasetInstances.
Context {St : Type} `{NpRandom St}.

Lemma proposed_reset_ok (cfg : SimulationConfig) (env : Env) (s : St) :
  proposed_base cfg env ->
  proposed_inv cfg (fst (reset cfg env s)) /\ time_step (fst (reset cfg env s)) = 0%nat.
Proof.
  intros Hb. unfold reset, bind, ret.
  pose proof (new_user_equipment_power cfg "Target_Tx" "mixed" s) as P1.
  destruct (new_user_equipment cfg "Target_Tx" "mixed" s) as [tx s1]. simpl in P1.
  split_pairs. split; [|reflexivity]. split; [exact Hb|].
  do 2 eexists. split; [reflexivity|]. split; [reflexivity | exact P1].
Qed.

Lemma proposed_step_ok (cfg : SimulationConfig) (env : Env) (s : St) :
  proposed_inv cfg env ->
  exists rec env' s', env_step cfg env s = (Some (rec, env'), s') /\
    proposed_inv cfg env' /\ proposed_row cfg rec /\ timestamp rec = S (time_step env) /\
    time_step env' = S (time_step env).
Proof.
  intros [Hb (tx0 & rx0 & Etx0 & Erx0 & Hp0)].
  destruct (step_some (ue_move cfg) (compute_received_power cfg)
              (INTERFERENCE_LOAD_FACTOR cfg) (get_noise_power_watts cfg) (BANDWIDTH_HZ cfg)
              env s tx0 rx0 Etx0 Erx0) as (rec & env' & s' & Hs).
  exists rec, env', s'. split; [exact Hs|].
  apply step_inv in Hs.
  destruct Hs as (tx & rx & tx' & rx' & ints' & a & b & i & s1 & s2 & s3 & s4 & s5 &
                  Etx & Erx & E1 & E2 & E3 & E4 & E5 & E6 & He & Ht & Hep & Hts & Hrs &
                  Hpd2d & Hpbs & Hprd & Hprc & Hint & Hn & Hsd & Hsc & Htd & Htc & Hmode).
  rewrite Etx0 in Etx. injection Etx as <-.
  pose proof (move_profile (CELL_RADIUS_M cfg) (PROBABILITY_START_MOVING cfg)
                (TIME_STEP_S cfg) tx0 s) as (_ & _ & Pw).
  unfold ue_move in E1. rewrite E1 in Pw. simpl in Pw.
  subst env'. split; [|split; [|split; [exact Ht | reflexivity]]].
  - split; [exact Hb|]. exists tx', rx'. split; [reflexivity|]. split; [reflexivity|].
    rewrite Pw. exact Hp0.
  - unfold proposed_row. rewrite Hpd2d, Hpbs, Hn, Pw.
    split; [exact Hp0|]. split; [exact Hb|]. apply dbm_watts_round_trip.
Qed.

Lemma paper_reset_ok (pcfg : PaperConfig) (env : Env) (s : St) :
  paper_base pcfg env ->
  paper_inv pcfg (fst (paper_reset pcfg env s)) /\
  time_step (fst (paper_reset pcfg env s)) = 0%nat.
Proof.
  intros Hb. unfold paper_reset, bind, ret.
  pose proof (paper_user_equipment_facts pcfg "Target_Tx" s) as (_ & _ & _ & P1).
  destruct (paper_user_equipment pcfg "Target_Tx" s) as [tx s1]. simpl in P1.
  split_pairs. split; [|reflexivity]. split; [exact Hb|].
  do 2 eexists. split; [reflexivity|]. split; [reflexivity | exact P1].
Qed.

Lemma paper_step_ok (pcfg : PaperConfig) (env : Env) (s : St) :
  paper_inv pcfg env ->
  exists rec env' s', paper_env_step pcfg env s = (Some (rec, env'), s') /\
    paper_inv pcfg env' /\ paper_row pcfg rec /\ timestamp rec = S (time_step env) /\
    time_step env' = S (time_step env).
Proof.
  intros [Hb (tx0 & rx0 & Etx0 & Erx0 & Hp0)].
  destruct (step_some (paper_move pcfg) (paper_compute_received_power pcfg)
              (P_INTERFERENCE_LOAD_FACTOR pcfg) (paper_noise_power_watts pcfg)
              (P_BANDWIDTH_HZ pcfg) env s tx0 rx0 Etx0 Erx0) as (rec & env' & s' & Hs).
  exists rec, env', s'. split; [exact Hs|].
  apply step_inv in Hs.
  destruct Hs as (tx & rx & tx' & rx' & ints' & a & b & i & s1 & s2 & s3 & s4 & s5 &
                  Etx & Erx & E1 & E2 & E3 & E4 & E5 & E6 & He & Ht & Hep & Hts & Hrs &
                  Hpd2d & Hpbs & Hprd & Hprc & Hint & Hn & Hsd & Hsc & Htd & Htc & Hmode).
  rewrite Etx0 in Etx. injection Etx as <-.
  pose proof (move_profile (P_CELL_RADIUS_M pcfg) (P_PROBABILITY_START_MOVING pcfg)
                (P_TIME_STEP_S pcfg) tx0 s) as (_ & _ & Pw).
  unfold paper_move in E1. rewrite E1 in Pw. simpl in Pw.
  subst env'. split; [|split; [|split; [exact Ht | reflexivity]]].
  - split; [exact Hb|]. exists tx', rx'. split; [reflexivity|]. split; [reflexivity|].
    rewrite Pw. exact Hp0.
  - unfold paper_row. rewrite Hpd2d, Hpbs, Hn, Pw.
    split; [exact Hp0|]. split; [exact Hb|]. apply dbm_watts_round_trip.
Qed.

Lemma generate_dataset_ok (cfg : SimulationConfig) (s : St) :
  exists recs, fst (generate_dataset cfg s) = Some recs /\
    List.length recs = (NUM_EPISODES * STEPS_PER_EPISODE)%nat /\
    Forall (fun r => exists r0 e, proposed_row cfg r0 /\ r = set_episode_id r0 e) recs /\
    (forall e t, (e < NUM_EPISODES)%nat -> (t < STEPS_PER_EPISODE)%nat ->
       exists r, proposed_row cfg r /\ timestamp r = S t /\
       nth_error recs (e * STEPS_PER_EPISODE + t) = Some (set_episode_id r (Z.of_nat e))).
Proof.
  unfold generate_dataset, bind, ret.
  pose proof (proposed_reset_ok cfg (mkEnv (new_base_station cfg) None None [] 0) s
                eq_refl) as [Hi _].
  unfold new_environment. destruct (reset cfg _ s) as [env s1]. simpl in Hi.
  destruct (run_episodes_ok (reset cfg) (env_step cfg) (proposed_base cfg)
              (proposed_inv cfg) (proposed_row cfg) (proposed_reset_ok cfg)
              (fun env H => proj1 H) (proposed_step_ok cfg)
              STEPS_PER_EPISODE NUM_EPISODES 0 env s1 (proj1 Hi))
    as (recs & env' & s' & Hrun & _ & Hl & Hall & Hn).
  rewrite Hrun. exists recs. split; [reflexivity|]. split; [exact Hl|].
  split; [exact Hall|]. exact Hn.
Qed.

Lemma generate_paper_dataset_ok (pcfg : PaperConfig) (s : St) :
  exists recs, fst (generate_paper_dataset pcfg s) = Some recs /\
    List.length recs = (P_NUM_EPISODES * P_STEPS_PER_EPISODE)%nat /\
    Forall (fun r => exists r0 e, paper_row pcfg r0 /\ r = set_episode_id r0 e) recs /\
    (forall e t, (e < P_NUM_EPISODES)%nat -> (t < P_STEPS_PER_EPISODE)%nat ->
       exists r, paper_row pcfg r /\ timestamp r = S t /\
       nth_error recs (e * P_STEPS_PER_EPISODE + t) = Some (set_episode_id r (Z.of_nat e))).
Proof.
  unfold generate_paper_dataset, bind, ret.
  pose proof (paper_reset_ok pcfg (mkEnv (paper_base_station pcfg) None None [] 0) s
                eq_refl) as [Hi _].
  unfold paper_new_environment. destruct (paper_reset pcfg _ s) as [env s1]. simpl in Hi.
  destruct (run_episodes_ok (paper_reset pcfg) (paper_env_step pcfg) (paper_base pcfg)
              (paper_inv pcfg) (paper_row pcfg) (paper_reset_ok pcfg)
              (fun env H => proj1 H) (paper_step_ok pcfg)
              P_STEPS_PER_EPISODE P_NUM_EPISODES 0 env s1 (proj1 Hi))
    as (recs & env' & s' & Hrun & _ & Hl & Hall & Hn).
  rewrite Hrun. exists recs. split; [reflexivity|]. split; [exact Hl|].
  split; [exact Hall|]. exact Hn.
Qed.

End DatasetInstances.

(** X12 *)

(** X12: [generate_dataset()] and [generate_paper_dataset()] never stop
    early: they produce NUM_EPISODES * STEPS_PER_EPISODE rows (50 * 100 for
    the proposed simulator, 100 * 300 for the paper one), episode after
    episode, so that row [e * STEPS_PER_EPISODE + t] has [episode_id] [e] and
    [timestamp] [t + 1] (the step counter restarts at each [reset()]). *)
Theorem generate_dataset_layout {St : Type} `{NpRandom St}
  (cfg : SimulationConfig) (pcfg : PaperConfig) (s : St) :
  (exists recs, fst (generate_dataset cfg s) = Some recs /\
     List.length recs = (NUM_EPISODES * STEPS_PER_EPISODE)%nat /\
     forall e t, (e < NUM_EPISODES)%nat -> (t < STEPS_PER_EPISODE)%nat ->
       exists r, nth_error recs (e * STEPS_PER_EPISODE + t) = Some r /\
         episode_id r = Z.of_nat e /\ timestamp r = S t) /\
  (exists recs, fst (generate_paper_dataset pcfg s) = Some recs /\
     List.length recs = (P_NUM_EPISODES * P_STEPS_PER_EPISODE)%nat /\
     forall e t, (e < P_NUM_EPISODES)%nat -> (t < P_STEPS_PER_EPISODE)%nat ->
       exists r, nth_error recs (e * P_STEPS_PER_EPISODE + t) = Some r /\
         episode_id r = Z.of_nat e /\ timestamp r = S t).
Proof.
  split.
  - destruct (generate_dataset_ok cfg s) as (recs & Hg & Hl & _ & Hn).
    exists recs. split; [exact Hg|]. split; [exact Hl|]. intros e t He Ht.
    destruct (Hn e t He Ht) as (r & _ & Hts & Hr). eexists. split; [exact Hr|].
    split; reflexivity || exact Hts.
  - destruct (generate_paper_dataset_ok pcfg s) as (recs & Hg & Hl & _ & Hn).
    exists recs. split; [exact Hg|]. split; [exact Hl|]. intros e t He Ht.
    destruct (Hn e t He Ht) as (r & _ & Hts & Hr). eexists. split; [exact Hr|].
    split; reflexivity || exact Hts.
Qed.

(** X13 *)

(** X13: in every row of either generated dataset the D2D transmit power,
    the base-station transmit power and the noise level are the configured
    constants [TX_POWER_D2D_DBM], [TX_POWER_BS_DBM] and [NOISE_POWER_DBM]:
    the UEs keep the power [reset()] gave them and the base station is never
    replaced. *)
Theorem generate_dataset_constant_columns {St : Type} `{NpRandom St}
  (cfg : SimulationConfig) (pcfg : PaperConfig) (s : St) :
  (exists recs, fst (generate_dataset cfg s) = Some recs /\
     Forall (fun r => tx_power_d2d_dbm r = TX_POWER_D2D_DBM cfg /\
                      tx_power_bs_dbm r = TX_POWER_BS_DBM cfg /\
                      noise_dbm r = Fin (NOISE_POWER_DBM cfg)) recs) /\
  (exists recs, fst (generate_paper_dataset pcfg s) = Some recs /\
     Forall (fun r => tx_power_d2d_dbm r = P_TX_POWER_D2D_DBM pcfg /\
                      tx_power_bs_dbm r = P_TX_POWER_BS_DBM pcfg /\
                      noise_dbm r = Fin (P_NOISE_POWER_DBM pcfg)) recs).
Proof.
  split.
  - destruct (generate_dataset_ok cfg s) as (recs & Hg & _ & Hall & _).
    exists recs. split; [exact Hg|]. revert Hall. apply Forall_impl.
    intros r (r0 & e & Hr0 & ->). exact Hr0.
  - destruct (generate_paper_dataset_ok pcfg s) as (recs & Hg & _ & Hall & _).
    exists recs. split; [exact Hg|]. revert Hall. apply Forall_impl.
    intros r (r0 & e & Hr0 & ->). exact Hr0.
Qed.

(** ** Preprocessing of the generated rows *)

Lemma insert_sorted_length (r : StepRecord) (rows : list StepRecord) :
  List.length (insert_sorted r rows) = S (List.length rows).
Proof.
  induction rows as [|q rest IH]; [reflexivity|]. simpl.
  destruct (key_lt q r); simpl; [rewrite IH|]; reflexivity.
Qed.

Lemma sort_values_length (rows : list StepRecord) :
  List.length (sort_values rows) = List.length rows.
Proof.
  induction rows as [|r rest IH]; [reflexivity|]. simpl.
  rewrite insert_sorted_length, IH. reflexivity.
Qed.

Lemma key_lt_asym (a b : StepRecord) : key_lt a b = true -> key_lt b a = false.
Proof.
  unfold key_lt. intros Hab.
  apply Bool.orb_true_iff in Hab. apply Bool.orb_false_iff.
  destruct Hab as [Hlt | Heq].
  - apply Z.ltb_lt in Hlt. split; [apply Z.ltb_ge; lia|].
    apply Bool.andb_false_iff. left. apply Z.eqb_neq. lia.
  - apply Bool.andb_true_iff in Heq. destruct Heq as [He Ht].
    apply Z.eqb_eq in He. apply Nat.ltb_lt in Ht.
    split; [apply Z.ltb_ge; lia|].
    apply Bool.andb_false_iff. right. apply Nat.ltb_ge. lia.
Qed.

Lemma sort_values_sorted_id (rows : list StepRecord) :
  Sorted (fun a b => key_lt a b = true) rows -> sort_values rows = rows.
Proof.
  induction rows as [|r rest IH]; intros Hs; [reflexivity|].
  inversion Hs as [|? ? Hs' Hhd]; subst. simpl. rewrite (IH Hs').
  destruct rest as [|q rest']; [reflexivity|]. simpl.
  inversion Hhd as [|? ? Hrq]; subst. rewrite (key_lt_asym r q Hrq). reflexivity.
Qed.

Lemma sorted_of_nth {A : Type} (P : A -> A -> Prop) (l : list A) :
  (forall i a b, nth_error l i = Some a -> nth_error l (S i) = Some b -> P a b) ->
  Sorted P l.
Proof.
  induction l as [|a rest IH]; intros Hn; [constructor|].
  constructor.
  - apply IH. intros i x y Hx Hy. exact (Hn (S i) x y Hx Hy).
  - destruct rest as [|b rest']; constructor. exact (Hn 0%nat a b eq_refl eq_refl).
Qed.

Lemma episode_layout_nth (K n : nat) (recs : list StepRecord) (j : nat) (r : StepRecord) :
  episode_layout K n recs -> nth_error recs j = Some r ->
  exists e t, j = (e * n + t)%nat /\ (e < K)%nat /\ (t < n)%nat /\
    episode_id r = Z.of_nat e /\ timestamp r = S t.
Proof.
  intros [Hl Hn] Hj.
  assert (Hlt : (j < K * n)%nat) by (rewrite <- Hl; apply nth_error_Some; congruence).
  assert (Hn0 : n <> 0%nat) by (intros ->; lia).
  pose proof (Nat.div_mod_eq j n) as Hd. pose proof (Nat.mod_upper_bound j n Hn0) as Hm.
  set (e := (j / n)%nat) in *. set (t := (j mod n)%nat) in *.
  assert (He : (e < K)%nat) by nia.
  destruct (Hn e t He Hm) as (r' & Hr' & Hep & Hts).
  replace (e * n + t)%nat with j in Hr' by lia. rewrite Hj in Hr'. injection Hr' as <-.
  exists e, t. repeat split; try assumption. lia.
Qed.

Lemma episode_layout_sorted (K n : nat) (recs : list StepRecord) :
  episode_layout K n recs -> Sorted (fun a b => key_lt a b = true) recs.
Proof.
  intros HL. apply sorted_of_nth. intros i a b Ha Hb.
  destruct (episode_layout_nth K n recs i a HL Ha) as (e & t & Hi & He & Ht & Hea & Hta).
  destruct (episode_layout_nth K n recs (S i) b HL Hb) as (e' & t' & Hi' & He' & Ht' & Heb & Htb).
  unfold key_lt. rewrite Hea, Hta, Heb, Htb.
  assert (Hc : e' = e /\ t' = S t \/ e' = S e /\ t' = 0%nat).
  { destruct (lt_eq_lt_dec e' e) as [[Hl | ->] | Hl].
    - exfalso. nia.
    - left. split; [reflexivity | lia].
    - destruct (Nat.eq_dec e' (S e)) as [-> | Hne]; [right; split; [reflexivity | nia]|].
      exfalso. nia. }
  destruct Hc as [[-> ->] | [-> ->]].
  - apply Bool.orb_true_iff. right. apply Bool.andb_true_iff.
    split; [apply Z.eqb_refl | apply Nat.ltb_lt; lia].
  - apply Bool.orb_true_iff. left. apply Z.ltb_lt. lia.
Qed.

Lemma chunks_length {A : Type} (b k : nat) (xs : list A) :
  List.length (chunks b k xs) = k.
Proof. revert xs. induction k as [|k IH]; intros xs; simpl; [|rewrite IH]; reflexivity. Qed.

Lemma chunks_nth {A : Type} (b k e : nat) (xs : list A) :
  (e < k)%nat -> nth_error (chunks b k xs) e = Some (firstn b (skipn (e * b) xs)).
Proof.
  revert k xs. induction e as [|e IH]; intros [|k] xs Hlt; try lia; [reflexivity|].
  simpl. rewrite (IH k (skipn b xs)) by lia. rewrite skipn_skipn.
  do 3 f_equal. lia.
Qed.

Lemma chunk_cell {A : Type} (b e t : nat) (xs : list A) :
  (t < b)%nat -> nth_error (firstn b (skipn (e * b) xs)) t = nth_error xs (e * b + t).
Proof.
  intros Ht. rewrite nth_error_firstn.
  destruct (Nat.ltb_spec t b); [|lia]. apply nth_error_skipn.
Qed.

Lemma preprocess_labels_none_iff (df : list StepRecord) :
  preprocess_labels df = None <-> List.length df <> (NUM_EPISODES * STEPS_PER_EPISODE)%nat.
Proof.
  unfold preprocess_labels, reshape. rewrite length_map, sort_values_length.
  destruct (Nat.eqb_spec (List.length df) (NUM_EPISODES * STEPS_PER_EPISODE)) as [E | E];
    split; intros H; try discriminate; try reflexivity; first [exact E | exfalso; exact (H E)].
Qed.

(** [df.groupby(key)[col].shift(lag)] row by row. *)
Lemma combine_seq_nth {A : Type} (l : list A) (k i : nat) :
  nth_error (combine (seq k (List.length l)) l) i =
    option_map (fun x => ((k + i)%nat, x)) (nth_error l i).
Proof.
  revert k i. induction l as [|x l IH]; intros k [|i]; simpl; try reflexivity.
  - rewrite Nat.add_0_r. reflexivity.
  - rewrite IH. rewrite Nat.add_succ_r. reflexivity.
Qed.

Lemma filter_all_false {A : Type} (f : A -> bool) (l : list A) :
  (forall x, In x l -> f x = false) -> filter f l = [].
Proof.
  induction l as [|x l IH]; intros H; [reflexivity|]. simpl.
  rewrite (H x (or_introl eq_refl)). apply IH. intros y Hy. apply H. right. exact Hy.
Qed.

Lemma filter_all_true {A : Type} (f : A -> bool) (l : list A) :
  (forall x, In x l -> f x = true) -> filter f l = l.
Proof.
  induction l as [|x l IH]; intros H; [reflexivity|]. simpl.
  rewrite (H x (or_introl eq_refl)). f_equal. apply IH. intros y Hy. apply H. right. exact Hy.
Qed.

Section GroupShiftLayout.
Context {A : Type}.
Variables (K n : nat) (rows : list (Z * A)).
Hypothesis rows_len : List.length rows = (K * n)%nat.
Hypothesis rows_key : forall e t x, (e < K)%nat -> (t < n)%nat ->
  nth_error rows (e * n + t) = Some x -> fst x = Z.of_nat e.

Lemma rows_key_any (j : nat) (x : Z * A) : nth_error rows j = Some x ->
  exists e t, j = (e * n + t)%nat /\ (e < K)%nat /\ (t < n)%nat /\ fst x = Z.of_nat e.
Proof.
  intros Hj.
  assert (Hlt : (j < K * n)%nat) by (rewrite <- rows_len; apply nth_error_Some; congruence).
  assert (Hn0 : n <> 0%nat) by (intros ->; lia).
  pose proof (Nat.div_mod_eq j n) as Hd. pose proof (Nat.mod_upper_bound j n Hn0) as Hm.
  exists (j / n)%nat, (j mod n)%nat.
  assert (He : (j / n < K)%nat) by nia.
  split; [lia|]. split; [exact He|]. split; [exact Hm|].
  apply (rows_key _ _ x He Hm). replace (j / n * n + j mod n)%nat with j by lia. exact Hj.
Qed.

Lemma earlier_rows (e t : nat) : (e < K)%nat -> (t < n)%nat ->
  filter (fun q => Z.eqb (fst q) (Z.of_nat e)) (firstn (e * n + t) rows) =
  firstn t (skipn (e * n) rows).
Proof.
  intros He Ht.
  rewrite <- (firstn_skipn (e * n) rows) at 1. rewrite firstn_app.
  rewrite firstn_all2 by (rewrite length_firstn; lia).
  rewrite length_firstn. replace (e * n + t - Nat.min (e * n) (List.length rows))%nat
    with t by (rewrite rows_len; nia).
  rewrite filter_app. rewrite filter_all_false, filter_all_true; [reflexivity| |].
  - intros x Hx. destruct (In_nth_error _ _ Hx) as [j Hj].
    rewrite nth_error_firstn in Hj. destruct (Nat.ltb_spec j t); [|discriminate].
    rewrite nth_error_skipn in Hj. apply Z.eqb_eq.
    exact (rows_key e j x He ltac:(lia) Hj).
  - intros x Hx. destruct (In_nth_error _ _ Hx) as [j Hj].
    rewrite nth_error_firstn in Hj. destruct (Nat.ltb_spec j (e * n)); [|discriminate].
    destruct (rows_key_any j x Hj) as (e' & t' & Hj' & He' & Ht' & Hk).
    rewrite Hk. apply Z.eqb_neq. intros Heq. apply Nat2Z.inj in Heq. subst e'. nia.
Qed.

Lemma group_shift_layout (l e t : nat) : (e < K)%nat -> (t < n)%nat ->
  nth_error (group_shift (S l) rows) (e * n + t) =
    Some (if Nat.ltb l t then option_map snd (nth_error rows (e * n + t - S l)) else None).
Proof.
  intros He Ht. unfold group_shift. rewrite nth_error_map, combine_seq_nth.
  destruct (nth_error rows (e * n + t)) as [[k v]|] eqn:Ex.
  2: { exfalso. apply nth_error_None in Ex. rewrite rows_len in Ex. nia. }
  pose proof (rows_key e t (k, v) He Ht Ex) as Hk. simpl in Hk. subst k. simpl.
  rewrite (earlier_rows e t He Ht).
  rewrite nth_error_rev, length_firstn, length_skipn, rows_len.
  replace (Nat.min t (K * n - e * n)) with t by nia.
  destruct (Nat.ltb_spec l t); [|reflexivity].
  rewrite nth_error_firstn. destruct (Nat.ltb_spec (t - S l) t); [|lia].
  rewrite nth_error_skipn. do 3 f_equal. lia.
Qed.

End GroupShiftLayout.

Lemma lag_feature_layout (K n : nat) (recs : list StepRecord) (col : StepRecord -> ext)
  (l e t : nat) : episode_layout K n recs -> (e < K)%nat -> (t < n)%nat ->
  nth_error (lag_feature col (S l) recs) (e * n + t) =
    Some (if Nat.ltb l t then fillna0 (option_map col (nth_error recs (e * n + t - S l)))
          else Fin 0).
Proof.
  intros HL He Ht. unfold lag_feature. rewrite nth_error_map.
  rewrite (group_shift_layout K n).
  - simpl. destruct (Nat.ltb l t); [|reflexivity].
    rewrite nth_error_map. destruct (nth_error recs _); reflexivity.
  - rewrite length_map. exact (proj1 HL).
  - intros e' t' x He' Ht' Hx. rewrite nth_error_map in Hx.
    destruct (proj2 HL e' t' He' Ht') as (r & Hr & Hep & _).
    rewrite Hr in Hx. injection Hx as <-. exact Hep.
  - exact He.
  - exact Ht.
Qed.

Section GeneratedLayout.
Context {St : Type} `{NpRandom St}.

Lemma generate_dataset_layout_ok (cfg : SimulationConfig) (s : St) :
  exists recs, fst (generate_dataset cfg s) = Some recs /\
    episode_layout NUM_EPISODES STEPS_PER_EPISODE recs.
Proof.
  destruct (generate_dataset_ok cfg s) as (recs & Hg & Hl & _ & Hn).
  exists recs. split; [exact Hg|]. split; [exact Hl|]. intros e t He Ht.
  destruct (Hn e t He Ht) as (r & _ & Hts & Hr). eexists. split; [exact Hr|].
  split; [reflexivity | exact Hts].
Qed.

End GeneratedLayout.

(** X14 *)

(** X14: the label part of [preprocess_data()] fails (the [ValueError]
    branch of [reshape]) exactly when the CSV does not hold
    NUM_EPISODES * STEPS_PER_EPISODE rows; so it fails on the 30000 rows of
    the paper dataset.  On the rows of [generate_dataset()] the
    [sort_values(['episode_id', 'timestamp'])] leaves the order unchanged,
    and the reshape gives NUM_EPISODES sequences, sequence [e] holding at
    position [t] the label (1 for D2D, 0 for Cellular) of step [t + 1] of
    episode [e]. *)
Theorem preprocess_labels_sequences {St : Type} `{NpRandom St}
  (cfg : SimulationConfig) (pcfg : PaperConfig) (s : St) :
  (forall df, preprocess_labels df = None <->
     List.length df <> (NUM_EPISODES * STEPS_PER_EPISODE)%nat) /\
  (exists recs blocks, fst (generate_dataset cfg s) = Some recs /\
     sort_values recs = recs /\ preprocess_labels recs = Some blocks /\
     List.length blocks = NUM_EPISODES /\
     forall e t, (e < NUM_EPISODES)%nat -> (t < STEPS_PER_EPISODE)%nat ->
       exists r blk, nth_error recs (e * STEPS_PER_EPISODE + t) = Some r /\
         episode_id r = Z.of_nat e /\ timestamp r = S t /\
         nth_error blocks e = Some blk /\ nth_error blk t = Some [label_of r]) /\
  (exists recs, fst (generate_paper_dataset pcfg s) = Some recs /\
     preprocess_labels recs = None).
Proof.
  split; [exact preprocess_labels_none_iff|]. split.
  - destruct (generate_dataset_layout_ok cfg s) as (recs & Hg & HL).
    pose proof (sort_values_sorted_id recs (episode_layout_sorted _ _ _ HL)) as Hsort.
    exists recs, (chunks STEPS_PER_EPISODE NUM_EPISODES (map (fun r => [label_of r]) recs)).
    split; [exact Hg|]. split; [exact Hsort|]. split.
    { unfold preprocess_labels, reshape. rewrite Hsort, length_map, (proj1 HL).
      rewrite Nat.eqb_refl. reflexivity. }
    split; [apply chunks_length|].
    intros e t He Ht. destruct (proj2 HL e t He Ht) as (r & Hr & Hep & Hts).
    exists r, (firstn STEPS_PER_EPISODE (skipn (e * STEPS_PER_EPISODE)
                                           (map (fun r => [label_of r]) recs))).
    split; [exact Hr|]. split; [exact Hep|]. split; [exact Hts|].
    split; [apply chunks_nth; exact He|].
    rewrite chunk_cell by exact Ht. rewrite nth_error_map, Hr. reflexivity.
  - destruct (generate_paper_dataset_ok pcfg s) as (recs & Hg & Hl & _).
    exists recs. split; [exact Hg|]. apply preprocess_labels_none_iff. rewrite Hl.
    unfold P_NUM_EPISODES, P_STEPS_PER_EPISODE, NUM_EPISODES, STEPS_PER_EPISODE. lia.
Qed.

(** X15 *)

(** X15: on the rows of [generate_dataset()], the lag features
    [groupby('episode_id')[col].shift(lag).fillna(0)] never leak across
    episodes: at step [t + 1] of an episode, lag [k] is 0 when [t < k], and
    otherwise the column's value [k] rows earlier, which is in the same
    episode (a NaN value there also becomes 0). *)
Theorem lag_feature_same_episode {St : Type} `{NpRandom St}
  (cfg : SimulationConfig) (s : St) :
  exists recs, fst (generate_dataset cfg s) = Some recs /\
    forall (col : StepRecord -> ext) (k e t : nat),
      (e < NUM_EPISODES)%nat -> (t < STEPS_PER_EPISODE)%nat ->
      nth_error (lag_feature col (S k) recs) (e * STEPS_PER_EPISODE + t) =
        Some (if Nat.ltb k t
              then fillna0 (option_map col (nth_error recs (e * STEPS_PER_EPISODE + t - S k)))
              else Fin 0) /\
      ((k < t)%nat -> exists r, nth_error recs (e * STEPS_PER_EPISODE + t - S k) = Some r /\
         episode_id r = Z.of_nat e /\ timestamp r = (t - k)%nat).
Proof.
  destruct (generate_dataset_layout_ok cfg s) as (recs & Hg & HL).
  exists recs. split; [exact Hg|]. intros col k e t He Ht.
  split; [exact (lag_feature_layout _ _ recs col k e t HL He Ht)|].
  intros Hk. destruct (proj2 HL e (t - S k)%nat He ltac:(lia)) as (r & Hr & Hep & Hts).
  exists r. replace (e * STEPS_PER_EPISODE + t - S k)%nat
    with (e * STEPS_PER_EPISODE + (t - S k))%nat by lia.
  split; [exact Hr|]. split; [exact Hep|]. rewrite Hts. lia.
Qed.

(** ** Baseline metrics *)

Lemma nth_error_combine_some {A B : Type} (l1 : list A) (l2 : list B) (i : nat) (a : A) (b : B) :
  nth_error (combine l1 l2) i = Some (a, b) -> nth_error l1 i = Some a /\ nth_error l2 i = Some b.
Proof.
  revert l2 i. induction l1 as [|x l1 IH]; intros [|y l2] [|i] H; simpl in H; try discriminate.
  - injection H as -> ->. split; reflexivity.
  - exact (IH l2 i H).
Qed.

Lemma length_prev_decisions (df : list StepRecord) (ds : list string) :
  List.length ds = List.length df -> List.length (prev_decisions df ds) = List.length ds.
Proof.
  intros H. unfold prev_decisions, group_shift.
  rewrite length_map, length_combine, length_map, length_combine, length_seq,
    length_combine, length_map. lia.
Qed.

(** Where [prev_decision] comes from: the row's own decision, or the
    decision of an earlier row of the same episode. *)
Lemma prev_decisions_source (df : list StepRecord) (ds : list string) (i : nat) (p : string) :
  nth_error (prev_decisions df ds) i = Some p ->
  exists d, nth_error ds i = Some d /\
    (p = d \/ exists j r1 r2, (j < i)%nat /\ nth_error df i = Some r1 /\
       nth_error df j = Some r2 /\ episode_id r1 = episode_id r2 /\ nth_error ds j = Some p).
Proof.
  unfold prev_decisions. rewrite nth_error_map.
  destruct (nth_error (combine _ ds) i) as [[o d]|] eqn:Ec; [|discriminate].
  simpl. intros Hp. injection Hp as Hp.
  apply nth_error_combine_some in Ec. destruct Ec as [Eo Ed].
  exists d. split; [exact Ed|].
  destruct o as [p'|]; [|left; symmetry; exact Hp]. subst p'. right.
  unfold group_shift in Eo. rewrite nth_error_map, combine_seq_nth in Eo.
  destruct (nth_error (combine (map episode_id df) ds) i) as [[k v]|] eqn:Er;
    [|discriminate].
  simpl in Eo. injection Eo as Eo.
  destruct (rev (filter (fun q : Z * string => (fst q =? k)%Z)
                  (firstn i (combine (map episode_id df) ds)))) as [|[k' v'] rest] eqn:Ern;
    [discriminate|].
  assert (Hin' : In (k', v') (rev (filter (fun q : Z * string => (fst q =? k)%Z)
                  (firstn i (combine (map episode_id df) ds)))))
    by (rewrite Ern; left; reflexivity).
  simpl in Eo. injection Eo as Eo. subst v'.
  apply in_rev, filter_In in Hin'. destruct Hin' as [Hin Hk].
  apply Z.eqb_eq in Hk. simpl in Hk. subst k'.
  destruct (In_nth_error _ _ Hin) as [j Hj].
  rewrite nth_error_firstn in Hj. destruct (Nat.ltb_spec j i); [|discriminate].
  apply nth_error_combine_some in Hj, Er. destruct Hj as [Hje Hjd]. destruct Er as [Hie _].
  rewrite nth_error_map in Hje, Hie.
  destruct (nth_error df i) as [r1|] eqn:E1; [|discriminate].
  destruct (nth_error df j) as [r2|] eqn:E2; [|discriminate].
  simpl in Hje, Hie. injection Hje as Hje. injection Hie as Hie.
  exists j, r1, r2. repeat split; try assumption. congruence.
Qed.

Lemma prev_decisions_constant (df : list StepRecord) (ds : list string) :
  (forall i j r1 r2 d1 d2, nth_error df i = Some r1 -> nth_error df j = Some r2 ->
     episode_id r1 = episode_id r2 -> nth_error ds i = Some d1 -> nth_error ds j = Some d2 ->
     d1 = d2) ->
  forall i d p, nth_error ds i = Some d -> nth_error (prev_decisions df ds) i = Some p -> p = d.
Proof.
  intros Hc i d p Hd Hp.
  destruct (prev_decisions_source df ds i p Hp) as (d' & Hd' & [-> | (j & r1 & r2 & _ & E1 & E2 & Ee & Ej)]);
    rewrite Hd in Hd'; injection Hd' as <-; [reflexivity|].
  symmetry. exact (Hc i j r1 r2 d p E1 E2 Ee Hd Ej).
Qed.

Lemma total_switches_constant (df : list StepRecord) (ds : list string) :
  (forall i j r1 r2 d1 d2, nth_error df i = Some r1 -> nth_error df j = Some r2 ->
     episode_id r1 = episode_id r2 -> nth_error ds i = Some d1 -> nth_error ds j = Some d2 ->
     d1 = d2) ->
  total_switches df ds = 0%nat.
Proof.
  intros Hc. unfold total_switches. rewrite filter_all_false; [reflexivity|].
  intros [d p] Hin. destruct (In_nth_error _ _ Hin) as [i Hi].
  apply nth_error_combine_some in Hi. destruct Hi as [Hd Hp].
  rewrite (prev_decisions_constant df ds Hc i d p Hd Hp), String.eqb_refl. reflexivity.
Qed.

Lemma repeat_constant (df : list StepRecord) (m : string) :
  forall i j r1 r2 d1 d2, nth_error df i = Some r1 -> nth_error df j = Some r2 ->
    episode_id r1 = episode_id r2 ->
    nth_error (repeat m (List.length df)) i = Some d1 ->
    nth_error (repeat m (List.length df)) j = Some d2 -> d1 = d2.
Proof.
  intros i j r1 r2 d1 d2 _ _ _ H1 H2.
  apply nth_error_In, repeat_spec in H1. apply nth_error_In, repeat_spec in H2. congruence.
Qed.

Lemma fold_ext_add_fin (xs : list R) (a : R) :
  fold_left ext_add (map Fin xs) (Fin a) = Fin (fold_left Rplus xs a).
Proof. revert a. induction xs as [|x xs IH]; intros a; [reflexivity|]. apply IH. Qed.

Lemma fold_Rplus_shift (xs : list R) (a : R) :
  fold_left Rplus xs a = a + fold_left Rplus xs 0.
Proof.
  revert a. induction xs as [|x xs IH]; intros a; simpl; [ring|].
  rewrite (IH (a + x)), (IH (0 + x)). ring.
Qed.

Lemma fold_Rplus_le (xs ys : list R) :
  List.length xs = List.length ys ->
  (forall i x y, nth_error xs i = Some x -> nth_error ys i = Some y -> x <= y) ->
  fold_left Rplus xs 0 <= fold_left Rplus ys 0.
Proof.
  revert ys. induction xs as [|x xs IH]; intros [|y ys] Hl Hle; try discriminate; simpl; [lra|].
  rewrite (fold_Rplus_shift xs), (fold_Rplus_shift ys).
  pose proof (Hle 0%nat x y eq_refl eq_refl).
  assert (fold_left Rplus xs 0 <= fold_left Rplus ys 0).
  { apply IH; [simpl in Hl; lia|]. intros i a b Ha Hb. exact (Hle (S i) a b Ha Hb). }
  lra.
Qed.

Lemma ext_mean_fin (xs : list R) : xs <> [] ->
  ext_mean (map Fin xs) = Fin (fold_left Rplus xs 0 / INR (List.length xs)).
Proof.
  intros Hne. destruct xs as [|x xs']; [contradiction|].
  unfold ext_mean. remember (x :: xs') as xs. simpl map.
  change (match Fin x :: map Fin xs' with [] => NaN | _ :: _ =>
            ext_div (fold_left ext_add (Fin x :: map Fin xs') (Fin 0))
              (INR (List.length (Fin x :: map Fin xs'))) end)
    with (ext_div (fold_left ext_add (map Fin (x :: xs')) (Fin 0))
            (INR (List.length (map Fin (x :: xs'))))).
  rewrite Heqxs, fold_ext_add_fin, length_map. unfold ext_div, ext_scale, Rdiv.
  cbn -[fold_left INR Datatypes.length]. f_equal. ring.
Qed.

(** X16 *)

(** X16: [calculate_metrics] counts no switch for decisions that never
    change within an episode (the same decision for any two rows with the
    same [episode_id]), whatever the row order: [total_switches] is 0, and
    the switching rate of a non-empty table is 0. *)
Theorem switches_constant_within_episode (df : list StepRecord) (ds : list string)
  (Hconst : forall i j r1 r2 d1 d2, nth_error df i = Some r1 -> nth_error df j = Some r2 ->
     episode_id r1 = episode_id r2 -> nth_error ds i = Some d1 -> nth_error ds j = Some d2 ->
     d1 = d2) :
  total_switches df ds = 0%nat /\ (df <> [] -> switch_rate df ds = Fin 0).
Proof.
  pose proof (total_switches_constant df ds Hconst) as H0.
  split; [exact H0|]. intros Hne. unfold switch_rate. rewrite H0.
  unfold py_div. simpl TIME_STEP_S.
  destruct (Req_dec_T (INR (List.length df) * 1) 0) as [E | E].
  - exfalso. destruct df as [|r df']; [contradiction|].
    simpl List.length in E. rewrite S_INR in E. pose proof (pos_INR (List.length df')). lra.
  - simpl. f_equal. unfold Rdiv. ring.
Qed.

Lemma switches_constant_within_episode_witness :
  let df := [sample_row 0 1 "D2D" 2 1; sample_row 0 2 "D2D" 3 1;
             sample_row 1 1 "Cellular" 1 2] in
  let ds := ["D2D"; "D2D"; "Cellular"] in
  (forall i j r1 r2 d1 d2, nth_error df i = Some r1 -> nth_error df j = Some r2 ->
     episode_id r1 = episode_id r2 -> nth_error ds i = Some d1 -> nth_error ds j = Some d2 ->
     d1 = d2) /\
  total_switches df ds = 0%nat /\ (df <> [] /\ switch_rate df ds = Fin 0).
Proof.
  intros df ds.
  assert (Hc : forall i j r1 r2 d1 d2, nth_error df i = Some r1 -> nth_error df j = Some r2 ->
     episode_id r1 = episode_id r2 -> nth_error ds i = Some d1 -> nth_error ds j = Some d2 ->
     d1 = d2).
  { unfold df, ds. intros [|[|[|i]]] [|[|[|j]]] r1 r2 d1 d2 E1 E2 Ee D1 D2; simpl in *;
      rewrite ?nth_error_nil in *; try discriminate;
      injection E1 as <-; injection E2 as <-; injection D1 as <-; injection D2 as <-;
      simpl in Ee; congruence. }
  assert (Hne : df <> []) by discriminate.
  destruct (switches_constant_within_episode df ds Hc) as [A B].
  split; [exact Hc|]. split; [exact A|]. split; [exact Hne | exact (B Hne)].
Defined.

(** X17 *)

(** X17: the two fixed policies never switch: for every table, Always D2D
    and Always Cellular have [total_switches] 0, and Always Cellular has an
    average D2D residence time of 0 (the [d2d_blocks.sum() == 0] branch). *)
Theorem fixed_policies_never_switch (df : list StepRecord) :
  total_switches df (policy_always_d2d df) = 0%nat /\
  total_switches df (policy_always_cellular df) = 0%nat /\
  avg_residence_time df (policy_always_cellular df) = Fin 0.
Proof.
  split; [apply total_switches_constant, repeat_constant|].
  split; [apply total_switches_constant, repeat_constant|].
  unfold avg_residence_time, policy_always_cellular.
  rewrite filter_all_false; [reflexivity|].
  intros x Hx. apply repeat_spec in Hx. subst x. reflexivity.
Qed.

(** X18 *)


Lemma choose_sum_le (df : list StepRecord) (ds : list string) :
  (forall r, In r df ->
     (exists a b, throughput_d2d_mbps r = Fin a /\ throughput_cell_mbps r = Fin b) /\
     optimal_mode r = (if ext_ge (throughput_d2d_mbps r) (throughput_cell_mbps r)
                       then "D2D" else "Cellular")) ->
  List.length ds = List.length df ->
  fold_left Rplus (map chosen_value (combine df ds)) 0 <=
  fold_left Rplus (map chosen_value (combine df (map optimal_mode df))) 0.
Proof.
  revert ds. induction df as [|r df IH]; intros [|d ds] Hr Hl; try discriminate; simpl; [lra|].
  rewrite (fold_Rplus_shift (map chosen_value (combine df ds))),
    (fold_Rplus_shift (map chosen_value (combine df (map optimal_mode df)))).
  assert (Hrest : fold_left Rplus (map chosen_value (combine df ds)) 0 <=
                  fold_left Rplus (map chosen_value (combine df (map optimal_mode df))) 0).
  { apply IH; [intros q Hq; apply Hr; right; exact Hq | simpl in Hl; lia]. }
  destruct (Hr r (or_introl eq_refl)) as [(a & b & Ea & Eb) Hm].
  assert (Hone : chosen_value (r, d) <= chosen_value (r, optimal_mode r)).
  { unfold chosen_value. rewrite Hm, Ea, Eb. simpl.
    destruct (Rge_dec a b) as [Hab | Hab]; simpl;
      destruct (String.eqb d "D2D"); simpl; lra. }
  simpl in Hone. lra.
Qed.

Lemma final_throughput_fin (df : list StepRecord) (ds : list string) :
  (forall r, In r df ->
     exists a b, throughput_d2d_mbps r = Fin a /\ throughput_cell_mbps r = Fin b) ->
  final_throughput df ds = map Fin (map chosen_value (combine df ds)).
Proof.
  intros Hr. unfold final_throughput. rewrite map_map. apply map_ext_in.
  intros [r d] Hin. apply in_combine_l in Hin.
  destruct (Hr r Hin) as (a & b & Ea & Eb). unfold chosen_value.
  rewrite Ea, Eb. destruct (String.eqb d "D2D"); reflexivity.
Qed.

(** X19 *)

(** X19: on rows whose throughputs are finite and whose [optimal_mode] is
    the [step()] label ("D2D" exactly when the D2D throughput is at least
    the cellular one), the Ground Truth policy's average throughput is at
    least that of every decision list of the same length. *)
Theorem ground_truth_max_throughput (df : list StepRecord) (ds : list string)
  (Hrows : forall r, In r df ->
     (exists a b, throughput_d2d_mbps r = Fin a /\ throughput_cell_mbps r = Fin b) /\
     optimal_mode r = (if ext_ge (throughput_d2d_mbps r) (throughput_cell_mbps r)
                       then "D2D" else "Cellular"))
  (Hne : df <> []) (Hlen : List.length ds = List.length df) :
  exists g x, avg_throughput df (policy_ground_truth df) = Fin g /\
    avg_throughput df ds = Fin x /\ x <= g.
Proof.
  assert (Hfin : forall r, In r df ->
            exists a b, throughput_d2d_mbps r = Fin a /\ throughput_cell_mbps r = Fin b)
    by (intros r Hr; exact (proj1 (Hrows r Hr))).
  assert (Hl1 : List.length (map chosen_value (combine df ds)) = List.length df)
    by (rewrite length_map, length_combine; lia).
  assert (Hl2 : List.length (map chosen_value (combine df (map optimal_mode df))) =
                List.length df)
    by (rewrite length_map, length_combine, length_map; lia).
  assert (Hpos : 0 < INR (List.length df))
    by (destruct df as [|r df']; [contradiction | simpl List.length; rewrite S_INR;
        pose proof (pos_INR (List.length df')); lra]).
  unfold avg_throughput, policy_ground_truth.
  rewrite (final_throughput_fin df ds Hfin), (final_throughput_fin df _ Hfin).
  rewrite !ext_mean_fin.
  2-3: intros E; apply (f_equal (@List.length R)) in E;
    (rewrite Hl1 in E || rewrite Hl2 in E); simpl in E; rewrite E in Hpos;
    simpl in Hpos; lra.
  do 2 eexists. split; [reflexivity|]. split; [reflexivity|].
  rewrite Hl1, Hl2. unfold Rdiv. apply Rmult_le_compat_r.
  - left. apply Rinv_0_lt_compat. exact Hpos.
  - apply choose_sum_le; assumption.
Qed.

Lemma ground_truth_max_throughput_witness :
  let df := [sample_row 0 1 "D2D" 2 1; sample_row 0 2 "Cellular" 1 3] in
  let ds := ["Cellular"; "Cellular"] in
  (forall r, In r df ->
     (exists a b, throughput_d2d_mbps r = Fin a /\ throughput_cell_mbps r = Fin b) /\
     optimal_mode r = (if ext_ge (throughput_d2d_mbps r) (throughput_cell_mbps r)
                       then "D2D" else "Cellular")) /\
  df <> [] /\ List.length ds = List.length df /\
  exists g x, avg_throughput df (policy_ground_truth df) = Fin g /\
    avg_throughput df ds = Fin x /\ x <= g.
Proof.
  intros df ds.
  assert (Hr : forall r, In r df ->
     (exists a b, throughput_d2d_mbps r = Fin a /\ throughput_cell_mbps r = Fin b) /\
     optimal_mode r = (if ext_ge (throughput_d2d_mbps r) (throughput_cell_mbps r)
                       then "D2D" else "Cellular")).
  { unfold df. intros r [<- | [<- | []]]; simpl; (split; [do 2 eexists; split; reflexivity|]).
    - destruct (Rge_dec 2 1); [reflexivity | lra].
    - destruct (Rge_dec 1 3); [lra | reflexivity]. }
  assert (Hne : df <> []) by discriminate.
  assert (Hl : List.length ds = List.length df) by reflexivity.
  split; [exact Hr|]. split; [exact Hne|]. split; [exact Hl|].
  exact (ground_truth_max_throughput df ds Hr Hne Hl).
Defined.

(** ** Residence time of Always D2D *)

Lemma index_split (K n i : nat) : (i < K * n)%nat ->
  exists e t, i = (e * n + t)%nat /\ (e < K)%nat /\ (t < n)%nat.
Proof.
  intros Hi. assert (Hn0 : n <> 0%nat) by (intros ->; lia).
  pose proof (Nat.div_mod_eq i n) as Hd. pose proof (Nat.mod_upper_bound i n Hn0) as Hm.
  exists (i / n)%nat, (i mod n)%nat. split; [lia|]. split; [nia | exact Hm].
Qed.

Lemma length_concat_repeat {A : Type} (f : nat -> A) (n K k : nat) :
  List.length (List.concat (map (fun j => repeat (f j) n) (seq k K))) = (K * n)%nat.
Proof.
  revert k. induction K as [|K IH]; intros k; [reflexivity|]. simpl.
  rewrite length_app, repeat_length, IH. reflexivity.
Qed.

Lemma concat_repeat_nth {A : Type} (f : nat -> A) (n K k e t : nat) :
  (e < K)%nat -> (t < n)%nat ->
  nth_error (List.concat (map (fun j => repeat (f j) n) (seq k K))) (e * n + t) = Some (f (k + e)%nat).
Proof.
  revert k e. induction K as [|K IH]; intros k e He Ht; [lia|]. simpl.
  destruct e as [|e].
  - rewrite nth_error_app1 by (rewrite repeat_length; lia).
    rewrite nth_error_repeat by lia. rewrite Nat.add_0_r. reflexivity.
  - rewrite nth_error_app2 by (rewrite repeat_length; nia).
    rewrite repeat_length. replace (S e * n + t - n)%nat with (e * n + t)%nat by nia.
    rewrite IH by lia. do 2 f_equal. lia.
Qed.

Lemma layout_episode_ids (K n : nat) (recs : list StepRecord) :
  episode_layout K n recs ->
  map episode_id recs = List.concat (map (fun j => repeat (Z.of_nat j) n) (seq 0 K)).
Proof.
  intros [Hl Hn]. apply nth_error_ext. intros i.
  destruct (Nat.lt_ge_cases i (K * n)) as [Hi | Hi].
  - destruct (index_split K n i Hi) as (e & t & -> & He & Ht).
    rewrite concat_repeat_nth by assumption. rewrite nth_error_map.
    destruct (Hn e t He Ht) as (r & Hr & Hep & _). rewrite Hr. simpl. rewrite Hep. reflexivity.
  - rewrite (proj2 (nth_error_None _ _)) by (rewrite length_map; lia).
    rewrite (proj2 (nth_error_None _ _)) by (rewrite length_concat_repeat; lia).
    reflexivity.
Qed.

Lemma episode_changes_repeat (m : nat) (e : Z) (rest : list Z) :
  episode_changes (Some e) (app (repeat e m) rest) = app (repeat false m) (episode_changes (Some e) rest).
Proof.
  induction m as [|m IH]; [reflexivity|]. simpl. rewrite Z.eqb_refl, IH. reflexivity.
Qed.

Lemma episode_changes_blocks (m K k : nat) (prev : option Z) :
  (forall p, prev = Some p -> p <> Z.of_nat k) ->
  episode_changes prev (List.concat (map (fun j => repeat (Z.of_nat j) (S m)) (seq k K))) =
  List.concat (map (fun _ => true :: repeat false m) (seq k K)).
Proof.
  revert k prev. induction K as [|K IH]; intros k prev Hp; [reflexivity|]. simpl.
  assert (Hfirst : match prev with Some p => negb (Z.of_nat k =? p)%Z | None => true end = true).
  { destruct prev as [p|]; [|reflexivity].
    specialize (Hp p eq_refl). apply Bool.negb_true_iff, Z.eqb_neq. congruence. }
  rewrite Hfirst, episode_changes_repeat, IH; [reflexivity|].
  intros p Hpq. injection Hpq as <-. lia.
Qed.

Lemma cumsum_falses (a m : nat) (rest : list bool) :
  cumsum a (app (repeat false m) rest) = app (repeat a m) (cumsum a rest).
Proof. induction m as [|m IH]; [reflexivity|]. simpl. rewrite IH. reflexivity. Qed.

Lemma cumsum_blocks (m K k acc : nat) :
  cumsum acc (List.concat (map (fun _ => true :: repeat false m) (seq k K))) =
  List.concat (map (fun j => repeat (S j) (S m)) (seq acc K)).
Proof.
  revert k acc. induction K as [|K IH]; intros k acc; [reflexivity|]. simpl.
  rewrite cumsum_falses, IH. reflexivity.
Qed.

Lemma length_episode_changes (prev : option Z) (eps : list Z) :
  List.length (episode_changes prev eps) = List.length eps.
Proof.
  revert prev. induction eps as [|e eps IH]; intros prev; [reflexivity|]. simpl.
  rewrite IH. reflexivity.
Qed.

Lemma all_eq_repeat {A : Type} (a : A) (l : list A) :
  (forall x, In x l -> x = a) -> l = repeat a (List.length l).
Proof.
  induction l as [|x l IH]; intros H; [reflexivity|]. simpl.
  rewrite (H x (or_introl eq_refl)), <- IH; [reflexivity|].
  intros y Hy. apply H. right. exact Hy.
Qed.

Lemma flags_of_same (L : nat) (d : string) (chs : list bool) : List.length chs = L ->
  map (fun '(dp, ch) => (negb (String.eqb (fst dp) (snd dp)) || ch)%bool)
      (combine (combine (repeat d L) (repeat d L)) chs) = chs.
Proof.
  revert chs. induction L as [|L IH]; intros [|c chs] Hl; try discriminate; [reflexivity|].
  simpl. rewrite String.eqb_refl, IH by (simpl in Hl; lia). reflexivity.
Qed.

Lemma keep_all_d2d (ids : list nat) :
  map fst (filter (fun '(_, d) => String.eqb d "D2D")
                  (combine ids (repeat "D2D" (List.length ids)))) = ids.
Proof. induction ids as [|b ids IH]; [reflexivity|]. simpl. rewrite IH. reflexivity. Qed.

Lemma count_blocks (n K k j0 : nat) :
  count_occ Nat.eq_dec (List.concat (map (fun j => repeat (S j) n) (seq k K))) (S j0) =
  if (Nat.leb k j0 && Nat.ltb j0 (k + K))%bool then n else 0%nat.
Proof.
  revert k. induction K as [|K IH]; intros k.
  - simpl. destruct (Nat.leb_spec k j0), (Nat.ltb_spec j0 (k + 0)); simpl; lia.
  - simpl. rewrite count_occ_app, IH.
    destruct (Nat.eq_dec k j0) as [-> | Hne].
    + rewrite count_occ_repeat_eq by reflexivity.
      destruct (Nat.leb_spec j0 j0), (Nat.leb_spec (S j0) j0),
               (Nat.ltb_spec j0 (j0 + S K)), (Nat.ltb_spec j0 (S j0 + K));
        simpl; lia.
    + rewrite count_occ_repeat_neq by congruence.
      destruct (Nat.leb_spec k j0), (Nat.leb_spec (S k) j0),
               (Nat.ltb_spec j0 (k + S K)), (Nat.ltb_spec j0 (S k + K));
        simpl; lia.
Qed.

Lemma sum_const (c : R) (xs : list R) : (forall x, In x xs -> x = c) ->
  fold_left Rplus xs 0 = INR (List.length xs) * c.
Proof.
  induction xs as [|x xs IH]; intros H; simpl; [ring|].
  rewrite fold_Rplus_shift, IH by (intros y Hy; apply H; right; exact Hy).
  rewrite (H x (or_introl eq_refl)). destruct (List.length xs); simpl; ring.
Qed.

Lemma ext_mean_const (c : R) (xs : list R) : xs <> [] -> (forall x, In x xs -> x = c) ->
  ext_mean (map Fin xs) = Fin c.
Proof.
  intros Hne H. rewrite ext_mean_fin by exact Hne. rewrite (sum_const c xs H).
  f_equal. field. destruct xs as [|x xs]; [contradiction|]. simpl List.length.
  rewrite S_INR. pose proof (pos_INR (List.length xs)). lra.
Qed.

Lemma always_d2d_residence_layout (K n : nat) (recs : list StepRecord) :
  episode_layout K n recs -> (0 < K)%nat -> (0 < n)%nat ->
  avg_residence_time recs (policy_always_d2d recs) =
    Fin (INR n * TIME_STEP_S simulation_config).
Proof.
  intros HL HK Hn. pose proof (proj1 HL) as Hl.
  set (L := List.length recs) in *.
  assert (Hprev : prev_decisions recs (policy_always_d2d recs) = repeat "D2D" L).
  { rewrite (all_eq_repeat "D2D" (prev_decisions recs (policy_always_d2d recs))).
    - rewrite length_prev_decisions; unfold policy_always_d2d; rewrite repeat_length;
        reflexivity.
    - intros p Hp. destruct (In_nth_error _ _ Hp) as [i Hi].
      assert (Hil : (i < L)%nat).
      { assert (Hs : nth_error (prev_decisions recs (policy_always_d2d recs)) i <> None)
          by congruence.
        apply nth_error_Some in Hs. rewrite length_prev_decisions in Hs.
        - unfold policy_always_d2d in Hs. rewrite repeat_length in Hs. exact Hs.
        - unfold policy_always_d2d. apply repeat_length. }
      assert (Hd : nth_error (policy_always_d2d recs) i = Some "D2D")
        by (unfold policy_always_d2d; apply nth_error_repeat; exact Hil).
      exact (prev_decisions_constant recs _ (repeat_constant recs "D2D") i _ p Hd Hi). }
  unfold avg_residence_time.
  assert (Hfd : List.length (filter (fun d => String.eqb d "D2D") (policy_always_d2d recs)) = L).
  { unfold policy_always_d2d. rewrite filter_all_true; [apply repeat_length|].
    intros x Hx. apply repeat_spec in Hx. subst x. reflexivity. }
  rewrite Hfd. destruct (Nat.eqb_spec L 0) as [E | _]; [unfold L in E; nia|].
  assert (Hids : block_ids recs (policy_always_d2d recs) =
                 List.concat (map (fun j => repeat (S j) n) (seq 0 K))).
  { unfold block_ids. rewrite Hprev. unfold policy_always_d2d. fold L.
    rewrite flags_of_same.
    2: { rewrite length_episode_changes, length_map. reflexivity. }
    rewrite (layout_episode_ids K n recs HL).
    destruct n as [|m]; [lia|].
    rewrite episode_changes_blocks by (intros p Hp; discriminate).
    apply cumsum_blocks. }
  rewrite Hids.
  assert (Hp' : policy_always_d2d recs =
                repeat "D2D" (List.length (List.concat (map (fun j => repeat (S j) n) (seq 0 K))))).
  { unfold policy_always_d2d. rewrite length_concat_repeat. f_equal. exact Hl. }
  rewrite Hp', keep_all_d2d.
  unfold block_lengths. rewrite map_map.
  rewrite <- (map_map (fun b => INR (count_occ Nat.eq_dec _ b) * TIME_STEP_S simulation_config) Fin).
  apply ext_mean_const.
  - intros E. apply map_eq_nil in E.
    assert (Hin : In 1%nat (List.concat (map (fun j => repeat (S j) n) (seq 0 K)))).
    { apply in_concat. exists (repeat 1%nat n). split.
      - apply in_map_iff. exists 0%nat. split; [reflexivity|]. apply in_seq. lia.
      - destruct n; [lia|]. left. reflexivity. }
    apply nodup_In with (decA := Nat.eq_dec) in Hin. rewrite E in Hin. exact Hin.
  - intros x Hx. apply in_map_iff in Hx. destruct Hx as (b & <- & Hb).
    apply nodup_In, in_concat in Hb. destruct Hb as (blk & Hblk & Hb).
    apply in_map_iff in Hblk. destruct Hblk as (j & <- & Hj). apply in_seq in Hj.
    apply repeat_spec in Hb. subst b. rewrite count_blocks.
    destruct (Nat.leb_spec 0 j); [|lia]. destruct (Nat.ltb_spec j (0 + K)); [|lia].
    reflexivity.
Qed.

(** X20 *)

(** X20: for Always D2D on the rows of [generate_dataset()], the blocks of
    [avg_residence_time] are exactly the episodes ([block_id] grows at each
    change of [episode_id], never in between), so the average D2D residence
    time is the length of an episode, STEPS_PER_EPISODE * TIME_STEP_S
    (100 s). *)
Theorem always_d2d_residence_time {St : Type} `{NpRandom St}
  (cfg : SimulationConfig) (s : St) :
  exists recs, fst (generate_dataset cfg s) = Some recs /\
    avg_residence_time recs (policy_always_d2d recs) =
      Fin (INR STEPS_PER_EPISODE * TIME_STEP_S simulation_config).
Proof.
  destruct (generate_dataset_layout_ok cfg s) as (recs & Hg & HL).
  exists recs. split; [exact Hg|].
  apply (always_d2d_residence_layout NUM_EPISODES); [exact HL | | ];
    unfold NUM_EPISODES, STEPS_PER_EPISODE; lia.
Qed.
